(** * Hotel price scraper: price normalisation, extraction, retry,
      pipeline and comparison

    A shallow embedding of the TypeScript sources

    - [server/services/webbeds-scraper.ts], first document  (module [V1]),
    - [server/services/webbeds-scraper.ts], second document (module [V2]),
    - [src/server/database.ts]                               (module [Db]),
    - [server/_core/routes/hotels.ts]                        (module [Routes]),

    together with the parts of the ECMAScript library the sources call
    (strings of UTF-16 code units, [trim], [parseFloat], [toFixed],
    regular expressions with backtracking, [Array.prototype.sort]). *)

From Stdlib Require Import String Ascii.
From Stdlib Require Import List ZArith NArith Lia Bool DecimalPos.
From Stdlib Require Import Floats.SpecFloat.
From Stdlib Require Import Sorting.Sorted Sorting.Permutation.
Import ListNotations.

Set Implicit Arguments.

(* ===================================================================== *)
(** * ECMAScript strings *)
(* ===================================================================== *)

(** A JavaScript string is a sequence of UTF-16 code units. *)
Definition jsstring := list N.

(** ASCII literals of the sources. *)
Definition lit (s : string) : jsstring :=
  map N_of_ascii (list_ascii_of_string s).

Definition jseqb (a b : jsstring) : bool :=
  if list_eq_dec N.eq_dec a b then true else false.

(** Code units the sources name. *)
Definition cu_dollar : N := 36.      (* $ *)
Definition cu_comma  : N := 44.      (* , *)
Definition cu_dot    : N := 46.      (* . *)
Definition cu_plus   : N := 43.
Definition cu_minus  : N := 45.
Definition cu_space  : N := 32.
Definition cu_pound  : N := 163.     (* U+00A3 *)
Definition cu_yen    : N := 165.     (* U+00A5 *)
Definition cu_euro   : N := 8364.    (* U+20AC *)
Definition cu_rupee  : N := 8377.    (* U+20B9 *)

(** [WhiteSpace] and [LineTerminator] code units: the set stripped by
    [String.prototype.trim] and matched by the class escape [\s]. *)
Definition is_space (c : N) : bool :=
  ((9 <=? c) && (c <=? 13) || (c =? 32) || (c =? 160) || (c =? 5760)
   || (8192 <=? c) && (c <=? 8202) || (c =? 8232) || (c =? 8233)
   || (c =? 8239) || (c =? 8287) || (c =? 12288) || (c =? 65279))%N.

(** [\d] *)
Definition is_digit (c : N) : bool := ((48 <=? c) && (c <=? 57))%N.

(** [\w]: the word characters used by the assertion [\b]. *)
Definition is_word (c : N) : bool :=
  ((65 <=? c) && (c <=? 90) || (97 <=? c) && (c <=? 122)
   || is_digit c || (c =? 95))%N.

Fixpoint trimStart (s : jsstring) : jsstring :=
  match s with
  | c :: t => if is_space c then trimStart t else s
  | [] => []
  end.

Definition trimEnd (s : jsstring) : jsstring := rev (trimStart (rev s)).

(** [String.prototype.trim] *)
Definition trim (s : jsstring) : jsstring := trimEnd (trimStart s).

Fixpoint startsWith (p s : jsstring) : bool :=
  match p, s with
  | [], _ => true
  | a :: p', b :: s' => (a =? b)%N && startsWith p' s'
  | _ :: _, [] => false
  end.

(** [s.includes(p)] *)
Fixpoint includes (p s : jsstring) : bool :=
  startsWith p s || match s with [] => false | _ :: t => includes p t end.

(** [s.replace(p, r)] with a string pattern: the first occurrence only.
    The replacement strings of the sources are empty, so no [$]
    substitution pattern occurs. *)
Fixpoint replaceFirst (p r s : jsstring) : jsstring :=
  if startsWith p s then r ++ skipn (length p) s
  else match s with
       | [] => []
       | c :: t => c :: replaceFirst p r t
       end.

(** [s.lastIndexOf(c)] for a one-unit pattern; [-1] when absent. *)
Fixpoint lastIndexOf_from (c : N) (s : jsstring) (i : Z) (acc : Z) : Z :=
  match s with
  | [] => acc
  | d :: t => lastIndexOf_from c t (i + 1) (if (d =? c)%N then i else acc)
  end.

Definition lastIndexOf (c : N) (s : jsstring) : Z :=
  lastIndexOf_from c s 0 (-1).

(** [toUpperCase] on the ASCII letters.  The sources apply it only to the
    text captured by the currency-code pattern, which consists of ASCII
    letters (lemma [code_match_group] below). *)
Definition upper_cu (c : N) : N :=
  if ((97 <=? c) && (c <=? 122))%N then (c - 32)%N else c.

Definition toUpperCase (s : jsstring) : jsstring := map upper_cu s.

(* ===================================================================== *)
(** * ECMAScript numbers *)
(* ===================================================================== *)

(** A Number is an IEEE 754 binary64 value: [S754_finite s m e] is
    [(-1)^s * m * 2^e] with [m] and [e] in canonical form. *)
Definition number := spec_float.

Definition prec : Z := 53.
Definition emax : Z := 1024.

Definition NaN : number := S754_nan.

Definition isNaN (x : number) : bool :=
  match x with S754_nan => true | _ => false end.

(** [x > y] and [x >= y] on Numbers (false when either side is NaN). *)
Definition num_gt (x y : number) : bool := SFltb y x.
Definition num_ge (x y : number) : bool := SFleb y x.
Definition num_zero : number := S754_zero false.

(** The Number nearest to the rational [p / q] (ties to even), computed
    as the IEEE division does: a quotient with enough bits and the
    location of the remainder, then one rounding. *)
Definition round_ratio (neg : bool) (p q : positive) : number :=
  let '(mz, ez, lz) := SFdiv_core_binary prec emax (Zpos p) 0 (Zpos q) 0 in
  binary_round_aux prec emax neg mz ez lz.

(** The Number for the decimal [m * 10^e]. *)
Definition decimal_number (neg : bool) (m : N) (e : Z) : number :=
  match m with
  | N0 => S754_zero neg
  | Npos p =>
      if (0 <=? e)%Z then round_ratio neg (p * Z.to_pos (10 ^ e)) 1
      else round_ratio neg p (Z.to_pos (10 ^ (- e)))
  end.

(** The Number of a mathematical non-negative integer. *)
Definition number_of_N (n : N) : number := decimal_number false n 0.

(** The Number of a mathematical integer. *)
Definition number_of_Z (z : Z) : number :=
  decimal_number (z <? 0)%Z (Z.abs_N z) 0.

(** [Math.floor] of a finite Number, as a mathematical integer.  A Number
    that is not finite has no such floor; it is given 0 here. *)
Definition floor_number (x : number) : Z :=
  match x with
  | S754_finite s m e =>
      let z := if s then Z.neg m else Z.pos m in
      if (0 <=? e)%Z then (z * 2 ^ e)%Z else (z / 2 ^ (- e))%Z
  | _ => 0%Z
  end.

Fixpoint span_digits (s : jsstring) : jsstring * jsstring :=
  match s with
  | c :: t =>
      if is_digit c then let '(d, r) := span_digits t in (c :: d, r)
      else ([], s)
  | [] => ([], [])
  end.

Definition digits_value (ds : jsstring) : N :=
  fold_left (fun a c => (10 * a + (c - 48))%N) ds 0%N.

(** [ExponentPart] of a [StrDecimalLiteral], [0] when there is none. *)
Definition exponent_part (s : jsstring) : Z :=
  match s with
  | c :: t =>
      if ((c =? 101) || (c =? 69))%N then
        let '(neg, t') :=
          match t with
          | d :: t'' =>
              if (d =? cu_plus)%N then (false, t'')
              else if (d =? cu_minus)%N then (true, t'')
              else (false, t)
          | [] => (false, t)
          end in
        match fst (span_digits t') with
        | [] => 0%Z
        | ds => if neg then (- Z.of_N (digits_value ds))%Z
                else Z.of_N (digits_value ds)
        end
      else 0%Z
  | [] => 0%Z
  end.

(** [parseFloat]: leading white space is skipped, then the longest prefix
    that is a [StrDecimalLiteral] is converted; [NaN] when there is no
    such prefix. *)
Definition parseFloat (s : jsstring) : number :=
  let t := trimStart s in
  let '(neg, u) :=
    match t with
    | c :: t' =>
        if (c =? cu_plus)%N then (false, t')
        else if (c =? cu_minus)%N then (true, t')
        else (false, t)
    | [] => (false, t)
    end in
  if startsWith (lit "Infinity") u then S754_infinity neg
  else
    let '(ip, r1) := span_digits u in
    match r1 with
    | c :: r2 =>
        if (c =? cu_dot)%N then
          let '(fp, r3) := span_digits r2 in
          match ip, fp with
          | [], [] => NaN
          | _, _ =>
              decimal_number neg (digits_value (ip ++ fp))
                (exponent_part r3 - Z.of_nat (length fp))
          end
        else
          match ip with
          | [] => NaN
          | _ => decimal_number neg (digits_value ip) (exponent_part r1)
          end
    | [] =>
        match ip with
        | [] => NaN
        | _ => decimal_number neg (digits_value ip) 0
        end
    end.

(** Decimal digits of a natural number, most significant first. *)
Fixpoint uint_units (u : Decimal.uint) : jsstring :=
  match u with
  | Decimal.Nil => []
  | Decimal.D0 v => 48%N :: uint_units v
  | Decimal.D1 v => 49%N :: uint_units v
  | Decimal.D2 v => 50%N :: uint_units v
  | Decimal.D3 v => 51%N :: uint_units v
  | Decimal.D4 v => 52%N :: uint_units v
  | Decimal.D5 v => 53%N :: uint_units v
  | Decimal.D6 v => 54%N :: uint_units v
  | Decimal.D7 v => 55%N :: uint_units v
  | Decimal.D8 v => 56%N :: uint_units v
  | Decimal.D9 v => 57%N :: uint_units v
  end.

Definition N_digits (n : N) : jsstring := uint_units (N.to_uint n).

(** The integer closest to [100 * m * 2^e], the larger one on a tie. *)
Definition hundredths (m : positive) (e : Z) : N :=
  if (0 <=? e)%Z then (Npos m * 2 ^ Z.to_N e * 100)%N
  else ((200 * Npos m + 2 ^ Z.to_N (- e)) / 2 ^ Z.to_N (1 - e))%N.

(** Is [m * 2^e >= 10^21]? *)
Definition at_least_1e21 (m : positive) (e : Z) : bool :=
  if (0 <=? e)%Z then (10 ^ 21 <=? Npos m * 2 ^ Z.to_N e)%N
  else (10 ^ 21 * 2 ^ Z.to_N (- e) <=? Npos m)%N.

(** [Number::toString] for an integral Number [x = v >= 10^21]: the
    fewest significant digits [s] (at most 17) with [s * 10^n] rounding to
    [x], the closest such on a choice, in exponent notation. *)
Fixpoint shortest_digits (fuel k : nat) (x : number) (v : N) (d : nat)
  : N * nat :=
  match fuel with
  | O => (v, O)
  | S fuel' =>
      let p := (10 ^ N.of_nat (d - k))%N in
      let lo := (v / p)%N in
      let hi := (lo + 1)%N in
      let ok n := if SFeqb (number_of_N (n * p)) x then true else false in
      if ok lo && ok hi then
        (if (v - lo * p <=? hi * p - v)%N then (lo, d - k) else (hi, d - k))
      else if ok lo then (lo, d - k)
      else if ok hi then (hi, d - k)
      else shortest_digits fuel' (S k) x v d
  end.

Fixpoint strip_zeros (fuel : nat) (s : N) (e : nat) : N * nat :=
  match fuel with
  | O => (s, e)
  | S f => if ((s mod 10 =? 0) && negb (s =? 0))%N
           then strip_zeros f (s / 10)%N (S e) else (s, e)
  end.

Definition toString_large (x : number) (v : N) : jsstring :=
  let d := length (N_digits v) in
  let '(s0, e0) := shortest_digits 17 1 x v d in
  let '(s, e) := strip_zeros 400 s0 e0 in
  let ds := N_digits s in
  let n := (length ds + e)%nat in
  match ds with
  | [] => []
  | c :: [] => c :: lit "e+" ++ N_digits (N.of_nat (n - 1))
  | c :: t => c :: cu_dot :: t ++ lit "e+" ++ N_digits (N.of_nat (n - 1))
  end.

(** [Number.prototype.toFixed(2)]. *)
Definition toFixed2 (x : number) : jsstring :=
  match x with
  | S754_nan => lit "NaN"
  | S754_infinity s => if s then lit "-Infinity" else lit "Infinity"
  | S754_zero _ => lit "0.00"
  | S754_finite s m e =>
      (if s then [cu_minus] else []) ++
      (if at_least_1e21 m e
       then toString_large (S754_finite false m e) (Npos m * 2 ^ Z.to_N e)
       else
         let n := hundredths m e in
         N_digits (n / 100) ++
         [cu_dot; (48 + (n mod 100) / 10)%N; (48 + n mod 10)%N])
  end.

(* ===================================================================== *)
(** * ECMAScript regular expressions *)
(* ===================================================================== *)

(** The patterns of the sources, as syntax trees.  A character class or a
    literal is a predicate on code units; quantifiers are greedy. *)
Inductive regex : Type :=
| REmpty : regex
| RChar : (N -> bool) -> regex
| RSeq : regex -> regex -> regex
| RAlt : regex -> regex -> regex
| RStar : regex -> regex
| RGroup : nat -> regex -> regex
| RWordB : regex
| RBol : regex
| REol : regex.

Definition RPlus (r : regex) : regex := RSeq r (RStar r).
Definition ROpt (r : regex) : regex := RAlt r REmpty.

(** A literal code unit, and a literal letter under the flag [i]
    (without the flag [u] only the two ASCII cases of a letter
    canonicalize to the same unit). *)
Definition cu_is (a : N) : N -> bool := fun c => (c =? a)%N.
Definition cu_is_ci (a : N) : N -> bool :=
  fun c => ((c =? a) || (c =? a + 32))%N.

(** A state of the matcher: the input already consumed (last unit
    first), the input still ahead, and the captures recorded so far. *)
Record mstate : Type := MState {
  before : jsstring;
  after : jsstring;
  caps : list (nat * jsstring)
}.

Definition advance (c : N) (t : jsstring) (st : mstate) : mstate :=
  MState (c :: before st) t (caps st).

(** The text consumed between the states [st0] and [st1]. *)
Definition consumed (st0 st1 : mstate) : jsstring :=
  rev (firstn (length (before st1) - length (before st0)) (before st1)).

Definition at_word_boundary (st : mstate) : bool :=
  xorb (match before st with c :: _ => is_word c | [] => false end)
       (match after st with c :: _ => is_word c | [] => false end).

(** One more iteration of a greedy repetition, or none: [m1] matches the
    body.  An iteration that consumes nothing is given up, so the number
    of iterations is bounded by the input ahead ([fuel]). *)
Fixpoint star_loop (m1 : mstate -> (mstate -> option mstate) -> option mstate)
  (k : mstate -> option mstate) (fuel : nat) (st0 : mstate)
  {struct fuel} : option mstate :=
  match fuel with
  | O => k st0
  | S fuel' =>
      match m1 st0
              (fun st1 =>
                 if (length (after st1) <? length (after st0))%nat
                 then star_loop m1 k fuel' st1 else None) with
      | Some m => Some m
      | None => k st0
      end
  end.

(** The backtracking matcher, in continuation-passing style: [rmatch r st
    k] tries the ways [r] can match at [st], in the priority order of the
    language, and returns the first for which the continuation [k]
    succeeds. *)
Fixpoint rmatch (r : regex) (st : mstate) (k : mstate -> option mstate)
  {struct r} : option mstate :=
  match r with
  | REmpty => k st
  | RChar p =>
      match after st with
      | c :: t => if p c then k (advance c t st) else None
      | [] => None
      end
  | RSeq r1 r2 => rmatch r1 st (fun st1 => rmatch r2 st1 k)
  | RAlt r1 r2 =>
      match rmatch r1 st k with
      | Some m => Some m
      | None => rmatch r2 st k
      end
  | RStar r1 => star_loop (rmatch r1) k (length (after st)) st
  | RGroup i r1 =>
      rmatch r1 st
        (fun st1 =>
           k (MState (before st1) (after st1)
                     ((i, consumed st st1) :: caps st1)))
  | RWordB => if at_word_boundary st then k st else None
  | RBol => match before st with [] => k st | _ => None end
  | REol => match after st with [] => k st | _ => None end
  end.

(** A successful match: where it starts, the state where it ends. *)
Record rmatch_result : Type := MatchResult {
  m_index : nat;
  m_end : mstate
}.

(** The matched text, [match[0]]. *)
Definition m_text (m : rmatch_result) : jsstring :=
  rev (firstn (length (before (m_end m)) - m_index m) (before (m_end m))).

(** A capture, [match[i]]; the groups of the sources always take part in
    a match, so an absent group is not distinguished from an empty one. *)
Fixpoint lookup_cap (i : nat) (cs : list (nat * jsstring)) : jsstring :=
  match cs with
  | (j, s) :: cs' => if (i =? j)%nat then s else lookup_cap i cs'
  | [] => []
  end.

Definition m_group (i : nat) (m : rmatch_result) : jsstring :=
  lookup_cap i (caps (m_end m)).

(** The leftmost match at or after the position described by [bef]
    and [aft]. *)
Fixpoint search (r : regex) (bef aft : jsstring) : option rmatch_result :=
  match rmatch r (MState bef aft []) (fun st => Some st) with
  | Some st => Some (MatchResult (length bef) st)
  | None =>
      match aft with
      | [] => None
      | c :: t => search r (c :: bef) t
      end
  end.

(** [s.match(r)] and [r.exec(s)] without the flag [g]. *)
Definition regex_match (r : regex) (s : jsstring) : option rmatch_result :=
  search r [] s.

(** [r.test(s)] *)
Definition regex_test (r : regex) (s : jsstring) : bool :=
  match regex_match r s with Some _ => true | None => false end.

(** All matches under the flag [g], left to right; after an empty match
    the search resumes one unit further. *)
Fixpoint matches_from (fuel : nat) (r : regex) (bef aft : jsstring)
  : list rmatch_result :=
  match fuel with
  | O => []
  | S fuel' =>
      match search r bef aft with
      | None => []
      | Some m =>
          let st := m_end m in
          m :: if (m_index m <? length (before st))%nat
               then matches_from fuel' r (before st) (after st)
               else match after st with
                    | [] => []
                    | c :: t => matches_from fuel' r (c :: before st) t
                    end
      end
  end.

Definition all_matches (r : regex) (s : jsstring) : list rmatch_result :=
  matches_from (S (length s)) r [] s.

(** [s.match(r)] with the flag [g]: the matched texts, or [null]. *)
Definition match_global (r : regex) (s : jsstring) : option (list jsstring) :=
  match all_matches r s with
  | [] => None
  | ms => Some (map m_text ms)
  end.

(** The pieces of [s] between the matches in [ms], the text before the
    first match first; [pos] is the position already reached. *)
Fixpoint pieces (pos : nat) (s : jsstring) (ms : list rmatch_result)
  : list jsstring :=
  match ms with
  | [] => [skipn pos s]
  | m :: ms' =>
      firstn (m_index m - pos) (skipn pos s)
      :: pieces (length (before (m_end m))) s ms'
  end.

(** [s.replace(r, f)] with the flag [g] and a replacement function. *)
Fixpoint interleave (ps : list jsstring) (ms : list rmatch_result)
  (f : jsstring -> jsstring) : jsstring :=
  match ps, ms with
  | p :: ps', m :: ms' => p ++ f (m_text m) ++ interleave ps' ms' f
  | p :: _, [] => p
  | [], _ => []
  end.

Definition replace_global (r : regex) (f : jsstring -> jsstring)
  (s : jsstring) : jsstring :=
  let ms := all_matches r s in
  interleave (pieces 0 s ms) ms f.

(** [s.split(r)] for a pattern that matches single code units. *)
Definition split_regex (r : regex) (s : jsstring) : list jsstring :=
  pieces 0 s (all_matches r s).

(* ===================================================================== *)
(** * Effects *)
(* ===================================================================== *)

(** An [async] function is a computation over the state [W] of the world
    outside the program (browser, network, clock, log): it either returns
    a value or throws an [Error], of which the message is kept. *)
Inductive result (A : Type) : Type :=
| Ok : A -> result A
| Throw : jsstring -> result A.

Arguments Ok {A} _.
Arguments Throw {A} _.

Definition M (W A : Type) : Type := W -> result A * W.

Definition ret {W A : Type} (a : A) : M W A := fun w => (Ok a, w).

Definition throw {W A : Type} (e : jsstring) : M W A := fun w => (Throw e, w).

Definition bind {W A B : Type} (m : M W A) (f : A -> M W B) : M W B :=
  fun w =>
    match m w with
    | (Ok a, w1) => f a w1
    | (Throw e, w1) => (Throw e, w1)
    end.

(** [try { m } catch (error) { h(error.message) }] *)
Definition try_catch {W A : Type} (m : M W A) (h : jsstring -> M W A) : M W A :=
  fun w =>
    match m w with
    | (Ok a, w1) => (Ok a, w1)
    | (Throw e, w1) => h e w1
    end.

(** [try { m } finally { f }]: a throw of [f] replaces the outcome. *)
Definition try_finally {W A : Type} (m : M W A) (f : M W unit) : M W A :=
  fun w =>
    let '(r, w1) := m w in
    match f w1 with
    | (Ok _, w2) => (r, w2)
    | (Throw e, w2) => (Throw e, w2)
    end.

(** A step that changes the world and cannot throw. *)
Definition effect {W : Type} (f : W -> W) : M W unit := fun w => (Ok tt, f w).

Declare Scope js_scope.
Delimit Scope js_scope with js.
Notation "x <- m ;; k" := (bind m (fun x => k))
  (at level 61, m at next level, right associativity) : js_scope.
Notation "m ;;; k" := (bind m (fun _ => k))
  (at level 61, right associativity) : js_scope.

(** Values logged as metadata, and the levels of the logger. *)
Inductive level : Type := Debug | Info | Warn | Error.

Inductive meta : Type :=
| MStr : jsstring -> meta
| MInt : Z -> meta
| MNum : number -> meta
| MErrors : list (jsstring * jsstring) -> meta.

Definition Z_digits (z : Z) : jsstring :=
  if (z <? 0)%Z then cu_minus :: N_digits (Z.abs_N z) else N_digits (Z.to_N z).

(* ===================================================================== *)
(** * The second scraper: price strings
      ([webbeds-scraper.ts], class [WebBedsScraper] with [withRetry]) *)
(* ===================================================================== *)

Module V2.

(** [{ price: number | null; currency: string | null }] *)
Record price_info : Type := PriceInfo {
  price : option number;
  currency : option jsstring
}.

(** [currencyPatterns]: the symbol table of [parsePriceString]. *)
Definition currencyPatterns : list (jsstring * jsstring) :=
  [ ([cu_dollar], lit "USD");
    ([cu_euro],   lit "EUR");
    ([cu_pound],  lit "GBP");
    ([cu_yen],    lit "JPY");
    ([cu_rupee],  lit "INR") ].

(** A word of upper-case ASCII letters under the flag [i]. *)
Fixpoint word_ci (w : jsstring) : regex :=
  match w with
  | [] => REmpty
  | [c] => RChar (cu_is_ci c)
  | c :: w' => RSeq (RChar (cu_is_ci c)) (word_ci w')
  end.

(** [/\b(USD|EUR|GBP|JPY|INR|CAD|AUD)\b/i] *)
Definition currencyCodeRe : regex :=
  RSeq RWordB
    (RSeq (RGroup 1
             (RAlt (word_ci (lit "USD"))
             (RAlt (word_ci (lit "EUR"))
             (RAlt (word_ci (lit "GBP"))
             (RAlt (word_ci (lit "JPY"))
             (RAlt (word_ci (lit "INR"))
             (RAlt (word_ci (lit "CAD"))
                   (word_ci (lit "AUD")))))))))
          RWordB).

(** The class [[\d,.\s]] and the pattern [/[\d,.\s]+/]. *)
Definition is_number_unit (c : N) : bool :=
  (is_digit c || (c =? cu_comma) || (c =? cu_dot) || is_space c)%N.

Definition numberRe : regex := RPlus (RChar is_number_unit).

(** [/\s+/g], [/,/g] and [/\./g] *)
Definition spacesRe : regex := RPlus (RChar is_space).
Definition commaRe : regex := RChar (cu_is cu_comma).
Definition dotRe : regex := RChar (cu_is cu_dot).

Definition remove_all (r : regex) (s : jsstring) : jsstring :=
  replace_global r (fun _ => []) s.

(** The loop over [currencyPatterns], left at the first symbol that the
    cleaned text includes. *)
Fixpoint scan_symbols (ps : list (jsstring * jsstring)) (cleaned : jsstring)
  : option jsstring * jsstring :=
  match ps with
  | [] => (None, cleaned)
  | (symbol, code) :: ps' =>
      if includes symbol cleaned
      then (Some code, trim (replaceFirst symbol [] cleaned))
      else scan_symbols ps' cleaned
  end.

(** The currency and the [numberPart] after both detection steps of
    [parsePriceString]: the symbol loop, then the code pattern, whose
    assignments come last. *)
Definition detect_currency (cleaned : jsstring) : option jsstring * jsstring :=
  let '(currency, numberPart) := scan_symbols currencyPatterns cleaned in
  match regex_match currencyCodeRe cleaned with
  | Some currencyCodeMatch =>
      (Some (toUpperCase (m_group 1 currencyCodeMatch)),
       trim (replaceFirst (m_group 1 currencyCodeMatch) [] cleaned))
  | None => (currency, numberPart)
  end.

(** The decimal-separator step of [parsePriceString], applied to
    [priceString_clean]. *)
Definition separators (priceString_clean : jsstring) : jsstring :=
  if includes [cu_dot] priceString_clean
     && includes [cu_comma] priceString_clean
  then
    if (lastIndexOf cu_comma priceString_clean
        <? lastIndexOf cu_dot priceString_clean)%Z
    then remove_all commaRe priceString_clean
    else replace_global commaRe (fun _ => [cu_dot])
           (remove_all dotRe priceString_clean)
  else if includes [cu_comma] priceString_clean
  then replace_global commaRe (fun _ => [cu_dot]) priceString_clean
  else priceString_clean.

(** [currency || 'USD'] *)
Definition or_USD (currency : option jsstring) : jsstring :=
  match currency with
  | Some (c :: s) => c :: s
  | _ => lit "USD"
  end.

Definition parsePriceString (priceString : jsstring) : price_info :=
  let cleaned := trim priceString in
  let '(currency, numberPart) := detect_currency cleaned in
  match regex_match numberRe numberPart with
  | None => PriceInfo None currency
  | Some numberMatch =>
      let priceString_clean := trim (m_text numberMatch) in
      let priceString_clean := remove_all spacesRe priceString_clean in
      let priceString_clean := separators priceString_clean in
      let price := parseFloat priceString_clean in
      if isNaN price then PriceInfo None currency
      else PriceInfo (Some price) (Some (or_USD currency))
  end.

(** The numeric remainder that reaches the separator step, when the
    number pattern matches. *)
Definition numeric_remainder (priceString : jsstring) : option jsstring :=
  match regex_match numberRe (snd (detect_currency (trim priceString))) with
  | None => None
  | Some numberMatch => Some (remove_all spacesRe (trim (m_text numberMatch)))
  end.

(** [/[$€£¥₹]?\s*[\d,]+(?:[.,]\d{2})?/g] *)
Definition is_symbol (c : N) : bool :=
  ((c =? cu_dollar) || (c =? cu_euro) || (c =? cu_pound)
   || (c =? cu_yen) || (c =? cu_rupee))%N.

Definition pricePattern : regex :=
  RSeq (ROpt (RChar is_symbol))
    (RSeq (RStar (RChar is_space))
       (RSeq (RPlus (RChar (fun c => is_digit c || (c =? cu_comma)%N)))
          (ROpt (RSeq (RChar (fun c => ((c =? cu_dot) || (c =? cu_comma))%N))
                   (RSeq (RChar is_digit) (RChar is_digit)))))).

(** The loop of [extractPriceFromText] over the matches. *)
Fixpoint first_significant (matches : list jsstring) : option price_info :=
  match matches with
  | [] => None
  | m :: ms =>
      let result := parsePriceString m in
      match price result with
      | Some p => if num_gt p num_zero then Some result
                  else first_significant ms
      | None => first_significant ms
      end
  end.

Definition extractPriceFromText (text : jsstring) : option price_info :=
  match match_global pricePattern text with
  | Some matches => first_significant matches
  | None => None
  end.

(** ** The parsed document

    Cheerio is a collaborator: a document answers, for a selector, with
    the text of the first element matched ([None] when the selection is
    empty), and with the text of its body. *)
Inductive selector : Type :=
| SelDataPrice        (* [data-price] *)
| SelPrice            (* .price *)
| SelClassPrice       (* [class*=price] *)
| SelTotalPrice       (* .total-price *)
| SelClassTotal       (* [class*=total] *)
| SelH1HotelName      (* h1[data-testid=hotel-name] *)
| SelHotelName        (* .hotel-name *)
| SelClassHotelTitle  (* [class*=hotel-title] *)
| SelH1.              (* h1 *)

Record document : Type := Document {
  first_text : selector -> option jsstring;
  body_text : jsstring
}.

Definition priceSelectors : list selector :=
  [SelDataPrice; SelPrice; SelClassPrice; SelTotalPrice; SelClassTotal].

Definition nameSelectors : list selector :=
  [SelH1HotelName; SelHotelName; SelClassHotelTitle; SelH1].

(** The selector loop of [extractPriceInfo]. *)
Fixpoint try_selectors (doc : document) (sels : list selector)
  : option price_info :=
  match sels with
  | [] => None
  | sel :: sels' =>
      match first_text doc sel with
      | Some text =>
          let priceText := trim text in
          let r := parsePriceString priceText in
          match price r, currency r with
          | Some p, Some c => Some (PriceInfo (Some p) (Some c))
          | _, _ => try_selectors doc sels'
          end
      | None => try_selectors doc sels'
      end
  end.

Definition extractPriceInfo (doc : document) : price_info :=
  match try_selectors doc priceSelectors with
  | Some r => r
  | None =>
      match extractPriceFromText (body_text doc) with
      | Some priceMatch => priceMatch
      | None => PriceInfo None None
      end
  end.

(** [extractHotelName]: the first selector whose first element has a
    non-empty trimmed text. *)
Fixpoint first_name (doc : document) (sels : list selector)
  : option jsstring :=
  match sels with
  | [] => None
  | sel :: sels' =>
      match trim (match first_text doc sel with Some t => t | None => [] end)
      with
      | [] => first_name doc sels'
      | name => Some name
      end
  end.

Definition extractHotelName (doc : document) : option jsstring :=
  first_name doc nameSelectors.

(** ** Retry, single search and batch search *)

(** [HotelSearchResult] of the second scraper. *)
Record HotelSearchResult : Type := {
  hotelId : jsstring;
  name : jsstring;
  r_price : number;
  r_currency : jsstring;
  checkIn : jsstring;
  checkOut : jsstring
}.

Record ScraperConfig : Type := {
  headless : bool;
  timeout : Z;
  maxRetries : Z;
  retryDelay : Z;
  userAgent : jsstring;
  proxy : jsstring
}.

Record RetryConfig : Type := {
  rc_maxRetries : Z;
  initialDelay : Z;
  maxDelay : Z;
  backoffMultiplier : Z
}.

(** The constructor's [retryConfig]. *)
Definition retryConfig_of (config : ScraperConfig) : RetryConfig :=
  {| rc_maxRetries := maxRetries config;
     initialDelay := retryDelay config;
     maxDelay := 30000;
     backoffMultiplier := 2 |}.

(** The collaborators of the scraper: the logger, the timer, the random
    source, Puppeteer's browser and page, Cheerio's loader and the URL
    encoder.  [random] is [Math.random()]: a Number that is at least 0
    and below 1. *)
Record host (W : Type) : Type := Host {
  logger : level -> jsstring -> list (string * meta) -> W -> W;
  sleep : Z -> W -> W;
  random : W -> number * W;
  newPage : M W N;
  setViewport : N -> Z -> Z -> M W unit;
  setUserAgent : N -> jsstring -> M W unit;
  setDefaultTimeouts : N -> Z -> W -> W;
  goto : N -> jsstring -> M W unit;
  waitForSelector : N -> M W unit;
  content : N -> M W jsstring;
  closePage : N -> M W unit;
  cheerio_load : jsstring -> document;
  urlSearchParams : list (string * jsstring) -> jsstring
}.

Arguments logger {W}. Arguments sleep {W}. Arguments random {W}.
Arguments newPage {W}. Arguments setViewport {W}. Arguments setUserAgent {W}.
Arguments setDefaultTimeouts {W}. Arguments goto {W}.
Arguments waitForSelector {W}. Arguments content {W}. Arguments closePage {W}.
Arguments cheerio_load {W}. Arguments urlSearchParams {W}.

Section Scraper.

Variable W : Type.
Variable h : host W.
Variable config : ScraperConfig.

Let retryConfig : RetryConfig := retryConfig_of config.

Local Open Scope js_scope.

(** [calculateBackoffDelay].  The delays of the configuration are whole
    numbers of milliseconds and [Math.pow] of the multiplier is exact, so
    [delay] is computed as an integer; the jitter and the sum are
    computed in binary64, as the source does, and [Math.floor] is taken
    of the sum, which is finite because [Math.random()] is. *)
Definition calculateBackoffDelay (attempt : Z) : W -> Z * W :=
  fun w =>
    let exponentialDelay :=
      (initialDelay retryConfig * backoffMultiplier retryConfig ^ attempt)%Z in
    let delay := Z.min exponentialDelay (maxDelay retryConfig) in
    let '(r, w1) := random h w in
    let jitter :=
      SFmul prec emax
        (SFmul prec emax (number_of_Z delay) (decimal_number false 1 (-1)))
        r in
    (floor_number (SFadd prec emax (number_of_Z delay) jitter), w1).

Definition attempts_text (n : Z) : jsstring := Z_digits n.

(** [withRetry].  The loop [for (attempt = 0; attempt <= maxRetries;
    attempt++)] runs [maxRetries + 1] times unless it returns: [remaining]
    counts the iterations left. *)
Fixpoint withRetry_loop {T : Type} (fn : M W T) (operationName : jsstring)
  (remaining : nat) (attempt : Z) (lastError : option jsstring) : M W T :=
  match remaining with
  | O =>
      throw (match lastError with
             | Some e => e
             | None =>
                 operationName ++ lit " failed after "
                 ++ attempts_text (rc_maxRetries retryConfig + 1)
                 ++ lit " attempts"
             end)
  | S remaining' =>
      fun w =>
        match fn w with
        | (Ok v, w1) => (Ok v, w1)
        | (Throw e, w1) =>
            let w2 :=
              if (attempt <? rc_maxRetries retryConfig)%Z then
                let '(delay, wd) := calculateBackoffDelay attempt w1 in
                let wl :=
                  logger h Warn
                    (operationName ++ lit " failed (attempt "
                     ++ Z_digits (attempt + 1) ++ lit "/"
                     ++ attempts_text (rc_maxRetries retryConfig + 1)
                     ++ lit ")")
                    [("error"%string, MStr e);
                     ("nextRetryIn"%string, MStr (Z_digits delay ++ lit "ms"))]
                    wd in
                sleep h delay wl
              else
                logger h Error
                  (operationName ++ lit " failed after all retries")
                  [("totalAttempts"%string,
                    MInt (rc_maxRetries retryConfig + 1));
                   ("error"%string, MStr e)]
                  w1 in
            withRetry_loop fn operationName remaining' (attempt + 1)
              (Some e) w2
        end
  end.

Definition withRetry {T : Type} (fn : M W T) (operationName : jsstring)
  : M W T :=
  withRetry_loop fn operationName
    (Z.to_nat (rc_maxRetries retryConfig + 1)) 0 None.

(** [buildSearchUrl] *)
Definition buildSearchUrl (hotelId checkIn checkOut : jsstring) (guests : Z)
  : jsstring :=
  lit "https://www.webbeds.com" ++ lit "/search?"
  ++ urlSearchParams h
       [("hotelId"%string, hotelId); ("checkIn"%string, checkIn);
        ("checkOut"%string, checkOut); ("guests"%string, Z_digits guests)].

(** [extractPrices] *)
Definition extractPrices (html hotelId checkIn checkOut : jsstring)
  : M W HotelSearchResult :=
  try_catch
    (let doc := cheerio_load h html in
     let name := match extractHotelName doc with
                 | Some n => n
                 | None => lit "Unknown Hotel"
                 end in
     let r := extractPriceInfo doc in
     match price r, currency r with
     | Some p, Some c =>
         effect (logger h Debug (lit "Extracted hotel data")
                   [("hotelId"%string, MStr hotelId); ("name"%string, MStr name);
                    ("price"%string, MNum p); ("currency"%string, MStr c)]) ;;;
         ret {| hotelId := hotelId; name := name; r_price := p;
                r_currency := c; checkIn := checkIn; checkOut := checkOut |}
     | _, _ => throw (lit "Unable to extract price information from HTML")
     end)
    (fun errorMessage =>
       effect (logger h Error (lit "Failed to extract prices from HTML")
                 [("hotelId"%string, MStr hotelId);
                  ("error"%string, MStr errorMessage)]) ;;;
       throw (lit "Failed to extract prices: " ++ errorMessage)).

(** [searchSingleHotel]; [browser] is the field [this.browser]. *)
Definition searchSingleHotel (browser : bool)
  (hotelId checkIn checkOut : jsstring) (guests : Z)
  : M W HotelSearchResult :=
  withRetry
    (if negb browser
     then throw (lit "Browser not initialized. Call launchBrowser() first.")
     else
       page <- newPage h ;;
       try_finally
         (setViewport h page 1920 1080 ;;;
          setUserAgent h page (userAgent config) ;;;
          effect (setDefaultTimeouts h page (timeout config)) ;;;
          let searchUrl := buildSearchUrl hotelId checkIn checkOut guests in
          effect (logger h Info (lit "Navigating to " ++ searchUrl)
                    [("hotelId"%string, MStr hotelId)]) ;;;
          goto h page searchUrl ;;;
          try_catch (waitForSelector h page)
            (fun _ =>
               effect (logger h Warn
                 (lit "Price selector not found, proceeding with HTML parsing")
                 [("hotelId"%string, MStr hotelId)])) ;;;
          html <- content h page ;;
          extractPrices html hotelId checkIn checkOut)
         (closePage h page))
    (lit "searchSingleHotel for hotel " ++ hotelId).

(** The loop of [searchHotels] over [hotelIds], with its two arrays.
    [search] is [searchSingleHotel] at the dates and guests of the call. *)
Fixpoint searchHotels_loop (search : jsstring -> M W HotelSearchResult)
  (hotelIds : list jsstring)
  (results : list HotelSearchResult) (errors : list (jsstring * jsstring))
  : W -> (list HotelSearchResult * list (jsstring * jsstring)) * W :=
  fun w =>
    match hotelIds with
    | [] => ((results, errors), w)
    | hotelId :: rest =>
        match search hotelId w with
        | (Ok result, w1) =>
            searchHotels_loop search rest (results ++ [result]) errors
              (logger h Info (lit "Successfully searched hotel " ++ hotelId)
                 [("hotelId"%string, MStr hotelId)] w1)
        | (Throw errorMessage, w1) =>
            searchHotels_loop search rest results
              (errors ++ [(hotelId, errorMessage)])
              (logger h Error (lit "Failed to search hotel " ++ hotelId)
                 [("hotelId"%string, MStr hotelId);
                  ("error"%string, MStr errorMessage)] w1)
        end
    end.

(** The first log entry of [searchHotels]. *)
Definition log_start (hotelIds : list jsstring) (checkIn checkOut : jsstring)
  (guests : Z) (w : W) : W :=
  logger h Info (lit "Starting hotel search")
    [("hotelCount"%string, MInt (Z.of_nat (length hotelIds)));
     ("checkIn"%string, MStr checkIn); ("checkOut"%string, MStr checkOut);
     ("guests"%string, MInt guests)] w.

(** [searchHotels], over any single-hotel search. *)
Definition searchHotels_with (search : jsstring -> M W HotelSearchResult)
  (hotelIds : list jsstring) (checkIn checkOut : jsstring) (guests : Z)
  : M W (list HotelSearchResult) :=
  fun w =>
    let w0 := log_start hotelIds checkIn checkOut guests w in
    let '((results, errors), w1) :=
      searchHotels_loop search hotelIds [] [] w0 in
    let w2 :=
      match errors with
      | [] => w1
      | _ =>
          logger h Warn (lit "Hotel search completed with errors")
            [("successCount"%string, MInt (Z.of_nat (length results)));
             ("errorCount"%string, MInt (Z.of_nat (length errors)));
             ("errors"%string, MErrors errors)] w1
      end in
    (Ok results, w2).

Definition searchHotels (browser : bool) (hotelIds : list jsstring)
  (checkIn checkOut : jsstring) (guests : Z) : M W (list HotelSearchResult) :=
  searchHotels_with
    (fun hotelId => searchSingleHotel browser hotelId checkIn checkOut guests)
    hotelIds checkIn checkOut guests.


End Scraper.

(** ** The browser of the second scraper

    Puppeteer's [launch], with the flag [headless] and the command-line
    arguments, and the [close] of the browser it returned, are
    collaborators; [browser] is the field [this.browser], [true] when it
    holds a browser.  A log entry without metadata has the empty list. *)
Record puppeteer (W : Type) : Type := Puppeteer {
  launch : bool -> list jsstring -> M W unit;
  browser_close : M W unit
}.

Arguments launch {W}. Arguments browser_close {W}.

Section Browser.

Variable W : Type.
Variable h : host W.
Variable pp : puppeteer W.
Variable config : ScraperConfig.

Let retryConfig : RetryConfig := retryConfig_of config.

(** [launchArgs.args], with the proxy flag pushed when a proxy is
    configured. *)
Definition launchArgs : list jsstring :=
  [lit "--no-sandbox"; lit "--disable-setuid-sandbox";
   lit "--disable-dev-shm-usage"; lit "--disable-gpu"]
  ++ match proxy config with
     | [] => []
     | c :: s => [lit "--proxy-server=" ++ c :: s]
     end.

(** The loop of [launchBrowser]; the middle component of the outcome is
    the field [this.browser] afterwards. *)
Fixpoint launchBrowser_loop (browser : bool) (remaining : nat) (attempt : Z)
  (lastError : option jsstring) : W -> result unit * bool * W :=
  fun w =>
    match remaining with
    | O =>
        (Throw (lit "Failed to launch browser after "
                ++ Z_digits (rc_maxRetries retryConfig + 1)
                ++ lit " attempts: "
                ++ match lastError with
                   | Some e => e
                   | None => lit "undefined"
                   end), browser, w)
    | S remaining' =>
        match launch pp (headless config) launchArgs w with
        | (Ok _, w1) =>
            (Ok tt, true,
             logger h Info (lit "Browser launched successfully") [] w1)
        | (Throw e, w1) =>
            let '(delay, wd) := calculateBackoffDelay h config attempt w1 in
            let wl :=
              logger h Warn
                (lit "Browser launch failed (attempt "
                 ++ Z_digits (attempt + 1) ++ lit "/"
                 ++ Z_digits (rc_maxRetries retryConfig + 1) ++ lit ")")
                [("error"%string, MStr e);
                 ("nextRetryIn"%string, MStr (Z_digits delay ++ lit "ms"))]
                wd in
            let w2 :=
              if (attempt <? rc_maxRetries retryConfig)%Z
              then sleep h delay wl else wl in
            launchBrowser_loop browser remaining' (attempt + 1) (Some e) w2
        end
    end.

(** [launchBrowser] *)
Definition launchBrowser (browser : bool) : W -> result unit * bool * W :=
  fun w =>
    launchBrowser_loop browser (Z.to_nat (rc_maxRetries retryConfig + 1)) 0
      None (logger h Info (lit "Launching browser...") [] w).

(** [close] *)
Definition close (browser : bool) : W -> result unit * bool * W :=
  fun w =>
    if browser then
      match browser_close pp w with
      | (Ok _, w1) =>
          (Ok tt, false, logger h Info (lit "Browser closed successfully") [] w1)
      | (Throw errorMessage, w1) =>
          (Throw (lit "Failed to close browser: " ++ errorMessage), true,
           logger h Error (lit "Error closing browser")
             [("error"%string, MStr errorMessage)] w1)
      end
    else (Ok tt, browser, w).

(** [isBrowserActive] *)
Definition isBrowserActive (browser : bool) : bool := browser.

End Browser.

End V2.

(* ===================================================================== *)
(** * The first scraper
      ([webbeds-scraper.ts], class [WebBedsScraper] with [retryOperation]) *)
(* ===================================================================== *)

Module V1.

Record HotelSearchResult : Type := {
  hotelId : jsstring;
  hotelName : jsstring;
  price : number;
  currency : jsstring;
  checkIn : jsstring;
  checkOut : jsstring;
  rating : option number;
  image : option jsstring;
  url : jsstring
}.

Record ScraperConfig : Type := {
  headless : bool;
  timeout : Z;
  retryAttempts : Z;
  delayBetweenRequests : Z;
  userAgent : jsstring
}.

(** The pattern of [extractPrice]: group 1 is [[^\d]*], group 2 is
    [[\d,.]+]. *)
Definition is_price_unit (c : N) : bool :=
  (is_digit c || (c =? cu_comma) || (c =? cu_dot))%N.

Definition priceRe : regex :=
  RSeq (RGroup 1 (RStar (RChar (fun c => negb (is_digit c)))))
       (RGroup 2 (RPlus (RChar is_price_unit))).

(** [/[,.]/g] and [/[.,]/] *)
Definition markRe : regex :=
  RChar (fun c => ((c =? cu_comma) || (c =? cu_dot))%N).

(** [extractPrice] *)
Definition extractPrice (priceText : jsstring) : number * jsstring :=
  match regex_match priceRe priceText with
  | None => (num_zero, lit "USD")
  | Some priceMatch =>
      let currency :=
        match trim (m_group 1 priceMatch) with
        | [] => lit "USD"
        | c => c
        end in
      let priceStr :=
        replace_global markRe
          (fun m =>
             let parts := split_regex markRe (m_group 2 priceMatch) in
             if (2 <? length parts)%nat then []
             else if jseqb m [cu_comma] then [cu_dot] else [])
          (m_group 2 priceMatch) in
      let price := parseFloat priceStr in
      (if isNaN price then num_zero else price, currency)
  end.

(** [/^\d{4}-\d{2}-\d{2}$/] *)
Definition dateRegex : regex :=
  let d := RChar is_digit in
  let dash := RChar (cu_is cu_minus) in
  RSeq RBol (RSeq d (RSeq d (RSeq d (RSeq d (RSeq dash (RSeq d (RSeq d
    (RSeq dash (RSeq d (RSeq d REol)))))))))).

(** What the Cheerio selection of the first hotel card exposes. *)
Record card : Type := Card {
  data_hotel_id : option jsstring;   (* attr data-hotel-id *)
  hotel_name_text : jsstring;        (* [data-testid=hotel-name] *)
  hotel_price_text : jsstring;       (* [data-testid=hotel-price] *)
  hotel_rating_text : jsstring;      (* [data-testid=hotel-rating] *)
  img_src : option jsstring;
  a_href : option jsstring
}.

(** The collaborators: console, timer, clock, the engine's [Date]
    (the time value of a date string, [None] for an invalid date),
    Puppeteer's launch and page, Cheerio, and [encodeURIComponent]. *)
Record host (W : Type) : Type := Host {
  console : level -> jsstring -> W -> W;
  sleep : Z -> W -> W;
  date_now : W -> Z * W;
  date_value : jsstring -> option Z;
  launch : M W unit;
  browser_newPage : M W unit;
  page_setup : M W unit;
  goto : jsstring -> M W unit;
  waitForSelector : M W unit;
  content : M W jsstring;
  first_card : jsstring -> option card;
  encodeURIComponent : jsstring -> jsstring
}.

Arguments console {W}. Arguments sleep {W}. Arguments date_now {W}.
Arguments date_value {W}. Arguments launch {W}. Arguments browser_newPage {W}.
Arguments page_setup {W}. Arguments goto {W}. Arguments waitForSelector {W}.
Arguments content {W}. Arguments first_card {W}.
Arguments encodeURIComponent {W}.

(** The fields [browser] and [page] of the scraper object. *)
Record scraper : Type := Scraper {
  browser : bool;
  page : bool
}.

Definition isInitialized (s : scraper) : bool := browser s && page s.

Section Scraper.

Variable W : Type.
Variable h : host W.
Variable config : ScraperConfig.

Local Open Scope js_scope.

Definition WEBBEDS_BASE_URL : jsstring := lit "https://www.webbeds.com".
Definition HOTEL_SEARCH_URL : jsstring := WEBBEDS_BASE_URL ++ lit "/en/hotels".

(** [initialize]: the fields are assigned as the steps succeed. *)
Definition initialize (s : scraper) : W -> result unit * scraper * W :=
  fun w =>
    let wrap e := lit "Failed to initialize WebBeds Scraper: " ++ e in
    match launch h w with
    | (Throw e, w1) => (Throw (wrap e), s, w1)
    | (Ok _, w1) =>
        let s1 := Scraper true (page s) in
        match browser_newPage h w1 with
        | (Throw e, w2) => (Throw (wrap e), s1, w2)
        | (Ok _, w2) =>
            let s2 := Scraper true true in
            match page_setup h w2 with
            | (Throw e, w3) => (Throw (wrap e), s2, w3)
            | (Ok _, w3) =>
                (Ok tt, s2,
                 console h Info
                   (lit "WebBeds Scraper initialized successfully") w3)
            end
        end
    end.

(** [retryOperation].  The loop [for (attempt = 1; attempt <=
    retryAttempts; attempt++)] runs [retryAttempts] times unless it
    returns: [remaining] counts the iterations left. *)
Fixpoint retryOperation_loop {T : Type} (operation : M W T)
  (operationName : jsstring) (remaining : nat) (attempt : Z)
  (lastError : option jsstring) : M W T :=
  match remaining with
  | O =>
      throw (lit "Failed to complete " ++ operationName ++ lit " after "
             ++ Z_digits (retryAttempts config) ++ lit " attempts: "
             ++ match lastError with
                | Some e => e
                | None => lit "undefined"
                end)
  | S remaining' =>
      fun w =>
        match operation w with
        | (Ok v, w1) => (Ok v, w1)
        | (Throw e, w1) =>
            let w2 :=
              console h Warn
                (lit "Attempt " ++ Z_digits attempt ++ lit " failed for "
                 ++ operationName ++ lit ": " ++ e) w1 in
            let w3 :=
              if (attempt <? retryAttempts config)%Z then
                let backoffDelay := Z.min (1000 * 2 ^ (attempt - 1)) 10000 in
                sleep h backoffDelay w2
              else w2 in
            retryOperation_loop operation operationName remaining'
              (attempt + 1) (Some e) w3
        end
  end.

Definition retryOperation {T : Type} (operation : M W T)
  (operationName : jsstring) : M W T :=
  retryOperation_loop operation operationName
    (Z.to_nat (retryAttempts config)) 1 None.

(** [searchHotelPrices]; [None] is the result [null]. *)
Definition searchHotelPrices (s : scraper)
  (hotelName checkInDate checkOutDate : jsstring)
  : M W (option HotelSearchResult) :=
  if negb (page s)
  then throw (lit "Scraper not initialized. Call initialize() first.")
  else
    try_catch
      (let searchUrl :=
         HOTEL_SEARCH_URL ++ lit "?s=" ++ encodeURIComponent h hotelName
         ++ lit "&checkIn=" ++ checkInDate
         ++ lit "&checkOut=" ++ checkOutDate in
       retryOperation (goto h searchUrl)
         (lit "navigate to " ++ hotelName ++ lit " search") ;;;
       retryOperation (waitForSelector h)
         (lit "wait for hotel results for " ++ hotelName) ;;;
       pageContent <- content h ;;
       match first_card h pageContent with
       | None =>
           effect (console h Warn
                     (lit "No results found for hotel: " ++ hotelName)) ;;;
           ret None
       | Some hotelCard =>
           fun w =>
             let '(hotelId, w1) :=
               match data_hotel_id hotelCard with
               | Some (c :: id) => (c :: id, w)
               | _ => let '(now, w') := date_now h w in
                      (lit "hotel_" ++ Z_digits now, w')
               end in
             let name := trim (hotel_name_text hotelCard) in
             let priceText := trim (hotel_price_text hotelCard) in
             let '(price, currency) := extractPrice priceText in
             let ratingText := trim (hotel_rating_text hotelCard) in
             let rating :=
               match parseFloat ratingText with
               | S754_nan | S754_zero _ => None
               | x => Some x
               end in
             let image :=
               match img_src hotelCard with
               | Some (c :: src) => Some (c :: src)
               | _ => None
               end in
             let url :=
               WEBBEDS_BASE_URL
               ++ match a_href hotelCard with Some href => href | None => [] end
             in
             (Ok (Some {| hotelId := hotelId;
                          hotelName := match name with
                                       | [] => hotelName
                                       | _ => name
                                       end;
                          price := price;
                          currency := currency;
                          checkIn := checkInDate;
                          checkOut := checkOutDate;
                          rating := rating;
                          image := image;
                          url := url |}), w1)
       end)
      (fun errorMsg =>
         effect (console h Error
                   (lit "Error searching hotel " ++ hotelName ++ lit ": "
                    ++ errorMsg)) ;;;
         throw (lit "Failed to search hotel " ++ hotelName ++ lit ": "
                ++ errorMsg)).

(** [isValidDateFormat] *)
Definition isValidDateFormat (dateString : jsstring) : bool :=
  if negb (regex_test dateRegex dateString) then false
  else match date_value h dateString with
       | Some _ => true
       | None => false
       end.

(** [new Date(a) >= new Date(b)] *)
Definition date_ge (a b : jsstring) : bool :=
  match date_value h a, date_value h b with
  | Some ta, Some tb => (tb <=? ta)%Z
  | _, _ => false
  end.

(** The loop of [searchMultipleHotels]; [i] is the index of the head of
    [rest] and [n] the length of [hotelNames]. *)
Fixpoint searchMultipleHotels_loop (s : scraper) (n : nat)
  (checkInDate checkOutDate : jsstring) (i : nat) (rest : list jsstring)
  (results : list HotelSearchResult) : W -> list HotelSearchResult * W :=
  fun w =>
    match rest with
    | [] => (results, w)
    | hotelName_i :: rest' =>
        let w0 :=
          console h Info
            (lit "Searching hotel " ++ Z_digits (Z.of_nat (i + 1)) ++ lit "/"
             ++ Z_digits (Z.of_nat n) ++ lit ": " ++ hotelName_i) w in
        match searchHotelPrices s hotelName_i checkInDate checkOutDate w0 with
        | (Ok result, w1) =>
            let results1 :=
              match result with
              | Some r => results ++ [r]
              | None => results
              end in
            let w2 :=
              if (Z.of_nat i <? Z.of_nat n - 1)%Z
              then sleep h (delayBetweenRequests config) w1 else w1 in
            searchMultipleHotels_loop s n checkInDate checkOutDate (S i) rest'
              results1 w2
        | (Throw errorMsg, w1) =>
            searchMultipleHotels_loop s n checkInDate checkOutDate (S i) rest'
              results
              (console h Error
                 (lit "Error searching hotel " ++ hotelName_i ++ lit ": "
                  ++ errorMsg) w1)
        end
    end.

(** [searchMultipleHotels] *)
Definition searchMultipleHotels (s : scraper) (hotelNames : list jsstring)
  (checkInDate checkOutDate : jsstring) : M W (list HotelSearchResult) :=
  if negb (page s)
  then throw (lit "Scraper not initialized. Call initialize() first.")
  else match hotelNames with
  | [] => throw (lit "hotelNames must be a non-empty array")
  | _ =>
    if negb (isValidDateFormat checkInDate)
       || negb (isValidDateFormat checkOutDate)
    then throw (lit "Invalid date format. Use YYYY-MM-DD")
    else if date_ge checkInDate checkOutDate
    then throw (lit "Check-in date must be before check-out date")
    else
      fun w =>
        let '(results, w1) :=
          searchMultipleHotels_loop s (length hotelNames)
            checkInDate checkOutDate 0 hotelNames [] w in
        let w2 :=
          match results with
          | [] => console h Warn (lit "No hotels found in the search") w1
          | _ => w1
          end in
        (Ok results, w2)
  end.

End Scraper.

End V1.

(* ===================================================================== *)
(** * [Array.prototype.sort] *)
(* ===================================================================== *)

(** A comparator returns a Number; the sort looks at its sign. *)
Definition negative (v : number) : bool := SFltb v num_zero.

(** The order of the result is left to the implementation when the
    comparator is not consistent.  The model is the stable insertion sort:
    each element moves left past the elements it compares below. *)
Fixpoint insert_from_right {A : Type} (cmp : A -> A -> number) (x : A)
  (rev_sorted : list A) : list A :=
  match rev_sorted with
  | [] => [x]
  | y :: t =>
      if negative (cmp x y) then y :: insert_from_right cmp x t
      else x :: rev_sorted
  end.

Definition js_sort {A : Type} (cmp : A -> A -> number) (l : list A) : list A :=
  rev (fold_left (fun acc x => insert_from_right cmp x acc) l []).

(* ===================================================================== *)
(** * The database ([database.ts]) *)
(* ===================================================================== *)

Module Db.

(** Rows of the tables [hotels] and [hotel_prices]; timestamps are
    seconds of SQLite's clock. *)
Record Hotel : Type := {
  id : jsstring;
  hotelId : jsstring;
  name : jsstring;
  createdAt : Z;
  updatedAt : Z
}.

Record HotelPrice : Type := {
  p_id : jsstring;
  p_hotelId : jsstring;
  price : number;
  currency : jsstring;
  checkInDate : jsstring;
  checkOutDate : jsstring;
  recordedAt : Z
}.

Record store : Type := Store {
  hotels : list Hotel;
  hotel_prices : list HotelPrice
}.

(** The field [this.db]: [None] until [initialize] has run. *)
Definition handle : Type := option store.

(** The fields of a search result that [saveHotelPrice] reads. *)
Record observation : Type := {
  o_hotelId : jsstring;
  o_price : number;
  o_currency : jsstring;
  o_checkIn : jsstring;
  o_checkOut : jsstring
}.

(** The collaborators: console, the clock of the process, the clock of
    SQLite, and the driver, which may reject a statement (locked file,
    full disk) with a message. *)
Record host (W : Type) : Type := Host {
  console : level -> jsstring -> W -> W;
  date_now : W -> Z * W;
  current_timestamp : W -> Z * W;
  driver_fault : W -> option jsstring * W
}.

Arguments console {W}. Arguments date_now {W}.
Arguments current_timestamp {W}. Arguments driver_fault {W}.

Section Database.

Variable W : Type.
Variable h : host W.

Definition not_initialized : jsstring := lit "Database not initialized".

(** [INSERT INTO hotel_prices (id, hotel_id, price, currency,
    check_in_date, check_out_date) VALUES (...)]: the driver may fail;
    [id] is the primary key; [price] is [NOT NULL] and SQLite stores a
    NaN as [NULL]; [recorded_at] takes its default. *)
Definition insert_price (st : store) (id : jsstring) (o : observation)
  : W -> result store * W :=
  fun w =>
    match driver_fault h w with
    | (Some e, w1) => (Throw e, w1)
    | (None, w1) =>
        if existsb (fun p => jseqb (p_id p) id) (hotel_prices st)
        then (Throw (lit "SQLITE_CONSTRAINT: UNIQUE constraint failed: hotel_prices.id"), w1)
        else if isNaN (o_price o)
        then (Throw (lit "SQLITE_CONSTRAINT: NOT NULL constraint failed: hotel_prices.price"), w1)
        else
          let '(ts, w2) := current_timestamp h w1 in
          (Ok (Store (hotels st)
                 (hotel_prices st ++
                  [{| p_id := id; p_hotelId := o_hotelId o;
                      price := o_price o; currency := o_currency o;
                      checkInDate := o_checkIn o;
                      checkOutDate := o_checkOut o;
                      recordedAt := ts |}])), w2)
    end.

(** [saveHotelPrice] *)
Definition saveHotelPrice (db : handle) (obs : observation)
  : W -> result unit * handle * W :=
  fun w =>
    match db with
    | None => (Throw not_initialized, db, w)
    | Some st =>
        let '(now, w1) := date_now h w in
        let id := lit "price_" ++ Z_digits now in
        match insert_price st id obs w1 with
        | (Ok st', w2) => (Ok tt, Some st', w2)
        | (Throw errorMsg, w2) =>
            (Ok tt, Some st,
             console h Warn
               (lit "Failed to save hotel price: " ++ errorMsg) w2)
        end
    end.

(** [getHotel] *)
Definition getHotel (db : handle) (id0 : jsstring)
  : W -> result (option Hotel) * W :=
  fun w =>
    match db with
    | None => (Throw not_initialized, w)
    | Some st =>
        match driver_fault h w with
        | (Some e, w1) => (Throw (lit "Failed to get hotel: " ++ e), w1)
        | (None, w1) =>
            (Ok (find (fun x => jseqb (id x) id0) (hotels st)), w1)
        end
    end.

(** ** [comparePrices] *)

(** A row of [hotels h LEFT JOIN hotel_prices hp ON h.hotel_id =
    hp.hotel_id]: the columns of [hp] are [NULL] for a hotel without a
    price.  (The column [rn] of the query is never read.) *)
Record row : Type := Row {
  row_hotel : Hotel;
  row_price : option HotelPrice
}.

Definition left_join (st : store) : list row :=
  flat_map
    (fun x =>
       match filter (fun p => jseqb (hotelId x) (p_hotelId p))
               (hotel_prices st) with
       | [] => [Row x None]
       | ps => map (fun p => Row x (Some p)) ps
       end)
    (hotels st).

(** [WHERE hp.check_in_date = ? AND hp.check_out_date = ?]: a comparison
    with [NULL] is not true. *)
Definition where_dates (ci co : jsstring) (r : row) : bool :=
  match row_price r with
  | Some p => jseqb (checkInDate p) ci && jseqb (checkOutDate p) co
  | None => false
  end.

Fixpoint jsstring_compare (a b : jsstring) : comparison :=
  match a, b with
  | [], [] => Eq
  | [], _ :: _ => Lt
  | _ :: _, [] => Gt
  | x :: a', y :: b' =>
      match (x ?= y)%N with
      | Eq => jsstring_compare a' b'
      | c => c
      end
  end.

(** [ORDER BY h.name, hp.recorded_at DESC]: does [r1] sort no later than
    [r2]?  Names compare unit by unit, which is the order of their UTF-8
    bytes in SQLite except between a surrogate pair and a unit from
    U+E000 on; [NULL] sorts last in a descending order; rows that compare
    equal keep the order of the join. *)
Definition order_le (r1 r2 : row) : bool :=
  match jsstring_compare (name (row_hotel r1)) (name (row_hotel r2)) with
  | Lt => true
  | Gt => false
  | Eq =>
      match row_price r1, row_price r2 with
      | Some p1, Some p2 => (recordedAt p2 <=? recordedAt p1)%Z
      | Some _, None => true
      | None, Some _ => false
      | None, None => true
      end
  end.

Fixpoint order_insert (r : row) (sorted : list row) : list row :=
  match sorted with
  | [] => [r]
  | y :: t => if order_le r y then r :: sorted else y :: order_insert r t
  end.

Definition order_by (rows : list row) : list row :=
  fold_right order_insert [] rows.

(** The entries of the map [comparison]. *)
Record entry : Type := {
  e_id : jsstring;
  e_hotelId : jsstring;
  e_name : jsstring;
  latestPrice : option number;
  e_currency : option jsstring;
  lastUpdated : option Z
}.

Definition entry_of (r : row) : entry :=
  {| e_id := id (row_hotel r);
     e_hotelId := hotelId (row_hotel r);
     e_name := name (row_hotel r);
     latestPrice := option_map price (row_price r);
     e_currency := option_map currency (row_price r);
     lastUpdated := option_map recordedAt (row_price r) |}.

(** The loop over [results]: a [Map] keeps its keys in the order of
    their first insertion. *)
Fixpoint fill_comparison (results : list row)
  (comparison : list (jsstring * entry)) : list (jsstring * entry) :=
  match results with
  | [] => comparison
  | r :: rest =>
      if existsb (fun kv => jseqb (fst kv) (id (row_hotel r))) comparison
      then fill_comparison rest comparison
      else fill_comparison rest
             (comparison ++ [(id (row_hotel r), entry_of r)])
  end.

(** The comparator of the final [sort]. *)
Definition by_latestPrice (a b : entry) : number :=
  match latestPrice a with
  | None => number_of_N 1
  | Some pa =>
      match latestPrice b with
      | None => SFopp (number_of_N 1)
      | Some pb => SFsub prec emax pa pb
      end
  end.

(** [checkInDate && checkOutDate] *)
Definition date_filter (checkInDate checkOutDate : option jsstring)
  : option (jsstring * jsstring) :=
  match checkInDate, checkOutDate with
  | Some (c :: ci), Some (d :: co) => Some (c :: ci, d :: co)
  | _, _ => None
  end.

(** The rows the query returns. *)
Definition query_rows (st : store) (checkInDate checkOutDate : option jsstring)
  : list row :=
  let joined := left_join st in
  order_by
    (match date_filter checkInDate checkOutDate with
     | Some (ci, co) => filter (where_dates ci co) joined
     | None => joined
     end).

Definition compare_rows (st : store)
  (checkInDate checkOutDate : option jsstring) : list entry :=
  js_sort by_latestPrice
    (map snd (fill_comparison (query_rows st checkInDate checkOutDate) [])).

Definition comparePrices (db : handle)
  (checkInDate checkOutDate : option jsstring)
  : W -> result (list entry) * W :=
  fun w =>
    match db with
    | None => (Throw not_initialized, w)
    | Some st =>
        match driver_fault h w with
        | (Some e, w1) => (Throw (lit "Failed to compare prices: " ++ e), w1)
        | (None, w1) => (Ok (compare_rows st checkInDate checkOutDate), w1)
        end
    end.

(** ** The table of hotels *)

(** [INSERT INTO hotels (id, hotel_id, name) VALUES (?, ?, ?)]: the
    driver may fail; [id] is the primary key and [hotel_id] is [UNIQUE];
    [created_at] and [updated_at] take their default, the time of the
    statement.  With [OR IGNORE] a row in conflict is skipped without an
    error. *)
Definition insert_hotel (or_ignore : bool) (st : store)
  (id0 hotelId0 name0 : jsstring) : W -> result store * W :=
  fun w =>
    match driver_fault h w with
    | (Some e, w1) => (Throw e, w1)
    | (None, w1) =>
        if existsb (fun x => jseqb (id x) id0) (hotels st)
        then (if or_ignore then Ok st
              else Throw (lit "SQLITE_CONSTRAINT: UNIQUE constraint failed: hotels.id"),
              w1)
        else if existsb (fun x => jseqb (hotelId x) hotelId0) (hotels st)
        then (if or_ignore then Ok st
              else Throw (lit "SQLITE_CONSTRAINT: UNIQUE constraint failed: hotels.hotel_id"),
              w1)
        else
          let '(ts, w2) := current_timestamp h w1 in
          (Ok (Store (hotels st ++
                      [{| id := id0; hotelId := hotelId0; name := name0;
                          createdAt := ts; updatedAt := ts |}])
                 (hotel_prices st)), w2)
    end.

(** [predefinedHotels] of [insertPredefinedHotels]: the WebBeds id and
    the name. *)
Definition predefinedHotels : list (jsstring * jsstring) :=
  [ (lit "2490015", lit "M Hotel Al Dana Makkah by Millennium");
    (lit "5150335", lit "Novotel Thakher Makkah Hotel");
    (lit "2548785", lit "Voco Makkah");
    (lit "22074",   lit "Elaf Ajyad Hotel");
    (lit "2236075", lit "Makkah al Aziziah EX");
    (lit "5559815", lit "Mercure Makkah Aziziah");
    (lit "2308285", lit "Four Points By Sheraton Makkah Al Naseem");
    (lit "2113125", lit "Ibis Styles Makkah");
    (lit "1894035", lit "ELAF BAKKAH HOTEL") ].

(** The loop of [insertPredefinedHotels]: a statement that fails is
    logged and the loop goes on.  ([console.warn] is given the error
    itself as a second argument; its message stands for it.) *)
Fixpoint insertPredefinedHotels_loop (st : store)
  (rest : list (jsstring * jsstring)) : W -> store * W :=
  fun w =>
    match rest with
    | [] => (st, w)
    | (hotel_id, hotel_name) :: rest' =>
        let dbId := lit "hotel_" ++ hotel_id in
        match insert_hotel true st dbId hotel_id hotel_name w with
        | (Ok st', w1) => insertPredefinedHotels_loop st' rest' w1
        | (Throw e, w1) =>
            insertPredefinedHotels_loop st rest'
              (console h Warn
                 (lit "Failed to insert hotel " ++ hotel_name ++ lit ": " ++ e)
                 w1)
        end
    end.

(** [insertPredefinedHotels] *)
Definition insertPredefinedHotels (db : handle)
  : W -> result unit * handle * W :=
  fun w =>
    match db with
    | None => (Throw not_initialized, db, w)
    | Some st =>
        let '(st', w1) := insertPredefinedHotels_loop st predefinedHotels w in
        (Ok tt, Some st', w1)
    end.

(** [addHotel].  The timestamps of the object it returns are two
    readings of the clock of the process ([new Date().toISOString()]),
    not the ones stored in the row. *)
Definition addHotel (db : handle) (name0 hotelId0 : jsstring)
  : W -> result Hotel * handle * W :=
  fun w =>
    match db with
    | None => (Throw not_initialized, db, w)
    | Some st =>
        let '(now, w1) := date_now h w in
        let id0 := lit "hotel_" ++ Z_digits now in
        match insert_hotel false st id0 hotelId0 name0 w1 with
        | (Ok st', w2) =>
            let '(t1, w3) := date_now h w2 in
            let '(t2, w4) := date_now h w3 in
            (Ok {| id := id0; hotelId := hotelId0; name := name0;
                   createdAt := t1; updatedAt := t2 |}, Some st', w4)
        | (Throw errorMsg, w2) =>
            (Throw (lit "Failed to add hotel: " ++ errorMsg), Some st, w2)
        end
    end.

(** [ORDER BY key DESC]: rows that compare equal keep the order of the
    table (SQLite leaves their order open). *)
Fixpoint insert_desc {A : Type} (key : A -> Z) (x : A) (sorted : list A)
  : list A :=
  match sorted with
  | [] => [x]
  | y :: t => if (key y <=? key x)%Z then x :: sorted
              else y :: insert_desc key x t
  end.

Definition order_desc {A : Type} (key : A -> Z) (rows : list A) : list A :=
  fold_right (insert_desc key) [] rows.

(** [getAllHotels] *)
Definition getAllHotels (db : handle) : W -> result (list Hotel) * W :=
  fun w =>
    match db with
    | None => (Throw not_initialized, w)
    | Some st =>
        match driver_fault h w with
        | (Some e, w1) => (Throw (lit "Failed to get hotels: " ++ e), w1)
        | (None, w1) => (Ok (order_desc createdAt (hotels st)), w1)
        end
    end.

(** [deleteHotel]: [changes] is the number of rows deleted.  The
    connection never turns the enforcement of foreign keys on, so the
    prices of the hotel stay in their table. *)
Definition deleteHotel (db : handle) (id0 : jsstring)
  : W -> result bool * handle * W :=
  fun w =>
    match db with
    | None => (Throw not_initialized, db, w)
    | Some st =>
        match driver_fault h w with
        | (Some e, w1) =>
            (Throw (lit "Failed to delete hotel: " ++ e), Some st, w1)
        | (None, w1) =>
            let kept := filter (fun x => negb (jseqb (id x) id0)) (hotels st) in
            let changes := (length (hotels st) - length kept)%nat in
            (Ok (0 <? changes)%nat, Some (Store kept (hotel_prices st)), w1)
        end
    end.

(** [getHotelPriceHistory], for an integer [limit]: a negative [LIMIT]
    sets no bound. *)
Definition getHotelPriceHistory (db : handle) (hotelId0 : jsstring)
  (limit : Z) : W -> result (list HotelPrice) * W :=
  fun w =>
    match db with
    | None => (Throw not_initialized, w)
    | Some st =>
        match driver_fault h w with
        | (Some e, w1) =>
            (Throw (lit "Failed to get price history: " ++ e), w1)
        | (None, w1) =>
            let prices :=
              order_desc recordedAt
                (filter (fun p => jseqb (p_hotelId p) hotelId0)
                   (hotel_prices st)) in
            (Ok (if (limit <? 0)%Z then prices
                 else firstn (Z.to_nat limit) prices), w1)
        end
    end.

(** [close]: a failure of the driver is not caught. *)
Definition close (db : handle) : W -> result unit * handle * W :=
  fun w =>
    match db with
    | None => (Ok tt, db, w)
    | Some st =>
        match driver_fault h w with
        | (Some e, w1) => (Throw e, db, w1)
        | (None, w1) =>
            (Ok tt, None, console h Info (lit "Database connection closed") w1)
        end
    end.

(** [isInitialized] *)
Definition isInitialized (db : handle) : bool :=
  match db with Some _ => true | None => false end.

End Database.

End Db.

(* ===================================================================== *)
(** * The routes ([routes/hotels.ts]) *)
(* ===================================================================== *)

Module Routes.

(** The objects of the module: the database and the first scraper. *)
Record app : Type := App {
  db : Db.handle;
  scraper : V1.scraper
}.

Definition PREDEFINED_HOTELS : list (jsstring * jsstring) :=
  [ (lit "2490015", lit "M Hotel Al Dana Makkah by Millennium");
    (lit "5150335", lit "Novotel Thakher Makkah Hotel");
    (lit "2548785", lit "Voco Makkah");
    (lit "22074",   lit "Elaf Ajyad Hotel");
    (lit "2236075", lit "Makkah al Aziziah EX");
    (lit "5559815", lit "Mercure Makkah Aziziah");
    (lit "2308285", lit "Four Points By Sheraton Makkah Al Naseem");
    (lit "2113125", lit "Ibis Styles Makkah");
    (lit "1894035", lit "ELAF BAKKAH HOTEL") ].

Definition scraperConfig : V1.ScraperConfig :=
  {| V1.headless := true;
     V1.timeout := 30000;
     V1.retryAttempts := 3;
     V1.delayBetweenRequests := 2000;
     V1.userAgent :=
       lit "Mozilla/5.0 (Windows NT 10.0; Win64; x64) AppleWebKit/537.36" |}.

(** What a handler answers: the status and the payload. *)
Inductive response : Type :=
| BadRequest : jsstring -> response                       (* 400 *)
| NotFound : jsstring -> response                         (* 404 *)
| ServerError : jsstring -> jsstring -> response          (* 500 *)
| SearchOk : list V1.HotelSearchResult -> response        (* 200 *)
| ScrapeOk : option V1.HotelSearchResult -> response.     (* 200 *)

(** A field of a request body is truthy when present and not empty. *)
Definition truthy (v : option jsstring) : option jsstring :=
  match v with
  | Some (c :: s) => Some (c :: s)
  | _ => None
  end.

Definition observation_of (r : V1.HotelSearchResult) (hotelId : jsstring)
  : Db.observation :=
  {| Db.o_hotelId := hotelId;
     Db.o_price := V1.price r;
     Db.o_currency := V1.currency r;
     Db.o_checkIn := V1.checkIn r;
     Db.o_checkOut := V1.checkOut r |}.

Section Handlers.

Variable W : Type.
Variable hs : V1.host W.
Variable hd : Db.host W.

(** [if (!scraper.isInitialized()) await scraper.initialize()] *)
Definition ensure_initialized (s : V1.scraper)
  : W -> result unit * V1.scraper * W :=
  fun w =>
    if V1.isInitialized s then (Ok tt, s, w) else V1.initialize hs s w.

(** The loop [for (const result of searchResults) await
    db.saveHotelPrice(result)]. *)
Fixpoint save_all (d : Db.handle) (results : list V1.HotelSearchResult)
  : W -> result unit * Db.handle * W :=
  fun w =>
    match results with
    | [] => (Ok tt, d, w)
    | r :: rest =>
        match Db.saveHotelPrice hd d (observation_of r (V1.hotelId r)) w with
        | (Ok _, d1, w1) => save_all d1 rest w1
        | (Throw e, d1, w1) => (Throw e, d1, w1)
        end
    end.

Definition search_failed (errorMsg : jsstring) (w : W) : response * W :=
  (ServerError (lit "Failed to search hotels") errorMsg,
   V1.console hs Error (lit "Search error: " ++ errorMsg) w).

(** [router.post('/search', ...)] *)
Definition post_search (a : app)
  (hotelName checkInDate checkOutDate : option jsstring)
  : W -> response * app * W :=
  fun w =>
    match truthy checkInDate, truthy checkOutDate with
    | Some ci, Some co =>
        match ensure_initialized (scraper a) w with
        | (Throw e, s1, w1) =>
            let '(r, w2) := search_failed e w1 in (r, App (db a) s1, w2)
        | (Ok _, s1, w1) =>
            let hotelNames :=
              match truthy hotelName with
              | Some n => [n]
              | None => map snd PREDEFINED_HOTELS
              end in
            match V1.searchMultipleHotels hs scraperConfig s1 hotelNames
                    ci co w1 with
            | (Throw e, w2) =>
                let '(r, w3) := search_failed e w2 in (r, App (db a) s1, w3)
            | (Ok searchResults, w2) =>
                match save_all (db a) searchResults w2 with
                | (Throw e, d1, w3) =>
                    let '(r, w4) := search_failed e w3 in (r, App d1 s1, w4)
                | (Ok _, d1, w3) => (SearchOk searchResults, App d1 s1, w3)
                end
            end
        end
    | _, _ =>
        (BadRequest (lit "Check-in and check-out dates are required"), a, w)
    end.

Definition scrape_failed (errorMsg : jsstring) (w : W) : response * W :=
  (ServerError (lit "Failed to scrape hotel") errorMsg,
   V1.console hs Error (lit "Scrape error: " ++ errorMsg) w).

(** [router.post('/:id/scrape', ...)] *)
Definition post_scrape (a : app) (id : jsstring)
  (checkInDate checkOutDate : option jsstring)
  : W -> response * app * W :=
  fun w =>
    match truthy checkInDate, truthy checkOutDate with
    | Some ci, Some co =>
        match Db.getHotel hd (db a) id w with
        | (Throw e, w1) =>
            let '(r, w2) := scrape_failed e w1 in (r, a, w2)
        | (Ok None, w1) => (NotFound (lit "Hotel not found"), a, w1)
        | (Ok (Some hotel), w1) =>
            match ensure_initialized (scraper a) w1 with
            | (Throw e, s1, w2) =>
                let '(r, w3) := scrape_failed e w2 in (r, App (db a) s1, w3)
            | (Ok _, s1, w2) =>
                match V1.searchHotelPrices hs scraperConfig s1
                        (Db.name hotel) ci co w2 with
                | (Throw e, w3) =>
                    let '(r, w4) := scrape_failed e w3 in
                    (r, App (db a) s1, w4)
                | (Ok None, w3) => (ScrapeOk None, App (db a) s1, w3)
                | (Ok (Some result), w3) =>
                    match Db.saveHotelPrice hd (db a)
                            (observation_of result id) w3 with
                    | (Throw e, d1, w4) =>
                        let '(r, w5) := scrape_failed e w4 in
                        (r, App d1 s1, w5)
                    | (Ok _, d1, w4) =>
                        (ScrapeOk (Some result), App d1 s1, w4)
                    end
                end
            end
        end
    | _, _ =>
        (BadRequest (lit "Check-in and check-out dates are required"), a, w)
    end.

(** ** The other handlers *)

(** What they answer: the status and the payload. *)
Inductive answer : Type :=
| Bad : jsstring -> answer                              (* 400 *)
| Missing : jsstring -> answer                          (* 404 *)
| Failed : jsstring -> jsstring -> answer               (* 500 *)
| Created : Db.Hotel -> answer                          (* 201 *)
| Hotels : list Db.Hotel -> answer                      (* 200 *)
| Details : Db.Hotel -> list Db.HotelPrice -> answer    (* 200 *)
| Deleted : answer                                      (* 200 *)
| Comparison : list Db.entry -> answer.                 (* 200 *)

(** The [catch] block of a handler: [console.error(label, errorMsg)] and
    the status 500. *)
Definition failed (label error errorMsg : jsstring) (w : W) : answer * W :=
  (Failed error errorMsg,
   V1.console hs Error (label ++ lit " " ++ errorMsg) w).

(** [router.post('/add', ...)] *)
Definition post_add (a : app) (name hotelId : option jsstring)
  : W -> answer * app * W :=
  fun w =>
    match truthy name, truthy hotelId with
    | Some n, Some i =>
        match Db.addHotel hd (db a) n i w with
        | (Ok hotel, d1, w1) => (Created hotel, App d1 (scraper a), w1)
        | (Throw e, d1, w1) =>
            let '(r, w2) :=
              failed (lit "Add hotel error:") (lit "Failed to add hotel") e w1 in
            (r, App d1 (scraper a), w2)
        end
    | _, _ => (Bad (lit "Hotel name and WebBeds ID are required"), a, w)
    end.

(** [router.get('/', ...)] *)
Definition get_all (a : app) : W -> answer * W :=
  fun w =>
    match Db.getAllHotels hd (db a) w with
    | (Ok hotels, w1) => (Hotels hotels, w1)
    | (Throw e, w1) =>
        failed (lit "Get hotels error:") (lit "Failed to retrieve hotels") e w1
    end.

(** [router.get('/:id', ...)]: the history is asked for with the default
    limit, 30. *)
Definition get_by_id (a : app) (id : jsstring) : W -> answer * W :=
  fun w =>
    match Db.getHotel hd (db a) id w with
    | (Throw e, w1) =>
        failed (lit "Get hotel error:") (lit "Failed to retrieve hotel") e w1
    | (Ok None, w1) => (Missing (lit "Hotel not found"), w1)
    | (Ok (Some hotel), w1) =>
        match Db.getHotelPriceHistory hd (db a) id 30 w1 with
        | (Ok priceHistory, w2) => (Details hotel priceHistory, w2)
        | (Throw e, w2) =>
            failed (lit "Get hotel error:") (lit "Failed to retrieve hotel")
              e w2
        end
    end.

(** [router.delete('/:id', ...)] *)
Definition delete_by_id (a : app) (id : jsstring) : W -> answer * app * W :=
  fun w =>
    match Db.deleteHotel hd (db a) id w with
    | (Ok true, d1, w1) => (Deleted, App d1 (scraper a), w1)
    | (Ok false, d1, w1) =>
        (Missing (lit "Hotel not found"), App d1 (scraper a), w1)
    | (Throw e, d1, w1) =>
        let '(r, w2) :=
          failed (lit "Delete hotel error:") (lit "Failed to delete hotel")
            e w1 in
        (r, App d1 (scraper a), w2)
    end.

(** [router.get('/compare', ...)] *)
Definition get_compare (a : app) (checkInDate checkOutDate : option jsstring)
  : W -> answer * W :=
  fun w =>
    match Db.comparePrices hd (db a) checkInDate checkOutDate w with
    | (Ok comparison, w1) => (Comparison comparison, w1)
    | (Throw e, w1) =>
        failed (lit "Compare error:") (lit "Failed to compare prices") e w1
    end.

End Handlers.

(** ** The router

    Express tries the routes in the order of their registration and
    hands the request to the first whose method and path match; the
    handlers of the module always answer and never pass the request on.
    A path is the list of its segments; a literal segment of a pattern is
    compared without regard to the case of ASCII letters, a parameter
    takes one segment that is not empty. *)
Inductive method : Type := GET | POST | DELETE.

Inductive piece : Type :=
| Lit : jsstring -> piece
| Param : piece.

Inductive route : Type :=
| RouteSearch | RouteAdd | RouteList | RouteById | RouteScrape | RouteDelete
| RouteCompare | RouteHistory | RoutePredefined.

Definition method_eqb (a b : method) : bool :=
  match a, b with
  | GET, GET | POST, POST | DELETE, DELETE => true
  | _, _ => false
  end.

(** The registrations of the module, in their order. *)
Definition registrations : list (method * list piece * route) :=
  [ (POST,   [Lit (lit "search")],          RouteSearch);
    (POST,   [Lit (lit "add")],             RouteAdd);
    (GET,    [],                            RouteList);
    (GET,    [Param],                       RouteById);
    (POST,   [Param; Lit (lit "scrape")],   RouteScrape);
    (DELETE, [Param],                       RouteDelete);
    (GET,    [Lit (lit "compare")],         RouteCompare);
    (GET,    [Param; Lit (lit "history")],  RouteHistory);
    (GET,    [Lit (lit "predefined")],      RoutePredefined) ].

(** The parameters of a path that matches a pattern. *)
Fixpoint path_match (pattern : list piece) (path : list jsstring)
  : option (list jsstring) :=
  match pattern, path with
  | [], [] => Some []
  | Lit l :: pattern', s :: path' =>
      if jseqb (toUpperCase s) (toUpperCase l)
      then path_match pattern' path' else None
  | Param :: pattern', s :: path' =>
      match s with
      | [] => None
      | _ => option_map (cons s) (path_match pattern' path')
      end
  | _, _ => None
  end.

Fixpoint first_route (rs : list (method * list piece * route)) (m : method)
  (path : list jsstring) : option (route * list jsstring) :=
  match rs with
  | [] => None
  | (m0, pattern, r) :: rs' =>
      if method_eqb m m0 then
        match path_match pattern path with
        | Some params => Some (r, params)
        | None => first_route rs' m path
        end
      else first_route rs' m path
  end.

(** The route that answers a request, if any. *)
Definition dispatch (m : method) (path : list jsstring)
  : option (route * list jsstring) :=
  first_route registrations m path.

End Routes.

(* ===================================================================== *)
(** * The logger ([utils/logger.ts]) *)
(* ===================================================================== *)

Module Logger.

(** [logLevels] *)
Definition logLevels (l : level) : Z :=
  match l with Error => 0 | Warn => 1 | Info => 2 | Debug => 3 end.

Definition level_name (l : level) : jsstring :=
  match l with
  | Error => lit "error" | Warn => lit "warn"
  | Info => lit "info" | Debug => lit "debug"
  end.

(** What [logLevels[key]] finds: a level of the object itself, a member
    inherited from [Object.prototype] (a function, or the prototype
    itself for [__proto__]), or nothing. *)
Inductive found : Type :=
| Own : Z -> found
| Inherited : found
| Absent : found.

Definition object_prototype_keys : list jsstring :=
  [lit "constructor"; lit "hasOwnProperty"; lit "isPrototypeOf";
   lit "propertyIsEnumerable"; lit "toLocaleString"; lit "toString";
   lit "valueOf"; lit "__proto__"; lit "__defineGetter__";
   lit "__defineSetter__"; lit "__lookupGetter__"; lit "__lookupSetter__"].

Definition lookup (key : jsstring) : found :=
  if jseqb key (lit "error") then Own 0
  else if jseqb key (lit "warn") then Own 1
  else if jseqb key (lit "info") then Own 2
  else if jseqb key (lit "debug") then Own 3
  else if existsb (jseqb key) object_prototype_keys then Inherited
  else Absent.

(** [getCurrentLogLevel], for the configured [config.logLevel]: [None]
    stands for a value that is not a number (an inherited member).  The
    operator [||] replaces what is falsy: the empty text, the level 0 and
    [undefined]. *)
Definition getCurrentLogLevel (logLevel : jsstring) : option Z :=
  let level := match logLevel with [] => lit "info" | _ => logLevel end in
  match lookup level with
  | Own n => if (n =? 0)%Z then Some (logLevels Info) else Some n
  | Inherited => None
  | Absent => Some (logLevels Info)
  end.

(** The test at the head of [log]: [logLevels[level] >
    getCurrentLogLevel()].  A comparison with a value that is not a
    number is false. *)
Definition suppressed (logLevel : jsstring) (l : level) : bool :=
  match getCurrentLogLevel logLevel with
  | Some current => (current <? logLevels l)%Z
  | None => false
  end.

(** The collaborators: the four methods of [console], the clock as
    [new Date().toISOString()], and [JSON.stringify] on the contexts
    (plain records in the sources). *)
Record host (W C : Type) : Type := Host {
  console : level -> jsstring -> W -> W;
  now_iso : W -> jsstring * W;
  stringify : C -> jsstring
}.

Arguments console {W C}. Arguments now_iso {W C}. Arguments stringify {W C}.

Section Log.

Variable W C : Type.
Variable h : host W C.
Variable logLevel : jsstring.

(** [formatLogEntry] *)
Definition formatLogEntry (timestamp : jsstring) (l : level)
  (message : jsstring) (context : option C) : jsstring :=
  let contextStr :=
    match context with
    | Some c => lit " | " ++ stringify h c
    | None => []
    end in
  lit "[" ++ timestamp ++ lit "] [" ++ toUpperCase (level_name l) ++ lit "] "
  ++ message ++ contextStr.

(** [log] *)
Definition log (l : level) (message : jsstring) (context : option C)
  : W -> W :=
  fun w =>
    if suppressed logLevel l then w
    else
      let '(timestamp, w1) := now_iso h w in
      console h l (formatLogEntry timestamp l message context) w1.

End Log.

End Logger.

(* ===================================================================== *)
(** * Reference definitions for the statements *)
(* ===================================================================== *)

(** ** The separator rule in words

    The mark that stands rightmost among the dots and commas of [r] is the
    decimal separator; every other mark is a thousands separator.  The
    thousands separators are deleted and the decimal separator is written
    as a dot. *)
Definition is_mark (c : N) : bool := ((c =? cu_dot) || (c =? cu_comma))%N.

Definition rightmost_mark (r : jsstring) : option N :=
  last (map Some (filter is_mark r)) None.

Definition rightmost_decimal (r : jsstring) : jsstring :=
  match rightmost_mark r with
  | None => r
  | Some d =>
      map (fun c => if (c =? d)%N then cu_dot else c)
        (filter (fun c => negb (is_mark c) || (c =? d)%N) r)
  end.

(** The Number [x] is a positive binary64 with a full significand,
    [m * 2^e] with [2^52 <= m < 2^53] and [e < 0], that lies within half a
    unit in the last place of the rational [p / q]: it is what the
    decimal [p / q] rounds to. *)
Definition nearest_to (x : number) (p q : Z) : Prop :=
  match x with
  | S754_finite false m e =>
      (2 ^ 52 <= Z.pos m < 2 ^ 53)%Z /\ (e < 0)%Z /\ (0 < q)%Z
      /\ (2 * Z.abs (Z.pos m * q - p * 2 ^ (- e)) <= q)%Z
  | _ => False
  end.

(** [null] for a NaN, the Number otherwise. *)
Definition number_or_null (x : number) : option number :=
  if isNaN x then None else Some x.

(** The numeric remainder of [s] cannot be parsed as a number: the number
    pattern finds nothing in it, or [parseFloat] answers NaN on what the
    pattern found. *)
Definition unparseable (s : jsstring) : Prop :=
  match V2.numeric_remainder s with
  | None => True
  | Some r => isNaN (parseFloat (V2.separators r)) = true
  end.

(** Every class of the pattern [r] lies within [P]. *)
Fixpoint within (P : N -> Prop) (r : regex) : Prop :=
  match r with
  | RChar q => forall c, q c = true -> P c
  | RSeq a b => within P a /\ within P b
  | RAlt a b => within P a /\ within P b
  | RStar a => within P a
  | RGroup _ a => within P a
  | _ => True
  end.

(** The three-letter codes of the currency-code pattern. *)
Definition currency_codes : list jsstring :=
  [lit "USD"; lit "EUR"; lit "GBP"; lit "JPY"; lit "INR"; lit "CAD"; lit "AUD"].

(** A captured text that spells one of the codes, in any letter case. *)
Definition is_code (g : jsstring) : Prop :=
  exists c1 c2 c3, g = [c1; c2; c3] /\ In (toUpperCase g) currency_codes.

(** Units that let [parseFloat] find no number. *)
Definition dot_or_space (c : N) : Prop := c = cu_dot \/ is_space c = true.

Definition mark_or_space (c : N) : Prop :=
  V2.is_number_unit c = true /\ is_digit c = false.

(** [price.toFixed(2) + " " + currency] *)
Definition reserialize (price : number) (currency : jsstring) : jsstring :=
  toFixed2 price ++ lit " " ++ currency.

(** A digit or a dot. *)
Definition plain_unit (ch : N) : Prop := is_digit ch = true \/ ch = cu_dot.

(** A Number from 0 up to, but not including, 10^21: the range in which
    [toFixed] writes plain decimal notation. *)
Definition fixed_range (x : number) : bool :=
  match x with
  | S754_zero _ => true
  | S754_finite false m e => negb (at_least_1e21 m e)
  | _ => false
  end.

(** A digit string, a dot and two digits: the plain notation of
    [toFixed(2)]. *)
Definition plain_fixed2 (t : jsstring) : Prop :=
  exists ip d1 d2,
    t = ip ++ [cu_dot; d1; d2] /\ ip <> [] /\
    forallb is_digit ip = true /\ is_digit d1 = true /\ is_digit d2 = true.

(** The checks of [searchMultipleHotels] on its dates. *)
Definition valid_range {W : Type} (h : V1.host W) (ci co : jsstring) : bool :=
  V1.isValidDateFormat h ci && V1.isValidDateFormat h co
  && negb (V1.date_ge h ci co).

(** A hotel has an observation for the dates of the filter (for any
    dates when there is no filter). *)
Definition observed (st : Db.store) (filter_ : option (jsstring * jsstring))
  (x : Db.Hotel) : bool :=
  existsb
    (fun p =>
       jseqb (Db.hotelId x) (Db.p_hotelId p)
       && match filter_ with
          | Some (ci, co) =>
              jseqb (Db.checkInDate p) ci && jseqb (Db.checkOutDate p) co
          | None => true
          end)
    (Db.hotel_prices st).

(** The key under which a row enters the map of [comparePrices]. *)
Definition row_key (r : Db.row) : jsstring := Db.id (Db.row_hotel r).

(** The entries with a price come first, those without come last. *)
Definition nulls_last (l : list Db.entry) : Prop :=
  exists priced unpriced,
    l = priced ++ unpriced
    /\ Forall (fun e => Db.latestPrice e <> None) priced
    /\ Forall (fun e => Db.latestPrice e = None) unpriced.

(** ** Counting the invocations of an operation

    [calls] reads, in the world, how often the operation has run: the
    operation adds one, the pauses and the log leave it alone. *)
Definition counted {W T : Type} (calls : W -> nat) (fn : M W T) : Prop :=
  forall w, calls (snd (fn w)) = S (calls w).

Definition quiet2 {W : Type} (h : V2.host W) (calls : W -> nat) : Prop :=
  (forall l m x w, calls (V2.logger h l m x w) = calls w)
  /\ (forall d w, calls (V2.sleep h d w) = calls w)
  /\ (forall w, calls (snd (V2.random h w)) = calls w).

Definition quiet1 {W : Type} (h : V1.host W) (calls : W -> nat) : Prop :=
  (forall l m w, calls (V1.console h l m w) = calls w)
  /\ (forall d w, calls (V1.sleep h d w) = calls w).

(** From the count [c0] on, the operation fails [k] times and then
    succeeds with [v]. *)
Definition fails_k_times_then {W T : Type} (calls : W -> nat) (fn : M W T)
  (c0 k : nat) (v : T) : Prop :=
  (forall w, (calls w < c0 + k)%nat -> exists e, fst (fn w) = Throw e)
  /\ (forall w, calls w = (c0 + k)%nat -> fst (fn w) = Ok v).

Definition always_fails {W T : Type} (fn : M W T) : Prop :=
  forall w, exists e, fst (fn w) = Throw e.

(** ** The outcomes of a batch, hotel by hotel

    The searches of [V2.searchHotels] run one after the other; each
    outcome is logged before the next search starts. *)
Fixpoint batch_outcomes {W : Type} (h : V2.host W)
  (search : jsstring -> M W V2.HotelSearchResult) (hotelIds : list jsstring)
  (w : W) : list (jsstring * result V2.HotelSearchResult) :=
  match hotelIds with
  | [] => []
  | hotelId :: rest =>
      match search hotelId w with
      | (Ok r, w1) =>
          (hotelId, Ok r)
          :: batch_outcomes h search rest
               (V2.logger h Info (lit "Successfully searched hotel " ++ hotelId)
                  [("hotelId"%string, MStr hotelId)] w1)
      | (Throw e, w1) =>
          (hotelId, Throw e)
          :: batch_outcomes h search rest
               (V2.logger h Error (lit "Failed to search hotel " ++ hotelId)
                  [("hotelId"%string, MStr hotelId);
                   ("error"%string, MStr e)] w1)
      end
  end.

Fixpoint successes {A : Type} (l : list (jsstring * result A)) : list A :=
  match l with
  | [] => []
  | (_, Ok r) :: t => r :: successes t
  | (_, Throw _) :: t => successes t
  end.

Fixpoint failures {A : Type} (l : list (jsstring * result A))
  : list (jsstring * jsstring) :=
  match l with
  | [] => []
  | (_, Ok _) :: t => failures t
  | (k, Throw e) :: t => (k, e) :: failures t
  end.

Definition succeeded {A : Type} (r : result A) : bool :=
  match r with Ok _ => true | Throw _ => false end.


(** The results among the outcomes: a search that returned a hotel. *)
Fixpoint found {A : Type} (l : list (jsstring * result (option A))) : list A :=
  match l with
  | [] => []
  | (_, Ok (Some r)) :: t => r :: found t
  | _ :: t => found t
  end.

(* ===================================================================== *)
(** * Collaborators for the examples *)
(* ===================================================================== *)

(** ** A [Date] for date-only strings [YYYY-MM-DD]

    The time value, in milliseconds, of midnight UTC of the day; [None]
    for other strings.  The engine takes a day from 01 to 31 in every
    month: a day that the month does not have counts on into the next
    month ([2024-02-30] is the first of March). *)
Definition two_digits (a b : N) : Z := Z.of_N ((a - 48) * 10 + (b - 48)).

Definition days_from_civil (y m d : Z) : Z :=
  let y' := (if m <=? 2 then y - 1 else y)%Z in
  let era := (y' / 400)%Z in
  let yoe := (y' - era * 400)%Z in
  let doy := ((153 * (m + (if 2 <? m then -3 else 9)) + 2) / 5 + d - 1)%Z in
  let doe := (yoe * 365 + yoe / 4 - yoe / 100 + doy)%Z in
  (era * 146097 + doe - 719468)%Z.

Definition date_only_value (s : jsstring) : option Z :=
  match s with
  | [y1; y2; y3; y4; s1; m1; m2; s2; d1; d2] =>
      if forallb is_digit [y1; y2; y3; y4; m1; m2; d1; d2]
         && (s1 =? cu_minus)%N && (s2 =? cu_minus)%N
      then
        let y := (two_digits y1 y2 * 100 + two_digits y3 y4)%Z in
        let m := two_digits m1 m2 in
        let d := two_digits d1 d2 in
        if ((1 <=? m) && (m <=? 12) && (1 <=? d) && (d <=? 31))%Z
        then Some (days_from_civil y m d * 86400000)%Z
        else None
      else None
  | _ => None
  end.

(** ** A world that only counts the invocations of an operation *)
Definition counting_host : V2.host nat :=
  {| V2.logger := fun _ _ _ w => w;
     V2.sleep := fun _ w => w;
     V2.random := fun w => (S754_zero false, w);
     V2.newPage := ret 1%N;
     V2.setViewport := fun _ _ _ => ret tt;
     V2.setUserAgent := fun _ _ => ret tt;
     V2.setDefaultTimeouts := fun _ _ w => w;
     V2.goto := fun _ _ => ret tt;
     V2.waitForSelector := fun _ => ret tt;
     V2.content := fun _ => ret [];
     V2.closePage := fun _ => ret tt;
     V2.cheerio_load := fun _ => V2.Document (fun _ => None) [];
     V2.urlSearchParams := fun _ => [] |}.

Definition counting_host1 : V1.host nat :=
  {| V1.console := fun _ _ w => w;
     V1.sleep := fun _ w => w;
     V1.date_now := fun w => (0%Z, w);
     V1.date_value := date_only_value;
     V1.launch := ret tt;
     V1.browser_newPage := ret tt;
     V1.page_setup := ret tt;
     V1.goto := fun _ => ret tt;
     V1.waitForSelector := ret tt;
     V1.content := ret [];
     V1.first_card := fun _ => None;
     V1.encodeURIComponent := fun s => s |}.

(** An operation that plays a script: its [n]-th invocation (from 0)
    has the outcome [script n]. *)
Definition scripted {T : Type} (script : nat -> result T) : M nat T :=
  fun n => (script n, S n).

Definition fails_then {T : Type} (k : nat) (v : T) : nat -> result T :=
  fun n => if (n <? k)%nat then Throw (lit "timeout") else Ok v.

Definition config_with_retries (n : Z) : V2.ScraperConfig :=
  {| V2.headless := true; V2.timeout := 30000; V2.maxRetries := n;
     V2.retryDelay := 1000; V2.userAgent := []; V2.proxy := [] |}.

Definition config1_with_attempts (n : Z) : V1.ScraperConfig :=
  {| V1.headless := true; V1.timeout := 30000; V1.retryAttempts := n;
     V1.delayBetweenRequests := 2000; V1.userAgent := [] |}.

(** ** A page that shows one hotel card *)
Definition sample_card : V1.card :=
  {| V1.data_hotel_id := Some (lit "2490015");
     V1.hotel_name_text := lit "M Hotel Al Dana Makkah by Millennium";
     V1.hotel_price_text := lit "$250";
     V1.hotel_rating_text := lit "4.5";
     V1.img_src := None;
     V1.a_href := Some (lit "/en/hotels/2490015") |}.

Definition sample_site : V1.host unit :=
  {| V1.console := fun _ _ w => w;
     V1.sleep := fun _ w => w;
     V1.date_now := fun w => (1703500000000%Z, w);
     V1.date_value := date_only_value;
     V1.launch := ret tt;
     V1.browser_newPage := ret tt;
     V1.page_setup := ret tt;
     V1.goto := fun _ => ret tt;
     V1.waitForSelector := ret tt;
     V1.content := ret [];
     V1.first_card := fun _ => Some sample_card;
     V1.encodeURIComponent := fun s => s |}.

Definition sample_driver : Db.host unit :=
  {| Db.console := fun _ _ w => w;
     Db.date_now := fun w => (1703500000000%Z, w);
     Db.current_timestamp := fun w => (1703500000%Z, w);
     Db.driver_fault := fun w => (None, w) |}.

(** A driver that rejects every statement. *)
Definition faulty_driver : Db.host unit :=
  {| Db.console := fun _ _ w => w;
     Db.date_now := fun w => (1703500000000%Z, w);
     Db.current_timestamp := fun w => (1703500000%Z, w);
     Db.driver_fault := fun w => (Some (lit "SQLITE_BUSY: database is locked"), w) |}.

Definition sample_hotel : Db.Hotel :=
  {| Db.id := lit "hotel_2490015";
     Db.hotelId := lit "2490015";
     Db.name := lit "M Hotel Al Dana Makkah by Millennium";
     Db.createdAt := 1703000000;
     Db.updatedAt := 1703000000 |}.

Definition sample_store : Db.store := Db.Store [sample_hotel] [].

Definition sample_app : Routes.app :=
  Routes.App (Some sample_store) (V1.Scraper true true).

(** A document whose first [[data-price]] element reads [0]. *)
Definition zero_price_doc : V2.document :=
  V2.Document
    (fun sel => match sel with
                | V2.SelDataPrice => Some (lit "0")
                | _ => None
                end)
    (lit "Rooms from $ 99.50 per night").




(* ===================================================================== *)
(** * Reference definitions for the properties of the other functions *)
(* ===================================================================== *)

(** ** Numbers and texts *)

(** The sign of a Number ([false] for a NaN): a Number that is not a NaN
    and has no sign is [+0], a positive finite Number or [+Infinity]. *)
Definition signbit (x : number) : bool :=
  match x with
  | S754_zero s | S754_infinity s | S754_finite s _ _ => s
  | S754_nan => false
  end.

(** A text of white space only. *)
Definition blank (s : jsstring) : bool := forallb is_space s.

(** Every comma written as a dot. *)
Definition comma_to_dot (c : N) : N := if (c =? cu_comma)%N then cu_dot else c.

Definition digit_or_comma (c : N) : Prop := is_digit c = true \/ c = cu_comma.

(** The text of the first element a selector matches, empty when it
    matches nothing: [$(selector).first().text()]. *)
Definition text_of (doc : V2.document) (sel : V2.selector) : jsstring :=
  match V2.first_text doc sel with Some t => t | None => [] end.

(** ** Pauses, pages and the order of results *)

(** [pauses] reads, in the world, the pauses made so far, in
    milliseconds: the timer adds one, the console leaves them alone. *)
Definition pause_log {W : Type} (h : V1.host W) (pauses : W -> list Z) : Prop :=
  (forall l m w, pauses (V1.console h l m w) = pauses w)
  /\ (forall d w, pauses (V1.sleep h d w) = pauses w ++ [d]).

(** The pause after the failed attempt number [i + 1] of
    [retryOperation]: 1000, 2000, 4000, 8000, then 10000. *)
Definition backoff1 (i : nat) : Z := Z.min (1000 * 2 ^ Z.of_nat i) 10000.

(** [balance] reads, in the world, the pages opened less the calls of
    [page.close()]: a page that [newPage] returns adds one, a call of
    [closePage] takes one off, and nothing else changes it. *)
Definition page_accounting {W : Type} (h : V2.host W) (balance : W -> Z)
  : Prop :=
  (forall l m x w, balance (V2.logger h l m x w) = balance w)
  /\ (forall d w, balance (V2.sleep h d w) = balance w)
  /\ (forall w, balance (snd (V2.random h w)) = balance w)
  /\ (forall w, balance (snd (V2.newPage h w))
                = match fst (V2.newPage h w) with
                  | Ok _ => (balance w + 1)%Z
                  | Throw _ => balance w
                  end)
  /\ (forall p w, balance (snd (V2.closePage h p w)) = (balance w - 1)%Z)
  /\ (forall p a b w, balance (snd (V2.setViewport h p a b w)) = balance w)
  /\ (forall p u w, balance (snd (V2.setUserAgent h p u w)) = balance w)
  /\ (forall p t w, balance (V2.setDefaultTimeouts h p t w) = balance w)
  /\ (forall p u w, balance (snd (V2.goto h p u w)) = balance w)
  /\ (forall p w, balance (snd (V2.waitForSelector h p w)) = balance w)
  /\ (forall p w, balance (snd (V2.content h p w)) = balance w).

(** A computation that leaves a reading of the world as it was. *)
Definition keeps {W A : Type} (balance : W -> Z) (m : M W A) : Prop :=
  forall w, balance (snd (m w)) = balance w.

(** [lastError?.message] in a template literal. *)
Definition last_or_undefined (lastError : option jsstring) : jsstring :=
  match lastError with Some e => e | None => lit "undefined" end.

(** ** The first scraper *)

(** Four digits, a hyphen, two digits, a hyphen, two digits, and nothing
    else. *)
Definition date_shape (s : jsstring) : bool :=
  match s with
  | [y1; y2; y3; y4; s1; m1; m2; s2; d1; d2] =>
      forallb is_digit [y1; y2; y3; y4; m1; m2; d1; d2]
      && (s1 =? cu_minus)%N && (s2 =? cu_minus)%N
  | _ => false
  end.

(** What [extractPrice] makes of the dots and commas of the number it
    found: with two marks or more all of them are deleted; a single comma
    is written as a dot, a single dot is deleted. *)
Definition marks_rule (g : jsstring) : jsstring :=
  if (2 <=? length (filter is_mark g))%nat
  then filter (fun c => negb (is_mark c)) g
  else flat_map
         (fun c => if (c =? cu_comma)%N then [cu_dot]
                   else if (c =? cu_dot)%N then [] else [c]) g.

(** [currency || 'USD'] for a text. *)
Definition text_or_USD (c : jsstring) : jsstring :=
  match c with [] => lit "USD" | _ => c end.

(** ** The database *)

(** The keys of the two tables are distinct, as the schema declares:
    [hotels.id] and [hotel_prices.id] are primary keys and
    [hotels.hotel_id] is [UNIQUE]. *)
Definition well_keyed (st : Db.store) : Prop :=
  NoDup (map Db.id (Db.hotels st))
  /\ NoDup (map Db.hotelId (Db.hotels st))
  /\ NoDup (map Db.p_id (Db.hotel_prices st)).

(** The table of hotels holds a row in conflict with the predefined
    hotel of the WebBeds id [hotel_id]: a row with the primary key
    [hotel_<hotel_id>] or with this [hotel_id]. *)
Definition known (st : Db.store) (hotel_id : jsstring) : bool :=
  existsb (fun x => jseqb (Db.id x) (lit "hotel_" ++ hotel_id)) (Db.hotels st)
  || existsb (fun x => jseqb (Db.hotelId x) hotel_id) (Db.hotels st).

(** The store a handle holds is well keyed. *)
Definition handle_well_keyed (db : Db.handle) : Prop :=
  match db with Some st => well_keyed st | None => False end.

(** A driver that rejects no statement. *)
Definition sound_driver {W : Type} (h : Db.host W) : Prop :=
  forall w, fst (Db.driver_fault h w) = None.


(** Newest first. *)
Definition newest_first {A : Type} (key : A -> Z) (l : list A) : Prop :=
  StronglySorted (fun a b => (key b <= key a)%Z) l.

(** ** The routes and the logger *)

(** The objects of the routes module when it is loaded: a database that
    was constructed and not initialised, a scraper without browser. *)
Definition module_app : Routes.app :=
  Routes.App None (V1.Scraper false false).

(** An answer with the status 500 and the details ["Database not
    initialized"]. *)
Definition not_initialized_answer (r : Routes.answer) : Prop :=
  exists error, r = Routes.Failed error Db.not_initialized.

(* ===================================================================== *)
(** * Collaborators for the examples of the other functions *)
(* ===================================================================== *)

(** ** A world that counts invocations and records the pauses *)
Definition pausing_host : V1.host (nat * list Z) :=
  {| V1.console := fun _ _ w => w;
     V1.sleep := fun d w => (fst w, snd w ++ [d]);
     V1.date_now := fun w => (0%Z, w);
     V1.date_value := date_only_value;
     V1.launch := ret tt;
     V1.browser_newPage := ret tt;
     V1.page_setup := ret tt;
     V1.goto := fun _ => ret tt;
     V1.waitForSelector := ret tt;
     V1.content := ret [];
     V1.first_card := fun _ => None;
     V1.encodeURIComponent := fun s => s |}.

Definition scripted_pausing {T : Type} (script : nat -> result T)
  : M (nat * list Z) T :=
  fun w => (script (fst w), (S (fst w), snd w)).

(** ** A world that is the balance of pages: a page whose content has
       no price *)
Definition paging_host : V2.host Z :=
  {| V2.logger := fun _ _ _ w => w;
     V2.sleep := fun _ w => w;
     V2.random := fun w => (S754_zero false, w);
     V2.newPage := fun w => (Ok 1%N, (w + 1)%Z);
     V2.setViewport := fun _ _ _ => ret tt;
     V2.setUserAgent := fun _ _ => ret tt;
     V2.setDefaultTimeouts := fun _ _ w => w;
     V2.goto := fun _ _ => ret tt;
     V2.waitForSelector := fun _ => throw (lit "TimeoutError");
     V2.content := fun _ => ret [];
     V2.closePage := fun _ w => (Ok tt, (w - 1)%Z);
     V2.cheerio_load := fun _ => V2.Document (fun _ => None) [];
     V2.urlSearchParams := fun _ => [] |}.

(** ** A console that keeps what is written *)
Definition listing_logger : Logger.host (list (level * jsstring)) jsstring :=
  {| Logger.console := fun l m w => w ++ [(l, m)];
     Logger.now_iso := fun w => (lit "2024-12-25T10:00:00.000Z", w);
     Logger.stringify := fun c => c |}.

(** ** A hotel observed twice *)
Definition earlier_price : Db.HotelPrice :=
  {| Db.p_id := lit "price_1703400000000";
     Db.p_hotelId := lit "2490015";
     Db.price := number_of_N 300; Db.currency := lit "USD";
     Db.checkInDate := lit "2024-12-25";
     Db.checkOutDate := lit "2024-12-26";
     Db.recordedAt := 1703400000 |}.

Definition later_price : Db.HotelPrice :=
  {| Db.p_id := lit "price_1703500000000";
     Db.p_hotelId := lit "2490015";
     Db.price := number_of_N 250; Db.currency := lit "USD";
     Db.checkInDate := lit "2024-12-25";
     Db.checkOutDate := lit "2024-12-26";
     Db.recordedAt := 1703500000 |}.

Definition priced_store : Db.store :=
  Db.Store [sample_hotel] [earlier_price; later_price].

(** ** A site that knows one hotel

    The world is the address the page was last sent to; the page shows
    the price [$250] at an address that names the hotel [2490015] and
    nothing at any other. *)
Fixpoint query_text (params : list (string * jsstring)) : jsstring :=
  match params with
  | [] => []
  | [kv] => lit (fst kv) ++ lit "=" ++ snd kv
  | kv :: rest => lit (fst kv) ++ lit "=" ++ snd kv ++ lit "&" ++ query_text rest
  end.

Definition one_hotel_site : V2.host jsstring :=
  {| V2.logger := fun _ _ _ w => w;
     V2.sleep := fun _ w => w;
     V2.random := fun w => (S754_zero false, w);
     V2.newPage := ret 1%N;
     V2.setViewport := fun _ _ _ => ret tt;
     V2.setUserAgent := fun _ _ => ret tt;
     V2.setDefaultTimeouts := fun _ _ w => w;
     V2.goto := fun _ url _ => (Ok tt, url);
     V2.waitForSelector := fun _ => ret tt;
     V2.content := fun _ w => (Ok w, w);
     V2.closePage := fun _ => ret tt;
     V2.cheerio_load :=
       fun html =>
         V2.Document
           (fun sel =>
              match sel with
              | V2.SelDataPrice =>
                  if includes (lit "hotelId=2490015&") html
                  then Some (lit "$250") else None
              | _ => None
              end)
           [];
     V2.urlSearchParams := query_text |}.

(* ===================================================================== *)
(** * Theorems *)
(* ===================================================================== *)

Unset Implicit Arguments.

(* ===================================================================== *)
(** * Facts about strings *)
(* ===================================================================== *)

Lemma includes_unit (c : N) (s : jsstring) :
  includes [c] s = existsb (fun d => (d =? c)%N) s.
Proof.
  induction s as [|d t IH]; [reflexivity|].
  cbn [includes existsb startsWith]. rewrite IH.
  rewrite N.eqb_sym. destruct (d =? c)%N; reflexivity.
Qed.

Lemma lastIndexOf_from_app c s x i acc :
  lastIndexOf_from c (s ++ [x]) i acc =
  if (x =? c)%N then (i + Z.of_nat (length s))%Z
  else lastIndexOf_from c s i acc.
Proof.
  revert i acc. induction s as [|d t IH]; intros i acc.
  - cbn. destruct (x =? c)%N; [lia|reflexivity].
  - cbn [app lastIndexOf_from length]. rewrite IH.
    destruct (x =? c)%N; [lia|reflexivity].
Qed.

Lemma lastIndexOf_snoc c s x :
  lastIndexOf c (s ++ [x]) =
  if (x =? c)%N then Z.of_nat (length s) else lastIndexOf c s.
Proof. unfold lastIndexOf. rewrite lastIndexOf_from_app. reflexivity. Qed.

Lemma lastIndexOf_from_bounds c s i acc :
  (acc < i)%Z ->
  (lastIndexOf_from c s i acc = acc /\ existsb (fun d => (d =? c)%N) s = false)
  \/ ((i <= lastIndexOf_from c s i acc < i + Z.of_nat (length s))%Z
      /\ existsb (fun d => (d =? c)%N) s = true).
Proof.
  revert i acc. induction s as [|d t IH]; intros i acc Hlt.
  - left. split; reflexivity.
  - cbn [lastIndexOf_from existsb length].
    destruct (d =? c)%N eqn:E.
    + right. split; [|reflexivity].
      destruct (IH (i + 1)%Z i ltac:(lia)) as [[H _]|[H _]]; lia.
    + destruct (IH (i + 1)%Z acc ltac:(lia)) as [[H H']|[H H']].
      * left. split; assumption.
      * right. split; [lia|assumption].
Qed.

Lemma lastIndexOf_bounds c s :
  (lastIndexOf c s = -1 /\ includes [c] s = false)%Z
  \/ ((0 <= lastIndexOf c s < Z.of_nat (length s))%Z /\ includes [c] s = true).
Proof.
  rewrite includes_unit. unfold lastIndexOf.
  destruct (lastIndexOf_from_bounds c s 0 (-1) ltac:(lia)) as [H|H];
    [left|right]; exact H.
Qed.

(* ===================================================================== *)
(** * Facts about the matcher *)
(* ===================================================================== *)

(** A continuation that never succeeds makes every pattern fail. *)
Lemma star_loop_fail m1 k fuel st :
  (forall st1 k1, (forall st', k1 st' = None) -> m1 st1 k1 = None) ->
  (forall st', k st' = None) ->
  star_loop m1 k fuel st = None.
Proof.
  intros Hm Hk. revert st. induction fuel as [|f IH]; intro st; cbn.
  - apply Hk.
  - rewrite Hm; [apply Hk|].
    intro st'. cbv beta.
    match goal with |- (if ?b then _ else _) = _ => destruct b end;
      [apply IH|reflexivity].
Qed.

Lemma rmatch_fail r :
  forall st k, (forall st', k st' = None) -> rmatch r st k = None.
Proof.
  induction r as [|p|r1 IH1 r2 IH2|r1 IH1 r2 IH2|r1 IH1|i r1 IH1| | |];
    intros st k Hk; cbn.
  - apply Hk.
  - destruct (after st) as [|c t]; [reflexivity|].
    destruct (p c); [apply Hk|reflexivity].
  - apply IH1. intro st'. apply IH2, Hk.
  - rewrite IH1 by assumption. apply IH2, Hk.
  - apply star_loop_fail; [|assumption]. intros st1 k1 H1. apply IH1, H1.
  - apply IH1. intro st'. apply Hk.
  - destruct (at_word_boundary st); [apply Hk|reflexivity].
  - destruct (before st); [apply Hk|reflexivity].
  - destruct (after st); [apply Hk|reflexivity].
Qed.

(** A pattern that begins with a class finds nothing in a text without
    a unit of the class. *)
Lemma search_class_none p r bef aft :
  forallb (fun c => negb (p c)) aft = true ->
  search (RSeq (RChar p) r) bef aft = None.
Proof.
  revert bef. induction aft as [|c t IH]; intros bef H.
  - reflexivity.
  - cbn in H. apply andb_prop in H. destruct H as [Hc Ht].
    cbn [search rmatch after]. apply negb_true_iff in Hc. rewrite Hc.
    apply IH, Ht.
Qed.

Lemma search_cons_skip r bef c t :
  rmatch r (MState bef (c :: t) []) (fun st => Some st) = None ->
  search r bef (c :: t) = search r (c :: bef) t.
Proof. intro H. cbn [search]. rewrite H. reflexivity. Qed.

Lemma matches_from_skip fuel r bef c t :
  rmatch r (MState bef (c :: t) []) (fun st => Some st) = None ->
  matches_from (S fuel) r bef (c :: t) = matches_from (S fuel) r (c :: bef) t.
Proof.
  intro H. cbn [matches_from]. rewrite (search_cons_skip _ _ _ _ H).
  reflexivity.
Qed.

(** ** Replacing the matches of a one-unit class *)

Section ReplaceClass.

Variable p : N -> bool.
Variable f : jsstring -> jsstring.

Let g (c : N) : jsstring := if p c then f [c] else [c].

Lemma rmatch_class_hit bef c t :
  p c = true ->
  rmatch (RChar p) (MState bef (c :: t) []) (fun st => Some st)
  = Some (MState (c :: bef) t []).
Proof. intro H. cbn. rewrite H. reflexivity. Qed.

Lemma rmatch_class_miss bef c t :
  p c = false ->
  rmatch (RChar p) (MState bef (c :: t) []) (fun st => Some st) = None.
Proof. intro H. cbn. rewrite H. reflexivity. Qed.

Lemma interleave_class aft :
  forall fuel bef pos,
    (length aft < fuel)%nat -> (pos <= length bef)%nat ->
    interleave (pieces pos (rev bef ++ aft) (matches_from fuel (RChar p) bef aft))
               (matches_from fuel (RChar p) bef aft) f
    = skipn pos (rev bef) ++ flat_map g aft.
Proof.
  induction aft as [|c t IH]; intros fuel bef pos Hf Hp.
  - destruct fuel as [|fuel]; [cbn in Hf; lia|]. cbn.
    rewrite !app_nil_r. reflexivity.
  - destruct fuel as [|fuel]; [cbn in Hf; lia|]. cbn [length] in Hf.
    destruct (p c) eqn:Hc.
    + cbn [matches_from search]. rewrite (rmatch_class_hit bef c t Hc).
      cbn [m_end m_index before after length].
      replace (length bef <? S (length bef))%nat with true
        by (symmetry; apply Nat.ltb_lt; lia).
      cbn [pieces interleave m_end m_index before].
      assert (Hs : rev bef ++ c :: t = rev (c :: bef) ++ t).
      { cbn [rev]. rewrite <- app_assoc. reflexivity. }
      rewrite Hs at 2.
      change (S (length bef)) with (length (c :: bef)).
      rewrite (IH fuel (c :: bef) (length (c :: bef))); [|lia|lia].
      rewrite <- (length_rev (c :: bef)) at 1. rewrite skipn_all.
      unfold m_text. cbn [m_end m_index before length].
      replace (S (length bef) - length bef)%nat with 1%nat by lia.
      cbn [firstn rev app flat_map]. unfold g at 2. rewrite Hc.
      rewrite skipn_app, firstn_app.
      rewrite length_skipn, length_rev.
      replace (pos - length bef)%nat with 0%nat by lia.
      replace (length bef - pos - (length bef - pos))%nat with 0%nat by lia.
      cbn [skipn firstn]. rewrite app_nil_r.
      rewrite firstn_all2 by (rewrite length_skipn, length_rev; lia).
      reflexivity.
    + rewrite (matches_from_skip fuel (RChar p) bef c t (rmatch_class_miss bef c t Hc)).
      assert (Hs : rev bef ++ c :: t = rev (c :: bef) ++ t).
      { cbn [rev]. rewrite <- app_assoc. reflexivity. }
      rewrite Hs.
      rewrite (IH (S fuel) (c :: bef) pos); [|lia|cbn; lia].
      cbn [rev flat_map]. unfold g at 2. rewrite Hc.
      rewrite skipn_app, length_rev.
      replace (pos - length bef)%nat with 0%nat by lia.
      cbn [skipn]. rewrite <- app_assoc. reflexivity.
Qed.

Lemma replace_global_class s :
  replace_global (RChar p) f s = flat_map g s.
Proof.
  unfold replace_global, all_matches.
  apply (interleave_class s (S (length s)) [] 0); cbn; lia.
Qed.

End ReplaceClass.

Lemma remove_all_class p s :
  V2.remove_all (RChar p) s = filter (fun c => negb (p c)) s.
Proof.
  unfold V2.remove_all. rewrite replace_global_class.
  induction s as [|c t IH]; [reflexivity|].
  cbn [flat_map filter]. rewrite IH. destruct (p c); reflexivity.
Qed.

Lemma replace_unit_map a b s :
  replace_global (RChar (cu_is a)) (fun _ => [b]) s
  = map (fun c => if (c =? a)%N then b else c) s.
Proof.
  rewrite replace_global_class.
  induction s as [|c t IH]; [reflexivity|].
  cbn [flat_map map]. rewrite IH. unfold cu_is.
  destruct (c =? a)%N; reflexivity.
Qed.

(* ===================================================================== *)
(** * The decimal-separator step *)
(* ===================================================================== *)

Lemma rightmost_mark_snoc r x :
  rightmost_mark (r ++ [x]) = if is_mark x then Some x else rightmost_mark r.
Proof.
  unfold rightmost_mark. rewrite filter_app, map_app. cbn [filter].
  destruct (is_mark x); cbn [map].
  - apply last_last.
  - rewrite app_nil_r. reflexivity.
Qed.

Lemma lastIndexOf_lt_length c r : (lastIndexOf c r < Z.of_nat (length r))%Z.
Proof. destruct (lastIndexOf_bounds c r) as [[H _]|[H _]]; lia. Qed.

(** The comparison of the two [lastIndexOf] tells which mark stands
    rightmost. *)
Lemma rightmost_mark_order r :
  match rightmost_mark r with
  | None => lastIndexOf cu_dot r = (-1)%Z /\ lastIndexOf cu_comma r = (-1)%Z
  | Some d =>
      (d = cu_dot /\ (lastIndexOf cu_comma r < lastIndexOf cu_dot r)%Z)
      \/ (d = cu_comma /\ (lastIndexOf cu_dot r < lastIndexOf cu_comma r)%Z)
  end.
Proof.
  induction r as [|x r IH] using rev_ind.
  - cbn. split; reflexivity.
  - rewrite rightmost_mark_snoc, !lastIndexOf_snoc.
    pose proof (lastIndexOf_lt_length cu_dot r) as Hd.
    pose proof (lastIndexOf_lt_length cu_comma r) as Hc.
    unfold is_mark.
    destruct (x =? cu_dot)%N eqn:Ed.
    + apply N.eqb_eq in Ed. subst x. cbn [orb].
      left. split; [reflexivity|]. cbn. lia.
    + destruct (x =? cu_comma)%N eqn:Ec; cbn [orb].
      * apply N.eqb_eq in Ec. subst x.
        right. split; [reflexivity|]. lia.
      * exact IH.
Qed.

Lemma map_filter_ext (f f' : N -> N) (q q' : N -> bool) (r : jsstring) :
  (forall c, In c r -> q c = q' c /\ (q c = true -> f c = f' c)) ->
  map f (filter q r) = map f' (filter q' r).
Proof.
  induction r as [|c t IH]; intro H; [reflexivity|].
  cbn [filter]. destruct (H c (or_introl eq_refl)) as [Hq Hf].
  rewrite <- Hq. destruct (q c).
  - cbn [map]. rewrite Hf by reflexivity. f_equal.
    apply IH. intros d Hd. apply H. right. exact Hd.
  - apply IH. intros d Hd. apply H. right. exact Hd.
Qed.

Lemma not_included c r :
  includes [c] r = false -> forall d, In d r -> (d =? c)%N = false.
Proof.
  rewrite includes_unit. intros H d Hd.
  destruct (d =? c)%N eqn:E; [|reflexivity].
  rewrite <- H. symmetry. apply existsb_exists. exists d. split; assumption.
Qed.

Lemma included_index c r :
  includes [c] r = true <-> (0 <= lastIndexOf c r)%Z.
Proof.
  destruct (lastIndexOf_bounds c r) as [[H H']|[H H']]; rewrite H';
    split; intro; try lia; try reflexivity; discriminate.
Qed.

Lemma not_included_index c r :
  includes [c] r = false <-> lastIndexOf c r = (-1)%Z.
Proof.
  destruct (lastIndexOf_bounds c r) as [[H H']|[H H']]; rewrite H';
    split; intro; try lia; try reflexivity; try assumption; discriminate.
Qed.

Ltac mark_cases c :=
  unfold cu_is, is_mark, cu_dot, cu_comma in *;
  destruct (N.eqb_spec c 46); destruct (N.eqb_spec c 44); subst; cbn;
  split; try reflexivity; try discriminate;
  try (intros _; reflexivity); try congruence.

(** Whatever marks the remainder holds, the three branches of the source
    compute the rule of the rightmost mark. *)
Lemma separators_rightmost r : V2.separators r = rightmost_decimal r.
Proof.
  unfold V2.separators, rightmost_decimal, V2.commaRe, V2.dotRe.
  rewrite !remove_all_class, !replace_unit_map.
  pose proof (rightmost_mark_order r) as Ho.
  destruct (includes [cu_dot] r) eqn:Id; destruct (includes [cu_comma] r) eqn:Ic;
    cbn [andb].
  - apply included_index in Id. apply included_index in Ic.
    destruct (rightmost_mark r) as [d|]; [|lia].
    destruct Ho as [[-> Ho]|[-> Ho]].
    + replace (lastIndexOf cu_comma r <? lastIndexOf cu_dot r)%Z with true
        by (symmetry; apply Z.ltb_lt; exact Ho).
      rewrite <- (map_id (filter _ r)) at 1.
      apply map_filter_ext. intros c _. mark_cases c.
    + replace (lastIndexOf cu_comma r <? lastIndexOf cu_dot r)%Z with false
        by (symmetry; apply Z.ltb_ge; lia).
      apply map_filter_ext. intros c _. mark_cases c.
  - apply included_index in Id. pose proof Ic as Ic'.
    apply not_included_index in Ic.
    destruct (rightmost_mark r) as [d|]; [|lia].
    destruct Ho as [[-> Ho]|[-> Ho]]; [|lia].
    rewrite <- (map_id r) at 1.
    rewrite <- (filter_true r) at 1.
    apply map_filter_ext. intros c Hc.
    pose proof (not_included _ _ Ic' c Hc) as E2.
    unfold is_mark. rewrite E2.
    destruct (c =? cu_dot)%N eqn:E1; cbn; split; try reflexivity; intros _.
    apply N.eqb_eq in E1. exact E1.
  - apply included_index in Ic. pose proof Id as Id'.
    apply not_included_index in Id.
    destruct (rightmost_mark r) as [d|]; [|lia].
    destruct Ho as [[-> Ho]|[-> Ho]]; [lia|].
    rewrite <- (filter_true r) at 1.
    apply map_filter_ext. intros c Hc.
    pose proof (not_included _ _ Id' c Hc) as E1.
    unfold is_mark. rewrite E1.
    destruct (c =? cu_comma)%N eqn:E2; cbn; split; reflexivity.
  - apply not_included_index in Id. apply not_included_index in Ic.
    destruct (rightmost_mark r) as [d|]; [|reflexivity].
    destruct Ho as [[_ Ho]|[_ Ho]]; lia.
Qed.

Lemma parsePriceString_price s :
  V2.price (V2.parsePriceString s) =
  match V2.numeric_remainder s with
  | None => None
  | Some r => number_or_null (parseFloat (V2.separators r))
  end.
Proof.
  unfold V2.parsePriceString, V2.numeric_remainder, number_or_null.
  destruct (V2.detect_currency (trim s)) as [cur np]. cbn [snd].
  destruct (regex_match V2.numberRe np); [|reflexivity].
  destruct (isNaN _); reflexivity.
Qed.

Lemma rightmost_mark_both r :
  includes [cu_dot] r = true -> includes [cu_comma] r = true ->
  (rightmost_mark r = Some cu_dot
   /\ (lastIndexOf cu_comma r < lastIndexOf cu_dot r)%Z)
  \/ (rightmost_mark r = Some cu_comma
      /\ (lastIndexOf cu_dot r < lastIndexOf cu_comma r)%Z).
Proof.
  intros Id Ic. apply included_index in Id. apply included_index in Ic.
  pose proof (rightmost_mark_order r) as Ho.
  destruct (rightmost_mark r) as [d|]; [|lia].
  destruct Ho as [[-> Ho]|[-> Ho]]; [left|right]; split; auto.
Qed.

Lemma digit_is_no_mark c : is_digit c = true -> is_mark c = false.
Proof.
  unfold is_digit, is_mark, cu_dot, cu_comma. intro H.
  apply andb_prop in H. destruct H as [H1 H2].
  apply N.leb_le in H1. apply N.leb_le in H2.
  destruct (N.eqb_spec c 46); destruct (N.eqb_spec c 44); subst;
    try reflexivity; lia.
Qed.

Lemma digit_differs_from_mark c d :
  is_digit c = true -> is_mark d = true -> (c =? d)%N = false.
Proof.
  intros Hc Hd. destruct (N.eqb_spec c d) as [->|]; [|reflexivity].
  rewrite (digit_is_no_mark d Hc) in Hd. discriminate.
Qed.

Lemma rightmost_mark_unique g d f :
  is_mark d = true -> forallb is_digit f = true ->
  rightmost_mark (g ++ d :: f) = Some d.
Proof.
  intros Hd Hf. unfold rightmost_mark.
  rewrite filter_app. cbn [filter]. rewrite Hd.
  assert (E : filter is_mark f = []).
  { induction f as [|c f IH]; [reflexivity|].
    cbn [forallb] in Hf. apply andb_prop in Hf. destruct Hf as [Hc Hf].
    cbn [filter]. rewrite (digit_is_no_mark c Hc). apply IH, Hf. }
  rewrite E, map_app. cbn [map]. apply last_last.
Qed.

Lemma decimal_keeps_digits d f :
  is_mark d = true -> forallb is_digit f = true ->
  map (fun c => if (c =? d)%N then cu_dot else c)
    (filter (fun c => negb (is_mark c) || (c =? d)%N) f) = f.
Proof.
  intros Hd. induction f as [|c f IH]; intro Hf; [reflexivity|].
  cbn [forallb] in Hf. apply andb_prop in Hf. destruct Hf as [Hc Hf].
  cbn [filter]. rewrite (digit_is_no_mark c Hc). cbn [negb orb map].
  rewrite (digit_differs_from_mark c d Hc Hd), (IH Hf). reflexivity.
Qed.

Lemma decimal_drops_other_marks d other g :
  (d = cu_dot /\ other = cu_comma) \/ (d = cu_comma /\ other = cu_dot) ->
  forallb (fun c => is_digit c || (c =? other)%N) g = true ->
  map (fun c => if (c =? d)%N then cu_dot else c)
    (filter (fun c => negb (is_mark c) || (c =? d)%N) g)
  = filter is_digit g.
Proof.
  intros Hm. induction g as [|c g IH]; intro Hg; [reflexivity|].
  cbn [forallb] in Hg. apply andb_prop in Hg. destruct Hg as [Hc Hg].
  cbn [filter]. destruct (is_digit c) eqn:Ed.
  - rewrite (digit_is_no_mark c Ed). cbn [negb orb map].
    rewrite (digit_differs_from_mark c d Ed), (IH Hg); [reflexivity|].
    destruct Hm as [[-> _]|[-> _]]; reflexivity.
  - cbn [orb] in Hc. apply N.eqb_eq in Hc. subst c.
    destruct Hm as [[-> ->]|[-> ->]]; cbn; apply IH, Hg.
Qed.

(** With one decimal mark [d], groups of digits before it and digits
    after it, the separator step leaves the digits, a dot, the digits. *)
Lemma separators_single_decimal g d other f :
  (d = cu_dot /\ other = cu_comma) \/ (d = cu_comma /\ other = cu_dot) ->
  forallb (fun c => is_digit c || (c =? other)%N) g = true ->
  forallb is_digit f = true ->
  V2.separators (g ++ d :: f) = filter is_digit g ++ cu_dot :: f.
Proof.
  intros Hm Hg Hf.
  assert (Hd : is_mark d = true)
    by (destruct Hm as [[-> _]|[-> _]]; reflexivity).
  rewrite separators_rightmost. unfold rightmost_decimal.
  rewrite (rightmost_mark_unique g d f Hd Hf).
  rewrite filter_app, map_app. cbn [filter].
  rewrite Hd, N.eqb_refl. cbn [negb orb map]. rewrite N.eqb_refl.
  rewrite (decimal_drops_other_marks d other g Hm Hg).
  rewrite (decimal_keeps_digits d f Hd Hf). reflexivity.
Qed.

(** C1, as the code has it.  The separators are decided on the numeric
    run of the price string: the first run of digits, dots, commas and
    white space in what is left when the currency sign is taken out, with
    its white space removed.  When the run holds both marks, every mark of
    the kind that stands rightmost in the run is written as a dot, every
    mark of the other kind is deleted, and the price is what [parseFloat]
    reads from that text.  When the run has one decimal mark, with digits
    and marks of the other kind before it and digits after it, that mark
    is the decimal separator: the price is read from the digits before
    it, a dot, and the digits after it.  ["$1,234.56"] gives 1234.56 USD
    and ["1.234,56 EUR"] gives 1234.56 EUR. *)
Theorem separators_decided_on_numeric_run :
  (forall s r,
      V2.numeric_remainder s = Some r ->
      includes [cu_dot] r = true -> includes [cu_comma] r = true ->
      exists d other,
        rightmost_mark r = Some d /\
        ((d = cu_dot /\ other = cu_comma) \/ (d = cu_comma /\ other = cu_dot)) /\
        V2.price (V2.parsePriceString s)
        = number_or_null
            (parseFloat
               (map (fun c => if (c =? d)%N then cu_dot else c)
                  (filter (fun c => negb (c =? other)%N) r))))
  /\ (forall s g d other f,
      (d = cu_dot /\ other = cu_comma) \/ (d = cu_comma /\ other = cu_dot) ->
      V2.numeric_remainder s = Some (g ++ d :: f) ->
      forallb (fun c => is_digit c || (c =? other)%N) g = true ->
      forallb is_digit f = true ->
      V2.price (V2.parsePriceString s)
      = number_or_null (parseFloat (filter is_digit g ++ cu_dot :: f)))
  /\ V2.parsePriceString (lit "$1,234.56")
     = V2.PriceInfo (Some (S754_finite false 5429652300748554 (-42)))
         (Some (lit "USD"))
  /\ V2.parsePriceString (lit "1.234,56 EUR")
     = V2.PriceInfo (Some (S754_finite false 5429652300748554 (-42)))
         (Some (lit "EUR"))
  /\ nearest_to (S754_finite false 5429652300748554 (-42)) 123456 100.
Proof.
  split; [|split; [|split; [|split]]].
  - intros s r Hr Id Ic.
    destruct (rightmost_mark_both r Id Ic) as [[Hm _]|[Hm _]].
    + exists cu_dot, cu_comma. split; [exact Hm|]. split; [left; auto|].
      rewrite parsePriceString_price, Hr, separators_rightmost.
      unfold rightmost_decimal. rewrite Hm. do 2 f_equal.
      apply map_filter_ext. intros c _. mark_cases c.
    + exists cu_comma, cu_dot. split; [exact Hm|]. split; [right; auto|].
      rewrite parsePriceString_price, Hr, separators_rightmost.
      unfold rightmost_decimal. rewrite Hm. do 2 f_equal.
      apply map_filter_ext. intros c _. mark_cases c.
  - intros s g d other f Hm Hr Hg Hf.
    rewrite parsePriceString_price, Hr.
    rewrite (separators_single_decimal g d other f Hm Hg Hf). reflexivity.
  - vm_compute. reflexivity.
  - vm_compute. reflexivity.
  - unfold nearest_to. repeat split; vm_compute; congruence.
Qed.

Lemma separators_decided_on_numeric_run_witness :
  V2.numeric_remainder (lit "1.234,56 EUR")
  = Some (lit "1.234" ++ cu_comma :: lit "56")
  /\ V2.price (V2.parsePriceString (lit "1.234,56 EUR"))
     = number_or_null (parseFloat (lit "1234.56")).
Proof.
  split; [vm_compute; reflexivity|].
  apply (proj1 (proj2 separators_decided_on_numeric_run)
           (lit "1.234,56 EUR") (lit "1.234") cu_comma cu_dot (lit "56")).
  - right. split; reflexivity.
  - vm_compute. reflexivity.
  - vm_compute. reflexivity.
  - vm_compute. reflexivity.
Defined.

(** C1 as stated fails: a dot or a comma of the price string that
    stands outside the digits takes part in the decision, or takes no
    part in it.  In ["Rs. 1,234.50"] both marks occur and the dot stands
    rightmost, so the claim reads 1234.5; the run starts at the dot of
    ["Rs."], [".1,234.50"], and the price is 0.1234.  In
    ["1,234 approx."] the dot stands rightmost too, so the claim deletes
    the comma and reads 1234; the run is ["1,234"], its comma is written
    as a dot, and the price is 1.234. *)
Lemma mark_outside_the_digits :
  (includes [cu_dot] (lit "Rs. 1,234.50") = true
   /\ includes [cu_comma] (lit "Rs. 1,234.50") = true
   /\ rightmost_mark (lit "Rs. 1,234.50") = Some cu_dot
   /\ V2.numeric_remainder (lit "Rs. 1,234.50") = Some (lit ".1,234.50")
   /\ V2.parsePriceString (lit "Rs. 1,234.50")
      = V2.PriceInfo (Some (S754_finite false 8891907104280307 (-56)))
          (Some (lit "USD"))
   /\ nearest_to (S754_finite false 8891907104280307 (-56)) 1234 10000
   /\ parseFloat (lit "1234.50") = S754_finite false 5429388417957888 (-42)
   /\ S754_finite false 8891907104280307 (-56)
      <> S754_finite false 5429388417957888 (-42))
  /\ (includes [cu_dot] (lit "1,234 approx.") = true
      /\ includes [cu_comma] (lit "1,234 approx.") = true
      /\ rightmost_mark (lit "1,234 approx.") = Some cu_dot
      /\ V2.numeric_remainder (lit "1,234 approx.") = Some (lit "1,234")
      /\ V2.parsePriceString (lit "1,234 approx.")
         = V2.PriceInfo (Some (S754_finite false 5557441940175192 (-52)))
             (Some (lit "USD"))
      /\ nearest_to (S754_finite false 5557441940175192 (-52)) 1234 1000
      /\ parseFloat (lit "1234") = S754_finite false 5427189394702336 (-42)
      /\ S754_finite false 5557441940175192 (-52)
         <> S754_finite false 5427189394702336 (-42)).
Proof.
  split; repeat split; try (vm_compute; reflexivity);
    try (vm_compute; congruence); discriminate.
Qed.

(* ===================================================================== *)
(** * The currency-code pattern *)
(* ===================================================================== *)

Lemma rmatch_seq r1 r2 st k :
  rmatch (RSeq r1 r2) st k = rmatch r1 st (fun st1 => rmatch r2 st1 k).
Proof. reflexivity. Qed.

Lemma rmatch_wordb st k :
  rmatch RWordB st k = if at_word_boundary st then k st else None.
Proof. reflexivity. Qed.

Lemma rmatch_group i r st k :
  rmatch (RGroup i r) st k
  = rmatch r st
      (fun st1 => k (MState (before st1) (after st1)
                       ((i, consumed st st1) :: caps st1))).
Proof. reflexivity. Qed.

Lemma rmatch_char p st k :
  rmatch (RChar p) st k
  = match after st with
    | c :: t => if p c then k (advance c t st) else None
    | [] => None
    end.
Proof. reflexivity. Qed.

Lemma rmatch_star r st k :
  rmatch (RStar r) st k = star_loop (rmatch r) k (length (after st)) st.
Proof. reflexivity. Qed.

Lemma rmatch_alt_some r1 r2 st k x :
  rmatch (RAlt r1 r2) st k = Some x ->
  rmatch r1 st k = Some x \/ rmatch r2 st k = Some x.
Proof.
  cbn. destruct (rmatch r1 st k) as [y|].
  - intro H. left. exact H.
  - intro H. right. exact H.
Qed.

Lemma rmatch_word3 a b c st k x :
  rmatch (V2.word_ci [a; b; c]) st k = Some x ->
  exists c1 c2 c3 t,
    after st = c1 :: c2 :: c3 :: t /\
    cu_is_ci a c1 = true /\ cu_is_ci b c2 = true /\ cu_is_ci c c3 = true /\
    k (MState (c3 :: c2 :: c1 :: before st) t (caps st)) = Some x.
Proof.
  cbn. destruct (after st) as [|c1 [|c2 [|c3 t]]]; cbn;
    try discriminate;
    destruct (cu_is_ci a c1) eqn:E1; try discriminate; cbn;
    try (destruct (cu_is_ci b c2) eqn:E2; try discriminate; cbn);
    try (destruct (cu_is_ci c c3) eqn:E3; try discriminate; cbn).
  intro H. exists c1, c2, c3, t. repeat split; assumption.
Qed.

Lemma ci_upper a c :
  (65 <= a <= 90)%N -> cu_is_ci a c = true -> upper_cu c = a.
Proof.
  unfold cu_is_ci, upper_cu. intros Ha H. apply orb_prop in H.
  destruct H as [H|H]; apply N.eqb_eq in H; subst c.
  - replace ((97 <=? a) && (a <=? 122))%N with false; [reflexivity|].
    symmetry. apply andb_false_iff. left. apply N.leb_gt. lia.
  - replace ((97 <=? a + 32) && (a + 32 <=? 122))%N with true; [lia|].
    symmetry. apply andb_true_iff. split; apply N.leb_le; lia.
Qed.

(** A match of the leftmost search is a match of the pattern at some
    position of the text. *)
Lemma search_some r aft :
  forall bef m,
    search r bef aft = Some m ->
    exists pre post,
      aft = pre ++ post /\
      m_index m = (length bef + length pre)%nat /\
      rmatch r (MState (rev pre ++ bef) post []) (fun st => Some st)
      = Some (m_end m).
Proof.
  induction aft as [|c t IH]; intros bef m; cbn [search].
  - destruct (rmatch r (MState bef [] []) _) as [st|] eqn:E; [|discriminate].
    intro H. injection H as <-. exists [], []. cbn. repeat split; auto.
  - destruct (rmatch r (MState bef (c :: t) []) _) as [st|] eqn:E.
    + intro H. injection H as <-. exists [], (c :: t). cbn.
      repeat split; auto.
    + intro H. destruct (IH _ _ H) as (pre & post & -> & Hi & Hm).
      exists (c :: pre), post. cbn [app length rev].
      rewrite <- app_assoc. cbn [app]. repeat split; auto.
      rewrite Hi. cbn. lia.
Qed.

(** What the code pattern captures: three letters that spell, in upper
    case, one of the seven codes. *)
Lemma code_pattern_captures st x :
  rmatch V2.currencyCodeRe st (fun st' => Some st') = Some x ->
  is_code (lookup_cap 1 (caps x)).
Proof.
  unfold V2.currencyCodeRe.
  rewrite rmatch_seq, rmatch_wordb.
  destruct (at_word_boundary st); [|discriminate].
  rewrite rmatch_seq, rmatch_group.
  set (K := fun st1 : mstate => _).
  intros H.
  assert (Hw : forall a b c,
             (65 <= a <= 90)%N -> (65 <= b <= 90)%N -> (65 <= c <= 90)%N ->
             In [a; b; c] currency_codes ->
             rmatch (V2.word_ci [a; b; c]) st K = Some x ->
             is_code (lookup_cap 1 (caps x))).
  { intros a b c Ha Hb Hcc Hin Hm.
    apply rmatch_word3 in Hm.
    destruct Hm as (c1 & c2 & c3 & t & Haft & E1 & E2 & E3 & Hk).
    subst K. cbv beta in Hk. rewrite rmatch_wordb in Hk.
    destruct (at_word_boundary _) in Hk; [|discriminate].
    injection Hk as <-. cbn [caps lookup_cap Nat.eqb before after].
    unfold consumed. cbn [before length].
    replace (S (S (S (length (before st)))) - length (before st))%nat
      with 3%nat by lia.
    cbn [firstn rev app].
    exists c1, c2, c3. split; [reflexivity|].
    unfold toUpperCase. cbn [map].
    rewrite (ci_upper a c1 Ha E1), (ci_upper b c2 Hb E2), (ci_upper c c3 Hcc E3).
    exact Hin. }
  repeat (apply rmatch_alt_some in H; destruct H as [H|H];
          [revert H; apply Hw; [cbn; lia|cbn; lia|cbn; lia|cbn; tauto]|]).
  revert H; apply Hw; [cbn; lia|cbn; lia|cbn; lia|cbn; tauto].
Qed.

Lemma code_match_group s m :
  regex_match V2.currencyCodeRe s = Some m -> is_code (m_group 1 m).
Proof.
  unfold regex_match. intro H.
  destruct (search_some _ _ _ _ H) as (pre & post & _ & _ & Hm).
  unfold m_group. apply (code_pattern_captures _ _ Hm).
Qed.

Lemma detect_currency_code s m :
  regex_match V2.currencyCodeRe s = Some m ->
  fst (V2.detect_currency s) = Some (toUpperCase (m_group 1 m)).
Proof.
  intro H. unfold V2.detect_currency.
  destruct (V2.scan_symbols _ _). rewrite H. reflexivity.
Qed.

Lemma parsePriceString_currency s :
  V2.currency (V2.parsePriceString s) =
  match V2.price (V2.parsePriceString s) with
  | None => fst (V2.detect_currency (trim s))
  | Some _ => Some (V2.or_USD (fst (V2.detect_currency (trim s))))
  end.
Proof.
  unfold V2.parsePriceString.
  destruct (V2.detect_currency (trim s)) as [cur np]. cbn [fst].
  destruct (regex_match V2.numberRe np); [|reflexivity].
  destruct (isNaN _); reflexivity.
Qed.

(** C2, as the code has it.  When the text holds a currency symbol of the
    table and also, as a whole word in any letter case, one of the seven
    codes, the currency reported is the code, in upper case: the code
    pattern is evaluated after the symbol loop and its assignment
    replaces the one of the symbol. *)
Theorem code_overrides_symbol :
  forall s symbol code m,
    In (symbol, code) V2.currencyPatterns ->
    includes symbol (trim s) = true ->
    regex_match V2.currencyCodeRe (trim s) = Some m ->
    In (toUpperCase (m_group 1 m)) currency_codes /\
    V2.currency (V2.parsePriceString s) = Some (toUpperCase (m_group 1 m)).
Proof.
  intros s symbol code m _ _ Hm.
  destruct (code_match_group _ _ Hm) as (c1 & c2 & c3 & Hg & Hin).
  split; [exact Hin|].
  rewrite parsePriceString_currency, (detect_currency_code _ _ Hm).
  destruct (V2.price _); [|reflexivity].
  rewrite Hg. reflexivity.
Qed.

Lemma code_overrides_symbol_witness :
  In ([cu_dollar], lit "USD") V2.currencyPatterns
  /\ includes [cu_dollar] (trim (lit "$100 EUR")) = true
  /\ regex_match V2.currencyCodeRe (trim (lit "$100 EUR"))
     = Some (MatchResult 5
               (MState (rev (lit "$100 EUR")) [] [(1%nat, lit "EUR")]))
  /\ V2.currency (V2.parsePriceString (lit "$100 EUR")) = Some (lit "EUR").
Proof.
  split; [left; reflexivity|].
  split; [vm_compute; reflexivity|].
  split; [vm_compute; reflexivity|].
  apply (code_overrides_symbol (lit "$100 EUR") [cu_dollar] (lit "USD")
           (MatchResult 5 (MState (rev (lit "$100 EUR")) [] [(1%nat, lit "EUR")]))).
  - left; reflexivity.
  - vm_compute; reflexivity.
  - vm_compute; reflexivity.
Defined.

(** C2 as stated fails: a text with the symbol of the dollar and the code
    of the euro is reported in euros. *)
Lemma symbol_does_not_win :
  includes [cu_dollar] (trim (lit "$100 EUR")) = true
  /\ regex_test V2.currencyCodeRe (trim (lit "$100 EUR")) = true
  /\ V2.parsePriceString (lit "$100 EUR")
     = V2.PriceInfo (Some (number_of_N 100)) (Some (lit "EUR"))
  /\ V2.currency (V2.parsePriceString (lit "$100 EUR")) <> Some (lit "USD").
Proof.
  split; [vm_compute; reflexivity|].
  split; [vm_compute; reflexivity|].
  split; [vm_compute; reflexivity|].
  vm_compute. discriminate.
Qed.

(* ===================================================================== *)
(** * What a match consumes *)
(* ===================================================================== *)

(** A successful match hands to its continuation a state further in the
    text; the units in between belong to the classes of the pattern. *)
Lemma star_loop_extends (P : N -> Prop) m1 :
  (forall st k x, m1 st k = Some x ->
     exists st1 t, k st1 = Some x /\ after st = t ++ after st1 /\
                   before st1 = rev t ++ before st /\ Forall P t) ->
  forall fuel st k x,
    star_loop m1 k fuel st = Some x ->
    exists st1 t, k st1 = Some x /\ after st = t ++ after st1 /\
                  before st1 = rev t ++ before st /\ Forall P t.
Proof.
  intros Hm. induction fuel as [|f IH]; intros st k x; cbn [star_loop].
  - intro H. exists st, []. cbn. auto.
  - destruct (m1 st _) as [y|] eqn:E.
    + intro H. injection H as ->. apply Hm in E.
      destruct E as (st1 & t & Hk & Ha & Hb & Ht).
      destruct (Nat.ltb _ _) in Hk; [|discriminate].
      apply IH in Hk. destruct Hk as (st2 & t2 & Hk2 & Ha2 & Hb2 & Ht2).
      exists st2, (t ++ t2). split; [exact Hk2|].
      split; [rewrite Ha, Ha2, app_assoc; reflexivity|].
      split; [rewrite Hb2, Hb, rev_app_distr, app_assoc; reflexivity|].
      apply Forall_app. split; assumption.
    + intro H. exists st, []. cbn. auto.
Qed.

Lemma rmatch_extends (P : N -> Prop) r :
  within P r ->
  forall st k x,
    rmatch r st k = Some x ->
    exists st1 t, k st1 = Some x /\ after st = t ++ after st1 /\
                  before st1 = rev t ++ before st /\ Forall P t.
Proof.
  induction r as [|p|r1 IH1 r2 IH2|r1 IH1 r2 IH2|r1 IH1|i r1 IH1| | |];
    cbn [within]; intros Hw st k x.
  - cbn. intro H. exists st, []. cbn. auto.
  - rewrite rmatch_char. destruct (after st) as [|c t] eqn:Ea; [discriminate|].
    destruct (p c) eqn:Ep; [|discriminate].
    intro H. exists (advance c t st), [c]. cbn.
    repeat split; auto.
  - destruct Hw as [H1 H2]. rewrite rmatch_seq. intro H.
    apply (IH1 H1) in H. destruct H as (st1 & t1 & Hk & Ha & Hb & Ht).
    apply (IH2 H2) in Hk. destruct Hk as (st2 & t2 & Hk2 & Ha2 & Hb2 & Ht2).
    exists st2, (t1 ++ t2). split; [exact Hk2|].
    split; [rewrite Ha, Ha2, app_assoc; reflexivity|].
    split; [rewrite Hb2, Hb, rev_app_distr, app_assoc; reflexivity|].
    apply Forall_app. split; assumption.
  - destruct Hw as [H1 H2]. intro H. apply rmatch_alt_some in H.
    destruct H as [H|H]; [apply (IH1 H1) in H|apply (IH2 H2) in H]; exact H.
  - rewrite rmatch_star. apply star_loop_extends. apply IH1, Hw.
  - rewrite rmatch_group. intro H. apply (IH1 Hw) in H.
    destruct H as (st1 & t & Hk & Ha & Hb & Ht).
    eexists _, t. split; [exact Hk|]. cbn. auto.
  - rewrite rmatch_wordb. destruct (at_word_boundary st); [|discriminate].
    intro H. exists st, []. cbn. auto.
  - cbn. destruct (before st) eqn:E; [|discriminate].
    intro H. exists st, []. cbn. auto.
  - cbn. destruct (after st) eqn:E; [|discriminate].
    intro H. exists st, []. cbn. auto.
Qed.

(** The text of a match is a segment of the searched text, made of units
    of the classes of the pattern. *)
Lemma search_text (P : N -> Prop) r bef aft m :
  within P r ->
  search r bef aft = Some m ->
  exists pre rest,
    aft = pre ++ m_text m ++ rest /\
    m_index m = (length bef + length pre)%nat /\
    before (m_end m) = rev (m_text m) ++ rev pre ++ bef /\
    after (m_end m) = rest /\
    Forall P (m_text m) /\
    rmatch r (MState (rev pre ++ bef) (m_text m ++ rest) [])
      (fun st => Some st) = Some (m_end m).
Proof.
  intros Hw H. apply search_some in H.
  destruct H as (pre & post & -> & Hi & Hm).
  pose proof Hm as Hm'.
  apply (rmatch_extends P r Hw) in Hm.
  destruct Hm as (st1 & t & Hk & Ha & Hb & Ht).
  injection Hk as ->. cbn [after before] in Ha, Hb.
  assert (Ht' : m_text m = t).
  { unfold m_text. rewrite Hb, Hi, !length_app, !length_rev.
    replace (length t + (length pre + length bef) - (length bef + length pre))%nat
      with (length (rev t)) by (rewrite length_rev; lia).
    rewrite firstn_app, firstn_all, Nat.sub_diag. cbn [firstn].
    rewrite app_nil_r. apply rev_involutive. }
  exists pre, (after (m_end m)). rewrite Ht'.
  split; [rewrite Ha; reflexivity|].
  split; [exact Hi|]. split; [exact Hb|]. split; [reflexivity|].
  split; [exact Ht|]. rewrite <- Ha. exact Hm'.
Qed.

(* ===================================================================== *)
(** * Texts that keep a property of their units *)
(* ===================================================================== *)

Section Keeps.

Variable Q : N -> Prop.

Lemma trimStart_keeps s : Forall Q s -> Forall Q (trimStart s).
Proof.
  induction 1 as [|c t Hc Ht IH]; cbn; [constructor|].
  destruct (is_space c); [exact IH|constructor; assumption].
Qed.

Lemma trim_keeps s : Forall Q s -> Forall Q (trim s).
Proof.
  intro H. unfold trim, trimEnd.
  apply Forall_rev, trimStart_keeps, Forall_rev, trimStart_keeps, H.
Qed.

Lemma skipn_keeps n s : Forall Q s -> Forall Q (skipn n s).
Proof.
  intro H. rewrite <- (firstn_skipn n s) in H.
  apply Forall_app in H. apply H.
Qed.

Lemma firstn_keeps n s : Forall Q s -> Forall Q (firstn n s).
Proof.
  intro H. rewrite <- (firstn_skipn n s) in H.
  apply Forall_app in H. apply H.
Qed.

Lemma replaceFirst_keeps p s : Forall Q s -> Forall Q (replaceFirst p [] s).
Proof.
  induction 1 as [|c t Hc Ht IH]; cbn [replaceFirst].
  - destruct (startsWith p []); cbn; [apply skipn_keeps|]; constructor.
  - destruct (startsWith p (c :: t)).
    + cbn [app]. apply skipn_keeps. constructor; assumption.
    + constructor; assumption.
Qed.

Lemma pieces_keep s ms :
  Forall Q s -> forall pos, Forall Q (interleave (pieces pos s ms) ms (fun _ => [])).
Proof.
  intro H. induction ms as [|m ms IH]; intro pos; cbn.
  - apply skipn_keeps, H.
  - apply Forall_app. split; [apply firstn_keeps, skipn_keeps, H|apply IH].
Qed.

Lemma remove_all_keeps r s : Forall Q s -> Forall Q (V2.remove_all r s).
Proof. intro H. apply pieces_keep, H. Qed.

Lemma scan_symbols_keeps ps s :
  Forall Q s -> Forall Q (snd (V2.scan_symbols ps s)).
Proof.
  intro H. induction ps as [|[sym code] ps IH]; cbn; [exact H|].
  destruct (includes sym s); [|exact IH].
  cbn. apply trim_keeps, replaceFirst_keeps, H.
Qed.

Lemma detect_currency_keeps s :
  Forall Q s -> Forall Q (snd (V2.detect_currency s)).
Proof.
  intro H. unfold V2.detect_currency.
  pose proof (scan_symbols_keeps V2.currencyPatterns s H) as Hs.
  destruct (V2.scan_symbols _ _) as [cur np]. cbn [snd] in Hs.
  destruct (regex_match _ _); cbn [snd]; [|exact Hs].
  apply trim_keeps, replaceFirst_keeps, H.
Qed.

End Keeps.

Lemma Forall_and_keeps (P Q : N -> Prop) s :
  Forall P s -> Forall Q s -> Forall (fun c => P c /\ Q c) s.
Proof.
  induction 1 as [|c t Hc Ht IH]; intro HQ; [constructor|].
  inversion HQ; subst. constructor; auto.
Qed.

(* ===================================================================== *)
(** * Texts without a number *)
(* ===================================================================== *)

Lemma space_not_digit c : is_space c = true -> is_digit c = false.
Proof.
  intro H. destruct (is_digit c) eqn:E; [|reflexivity].
  unfold is_digit in E. apply andb_prop in E. destruct E as [E1 E2].
  apply N.leb_le in E1. apply N.leb_le in E2.
  assert (Hc : (c = 48 \/ c = 49 \/ c = 50 \/ c = 51 \/ c = 52 \/ c = 53
                \/ c = 54 \/ c = 55 \/ c = 56 \/ c = 57)%N) by lia.
  repeat (destruct Hc as [Hc|Hc]; [subst c; discriminate H|]).
  subst c. discriminate H.
Qed.

Lemma dot_or_space_not_digit c : dot_or_space c -> is_digit c = false.
Proof.
  intros [->|H]; [reflexivity|apply space_not_digit, H].
Qed.

Lemma span_digits_none u :
  match u with [] => True | c :: _ => is_digit c = false end ->
  span_digits u = ([], u).
Proof. destruct u as [|c t]; cbn; [reflexivity|]. intros ->. reflexivity. Qed.

Lemma trimStart_head t :
  trimStart t = [] \/
  exists c u, trimStart t = c :: u /\ is_space c = false.
Proof.
  induction t as [|c t IH]; cbn; [left; reflexivity|].
  destruct (is_space c) eqn:E; [exact IH|].
  right. exists c, t. split; [reflexivity|exact E].
Qed.

(** [parseFloat] finds no number in dots and white space. *)
Lemma parseFloat_dots t : Forall dot_or_space t -> parseFloat t = NaN.
Proof.
  intro H. apply (trimStart_keeps dot_or_space) in H.
  unfold parseFloat.
  destruct (trimStart_head t) as [E|(c & u & E & Hc)]; rewrite E in *;
    [reflexivity|].
  apply Forall_cons_iff in H. destruct H as [Hd Hu].
  destruct Hd as [->|Hs]; [|congruence].
  cbn -[span_digits].
  rewrite span_digits_none by reflexivity.
  rewrite span_digits_none; [reflexivity|].
  destruct u as [|d u]; [exact I|].
  apply Forall_cons_iff in Hu. apply dot_or_space_not_digit, Hu.
Qed.

Lemma rightmost_mark_none r :
  rightmost_mark r = None -> Forall (fun c => is_mark c = false) r.
Proof.
  induction r as [|x r IH] using rev_ind; [constructor|].
  rewrite rightmost_mark_snoc. destruct (is_mark x) eqn:E; [discriminate|].
  intro H. apply Forall_app. split; [apply IH, H|].
  constructor; [exact E|constructor].
Qed.

Lemma mark_or_space_cases c :
  mark_or_space c -> is_mark c = false -> is_space c = true.
Proof.
  unfold mark_or_space, V2.is_number_unit, is_mark. intros [Hn Hd] Hm.
  rewrite Hd in Hn. apply orb_false_iff in Hm. destruct Hm as [H1 H2].
  rewrite H1, H2 in Hn. exact Hn.
Qed.

Lemma rightmost_decimal_dots r :
  Forall mark_or_space r -> Forall dot_or_space (rightmost_decimal r).
Proof.
  intro H. unfold rightmost_decimal.
  destruct (rightmost_mark r) as [d|] eqn:E.
  - apply Forall_forall. intros x Hx. apply in_map_iff in Hx.
    destruct Hx as (c & <- & Hc). apply filter_In in Hc.
    destruct Hc as [Hin Hq].
    destruct (c =? d)%N eqn:Ed; [left; reflexivity|].
    rewrite orb_false_r in Hq. apply negb_true_iff in Hq.
    right. apply mark_or_space_cases; [|exact Hq].
    rewrite Forall_forall in H. apply H, Hin.
  - apply rightmost_mark_none in E. rewrite Forall_forall in *.
    intros c Hc. right. apply mark_or_space_cases; auto.
Qed.

Lemma numberRe_within :
  within (fun c => V2.is_number_unit c = true) V2.numberRe.
Proof. cbn. split; auto. Qed.

(** The numeric remainder is made of units of the number class that
    stand in the text. *)
Lemma numeric_remainder_units (Q : N -> Prop) s r :
  Forall Q s ->
  V2.numeric_remainder s = Some r ->
  Forall (fun c => V2.is_number_unit c = true /\ Q c) r.
Proof.
  intros HQ. unfold V2.numeric_remainder, regex_match.
  destruct (search V2.numberRe [] _) as [m|] eqn:E; [|discriminate].
  intro H. injection H as <-.
  apply remove_all_keeps, trim_keeps.
  destruct (search_text _ _ _ _ _ numberRe_within E)
    as (pre & rest & Hs & _ & _ & _ & HP & _).
  apply Forall_and_keeps; [exact HP|].
  pose proof (detect_currency_keeps Q _ (trim_keeps Q _ HQ)) as Hk.
  rewrite Hs in Hk. apply Forall_app in Hk. destruct Hk as [_ Hk].
  apply Forall_app in Hk. apply Hk.
Qed.

Lemma no_digit_unparseable s :
  Forall (fun c => is_digit c = false) s -> unparseable s.
Proof.
  intro H. unfold unparseable.
  destruct (V2.numeric_remainder s) as [r|] eqn:E; [|exact I].
  apply (numeric_remainder_units _ _ _ H) in E.
  rewrite separators_rightmost, parseFloat_dots; [reflexivity|].
  apply rightmost_decimal_dots, E.
Qed.

Lemma price_null_iff s :
  V2.price (V2.parsePriceString s) = None <-> unparseable s.
Proof.
  rewrite parsePriceString_price. unfold unparseable, number_or_null.
  destruct (V2.numeric_remainder s) as [r|]; [|tauto].
  destruct (isNaN _); split; intro; try reflexivity; discriminate.
Qed.

(** ** The pattern of the first scraper *)

Lemma priceRe_needs_unit s :
  forallb (fun c => negb (V1.is_price_unit c)) s = true ->
  regex_match V1.priceRe s = None.
Proof.
  intro H. unfold regex_match.
  destruct (search V1.priceRe [] s) as [m|] eqn:E; [exfalso|reflexivity].
  apply search_some in E. destruct E as (pre & post & -> & _ & Hm).
  unfold V1.priceRe in Hm. rewrite rmatch_seq in Hm.
  apply (rmatch_extends (fun _ => True)) in Hm; [|cbn; auto].
  destruct Hm as (st1 & t & Hk & Ha & _ & _).
  unfold RPlus in Hk. rewrite rmatch_group, rmatch_seq, rmatch_char in Hk.
  cbn [after] in Ha.
  destruct (after st1) as [|c u]; [discriminate|].
  destruct (V1.is_price_unit c) eqn:Ec; [|discriminate].
  rewrite forallb_forall in H.
  assert (Hin : In c (pre ++ post)).
  { rewrite Ha. apply in_or_app. right. apply in_or_app. right. left.
    reflexivity. }
  apply H in Hin. rewrite Ec in Hin. discriminate.
Qed.

Lemma extractPrice_no_unit s :
  forallb (fun c => negb (V1.is_price_unit c)) s = true ->
  V1.extractPrice s = (num_zero, lit "USD").
Proof.
  intro H. unfold V1.extractPrice. rewrite (priceRe_needs_unit s H).
  reflexivity.
Qed.

(** C3, as the code has it.  The normalizer [parsePriceString] answers
    with a null price exactly when the numeric remainder cannot be parsed
    as a number, and every text without a digit is such a text (the empty
    string and ["abc"] among them); the older [extractPrice] answers the
    price 0 in US dollars for a text without a digit, comma or dot. *)
Theorem unparseable_price :
  (forall s, unparseable s -> V2.price (V2.parsePriceString s) = None)
  /\ (forall s, V2.price (V2.parsePriceString s) = None -> unparseable s)
  /\ (forall s, Forall (fun c => is_digit c = false) s -> unparseable s)
  /\ V2.parsePriceString [] = V2.PriceInfo None None
  /\ V2.parsePriceString (lit "abc") = V2.PriceInfo None None
  /\ (forall s, forallb (fun c => negb (V1.is_price_unit c)) s = true ->
                V1.extractPrice s = (num_zero, lit "USD")).
Proof.
  split; [intros s; apply price_null_iff|].
  split; [intros s; apply price_null_iff|].
  split; [exact no_digit_unparseable|].
  split; [vm_compute; reflexivity|].
  split; [vm_compute; reflexivity|].
  exact extractPrice_no_unit.
Qed.

Lemma unparseable_price_witness :
  unparseable (lit "n/a")
  /\ V2.price (V2.parsePriceString (lit "n/a")) = None
  /\ V1.extractPrice (lit "n/a") = (num_zero, lit "USD").
Proof.
  assert (H : unparseable (lit "n/a")).
  { apply (proj1 (proj2 (proj2 unparseable_price)) (lit "n/a")).
    repeat constructor. }
  split; [exact H|].
  split.
  - apply (proj1 unparseable_price (lit "n/a") H).
  - apply (proj2 (proj2 (proj2 (proj2 (proj2 unparseable_price))))
             (lit "n/a")).
    vm_compute. reflexivity.
Defined.

(** C3 as stated fails for the first scraper: [extractPrice] answers the
    text ["abc"], which holds no number, with a numeric price. *)
Lemma extractPrice_invents_a_price :
  unparseable (lit "abc")
  /\ regex_match V1.priceRe (lit "abc") = None
  /\ V1.extractPrice (lit "abc") = (num_zero, lit "USD")
  /\ isNaN (fst (V1.extractPrice (lit "abc"))) = false.
Proof.
  split; [apply no_digit_unparseable; repeat constructor|].
  split; [vm_compute; reflexivity|].
  split; vm_compute; reflexivity.
Qed.

(* ===================================================================== *)
(** * Candidate extraction *)
(* ===================================================================== *)

(** The free-text fallback only answers with a positive price. *)
Lemma first_significant_positive ms r :
  V2.first_significant ms = Some r ->
  exists p, V2.price r = Some p /\ num_gt p num_zero = true.
Proof.
  induction ms as [|m ms IH]; cbn [V2.first_significant]; [discriminate|].
  destruct (V2.price (V2.parsePriceString m)) as [p|] eqn:E; [|exact IH].
  destruct (num_gt p num_zero) eqn:G; [|exact IH].
  intro H. injection H as <-. exists p. split; assumption.
Qed.

Lemma extractPriceFromText_positive text r :
  V2.extractPriceFromText text = Some r ->
  exists p, V2.price r = Some p /\ num_gt p num_zero = true.
Proof.
  unfold V2.extractPriceFromText.
  destruct (match_global _ _); [apply first_significant_positive|discriminate].
Qed.

(** The selector loop answers with the first selector whose first element
    normalizes to a price, whatever the price. *)
Lemma try_selectors_first doc sels r :
  V2.try_selectors doc sels = Some r ->
  exists before_ sel after_ text p c,
    sels = before_ ++ sel :: after_ /\
    V2.first_text doc sel = Some text /\
    V2.parsePriceString (trim text) = V2.PriceInfo (Some p) (Some c) /\
    r = V2.PriceInfo (Some p) (Some c) /\
    V2.try_selectors doc before_ = None.
Proof.
  induction sels as [|sel sels IH]; cbn [V2.try_selectors]; [discriminate|].
  assert (Hskip : V2.try_selectors doc sels = Some r ->
                  V2.try_selectors doc [sel] = None ->
                  exists before_ sel0 after_ text p c,
                    sel :: sels = before_ ++ sel0 :: after_ /\
                    V2.first_text doc sel0 = Some text /\
                    V2.parsePriceString (trim text)
                    = V2.PriceInfo (Some p) (Some c) /\
                    r = V2.PriceInfo (Some p) (Some c) /\
                    V2.try_selectors doc before_ = None).
  { intros H Hn. destruct (IH H) as (b & s0 & a & t & p & c & -> & H1 & H2 & H3 & H4).
    exists (sel :: b), s0, a, t, p, c. repeat split; auto.
    cbn [V2.try_selectors] in *.
    destruct (V2.first_text doc sel); [|exact H4].
    destruct (V2.price _); [|exact H4].
    destruct (V2.currency _); [discriminate|exact H4]. }
  destruct (V2.first_text doc sel) as [text|] eqn:Et.
  - destruct (V2.parsePriceString (trim text)) as [[p|] [c|]] eqn:Ep;
      cbn [V2.price V2.currency].
    + intro H. injection H as <-.
      exists [], sel, sels, text, p, c. repeat split; auto.
    + intro H. apply Hskip; [exact H|]. cbn. rewrite Et, Ep. reflexivity.
    + intro H. apply Hskip; [exact H|]. cbn. rewrite Et, Ep. reflexivity.
    + intro H. apply Hskip; [exact H|]. cbn. rewrite Et, Ep. reflexivity.
  - intro H. apply Hskip; [exact H|]. cbn. rewrite Et. reflexivity.
Qed.

(** C4 at the failing input.  The first element with [data-price] reads
    ["0"]: the selector loop accepts it with the price 0, although the
    body text holds a positive price that the fallback would accept. *)
Theorem selector_accepts_price_zero :
  V2.first_text zero_price_doc V2.SelDataPrice = Some (lit "0")
  /\ V2.parsePriceString (lit "0")
     = V2.PriceInfo (Some num_zero) (Some (lit "USD"))
  /\ num_gt num_zero num_zero = false
  /\ V2.extractPriceInfo zero_price_doc
     = V2.PriceInfo (Some num_zero) (Some (lit "USD"))
  /\ V2.extractPriceFromText (V2.body_text zero_price_doc)
     = Some (V2.PriceInfo (Some (decimal_number false 995 (-1)))
               (Some (lit "USD"))).
Proof. repeat split; vm_compute; reflexivity. Qed.

(* ===================================================================== *)
(** * Retry *)
(* ===================================================================== *)

Section RetryV2.

Variable W : Type.
Variable h : V2.host W.
Variable config : V2.ScraperConfig.
Variable calls : W -> nat.
Variable T : Type.
Variable fn : M W T.
Variable name : jsstring.

Hypothesis Hquiet : quiet2 h calls.
Hypothesis Hcount : counted calls fn.

Lemma backoff_quiet attempt w :
  calls (snd (V2.calculateBackoffDelay h config attempt w)) = calls w.
Proof.
  unfold V2.calculateBackoffDelay.
  destruct Hquiet as (_ & _ & Hr). specialize (Hr w).
  destruct (V2.random h w) as [r w1]. exact Hr.
Qed.

(** One failed attempt inside the loop: the world before the next turn
    has the same count as after the failure. *)
Lemma withRetry_loop_step remaining attempt lastError w e w1 :
  fn w = (Throw e, w1) ->
  exists w2,
    V2.withRetry_loop h config fn name (S remaining) attempt lastError w
    = V2.withRetry_loop h config fn name remaining (attempt + 1) (Some e) w2
    /\ calls w2 = S (calls w).
Proof.
  intro E. cbn [V2.withRetry_loop]. rewrite E.
  eexists. split; [reflexivity|].
  pose proof (Hcount w) as Hc. rewrite E in Hc. cbn [snd] in Hc.
  destruct Hquiet as (Hl & Hs & _).
  destruct (attempt <? _)%Z.
  - pose proof (backoff_quiet attempt w1) as Hb.
    destruct (V2.calculateBackoffDelay h config attempt w1) as [d wd].
    cbn [snd] in Hb. rewrite Hs, Hl, Hb. exact Hc.
  - rewrite Hl. exact Hc.
Qed.

Lemma withRetry_loop_success v target :
  (forall w, (calls w < target)%nat -> exists e, fst (fn w) = Throw e) ->
  (forall w, calls w = target -> fst (fn w) = Ok v) ->
  forall j w remaining attempt lastError,
    (calls w + j = target)%nat -> (j < remaining)%nat ->
    fst (V2.withRetry_loop h config fn name remaining attempt lastError w) = Ok v
    /\ calls (snd (V2.withRetry_loop h config fn name remaining attempt
                     lastError w)) = S target.
Proof.
  intros Hfail Hok. induction j as [|j IH]; intros w remaining attempt le Hj Hr.
  - destruct remaining as [|remaining]; [lia|].
    cbn [V2.withRetry_loop].
    pose proof (Hok w ltac:(lia)) as H1. pose proof (Hcount w) as H2.
    destruct (fn w) as [r w1]. cbn [fst snd] in *. subst r.
    cbn [fst snd]. split; [reflexivity|lia].
  - destruct remaining as [|remaining]; [lia|].
    destruct (Hfail w ltac:(lia)) as [e He].
    destruct (fn w) as [r w1] eqn:E. cbn [fst] in He. subst r.
    destruct (withRetry_loop_step remaining attempt le w e w1 E) as (w2 & -> & Hc).
    apply IH; lia.
Qed.

Lemma withRetry_loop_exhausted :
  always_fails fn ->
  forall remaining w attempt lastError,
    (exists e, fst (V2.withRetry_loop h config fn name remaining attempt
                      lastError w) = Throw e)
    /\ calls (snd (V2.withRetry_loop h config fn name remaining attempt
                     lastError w)) = (calls w + remaining)%nat.
Proof.
  intros Hfail. induction remaining as [|remaining IH]; intros w attempt le.
  - cbn. split; [eexists; reflexivity|lia].
  - destruct (Hfail w) as [e He].
    destruct (fn w) as [r w1] eqn:E. cbn [fst] in He. subst r.
    destruct (withRetry_loop_step remaining attempt le w e w1 E) as (w2 & -> & Hc).
    destruct (IH w2 (attempt + 1)%Z (Some e)) as [H1 H2].
    split; [exact H1|]. rewrite H2. lia.
Qed.

End RetryV2.

Section RetryV1.

Variable W : Type.
Variable h : V1.host W.
Variable config : V1.ScraperConfig.
Variable calls : W -> nat.
Variable T : Type.
Variable operation : M W T.
Variable name : jsstring.

Hypothesis Hquiet : quiet1 h calls.
Hypothesis Hcount : counted calls operation.

Lemma retryOperation_loop_step remaining attempt lastError w e w1 :
  operation w = (Throw e, w1) ->
  exists w2,
    V1.retryOperation_loop h config operation name (S remaining) attempt
      lastError w
    = V1.retryOperation_loop h config operation name remaining (attempt + 1)
        (Some e) w2
    /\ calls w2 = S (calls w).
Proof.
  intro E. cbn [V1.retryOperation_loop]. rewrite E.
  eexists. split; [reflexivity|].
  pose proof (Hcount w) as Hc. rewrite E in Hc. cbn [snd] in Hc.
  destruct Hquiet as (Hl & Hs).
  destruct (attempt <? _)%Z.
  - rewrite Hs, Hl. exact Hc.
  - rewrite Hl. exact Hc.
Qed.

Lemma retryOperation_loop_success v target :
  (forall w, (calls w < target)%nat -> exists e, fst (operation w) = Throw e) ->
  (forall w, calls w = target -> fst (operation w) = Ok v) ->
  forall j w remaining attempt lastError,
    (calls w + j = target)%nat -> (j < remaining)%nat ->
    fst (V1.retryOperation_loop h config operation name remaining attempt
           lastError w) = Ok v
    /\ calls (snd (V1.retryOperation_loop h config operation name remaining
                     attempt lastError w)) = S target.
Proof.
  intros Hfail Hok. induction j as [|j IH]; intros w remaining attempt le Hj Hr.
  - destruct remaining as [|remaining]; [lia|].
    cbn [V1.retryOperation_loop].
    pose proof (Hok w ltac:(lia)) as H1. pose proof (Hcount w) as H2.
    destruct (operation w) as [r w1]. cbn [fst snd] in *. subst r.
    cbn [fst snd]. split; [reflexivity|lia].
  - destruct remaining as [|remaining]; [lia|].
    destruct (Hfail w ltac:(lia)) as [e He].
    destruct (operation w) as [r w1] eqn:E. cbn [fst] in He. subst r.
    destruct (retryOperation_loop_step remaining attempt le w e w1 E)
      as (w2 & -> & Hc).
    apply IH; lia.
Qed.

Lemma retryOperation_loop_exhausted :
  always_fails operation ->
  forall remaining w attempt lastError,
    (exists e, fst (V1.retryOperation_loop h config operation name remaining
                      attempt lastError w) = Throw e)
    /\ calls (snd (V1.retryOperation_loop h config operation name remaining
                     attempt lastError w)) = (calls w + remaining)%nat.
Proof.
  intros Hfail. induction remaining as [|remaining IH]; intros w attempt le.
  - cbn. split; [eexists; reflexivity|lia].
  - destruct (Hfail w) as [e He].
    destruct (operation w) as [r w1] eqn:E. cbn [fst] in He. subst r.
    destruct (retryOperation_loop_step remaining attempt le w e w1 E)
      as (w2 & -> & Hc).
    destruct (IH w2 (attempt + 1)%Z (Some e)) as [H1 H2].
    split; [exact H1|]. rewrite H2. lia.
Qed.

End RetryV1.

(** C5, as the code has it.  With a count of the invocations that the
    pauses and the log leave alone: an operation that fails [k] times and
    then succeeds is invoked [k + 1] times and its value is returned,
    provided [k] is below [retryAttempts] for [retryOperation], and at
    most [maxRetries] for [withRetry]; an operation that always fails is
    invoked [retryAttempts] times by [retryOperation] and [maxRetries + 1]
    times by [withRetry], which then throw. *)
Theorem retry_invocations :
  (forall W (h : V1.host W) config calls T (operation : M W T) name w0 k v,
      quiet1 h calls -> counted calls operation ->
      fails_k_times_then calls operation (calls w0) k v ->
      (Z.of_nat k < V1.retryAttempts config)%Z ->
      fst (V1.retryOperation h config operation name w0) = Ok v
      /\ calls (snd (V1.retryOperation h config operation name w0))
         = (calls w0 + (k + 1))%nat)
  /\ (forall W (h : V1.host W) config calls T (operation : M W T) name w0,
      quiet1 h calls -> counted calls operation -> always_fails operation ->
      (exists e, fst (V1.retryOperation h config operation name w0) = Throw e)
      /\ calls (snd (V1.retryOperation h config operation name w0))
         = (calls w0 + Z.to_nat (V1.retryAttempts config))%nat)
  /\ (forall W (h : V2.host W) config calls T (fn : M W T) name w0 k v,
      quiet2 h calls -> counted calls fn ->
      fails_k_times_then calls fn (calls w0) k v ->
      (Z.of_nat k <= V2.maxRetries config)%Z ->
      fst (V2.withRetry h config fn name w0) = Ok v
      /\ calls (snd (V2.withRetry h config fn name w0))
         = (calls w0 + (k + 1))%nat)
  /\ (forall W (h : V2.host W) config calls T (fn : M W T) name w0,
      quiet2 h calls -> counted calls fn -> always_fails fn ->
      (exists e, fst (V2.withRetry h config fn name w0) = Throw e)
      /\ calls (snd (V2.withRetry h config fn name w0))
         = (calls w0 + Z.to_nat (V2.maxRetries config + 1))%nat).
Proof.
  split; [|split; [|split]].
  - intros W h config calls T operation name w0 k v Hq Hc [Hf Ho] Hk.
    unfold V1.retryOperation.
    destruct (retryOperation_loop_success W h config calls T operation name
                Hq Hc v (calls w0 + k)%nat Hf Ho k w0
                (Z.to_nat (V1.retryAttempts config)) 1%Z None)
      as [H1 H2]; [lia|lia|].
    split; [exact H1|]. rewrite H2. lia.
  - intros W h config calls T operation name w0 Hq Hc Hf.
    unfold V1.retryOperation.
    apply (retryOperation_loop_exhausted W h config calls T operation name
             Hq Hc Hf).
  - intros W h config calls T fn name w0 k v Hq Hc [Hf Ho] Hk.
    unfold V2.withRetry. cbn [V2.retryConfig_of V2.rc_maxRetries].
    destruct (withRetry_loop_success W h config calls T fn name
                Hq Hc v (calls w0 + k)%nat Hf Ho k w0
                (Z.to_nat (V2.maxRetries config + 1)) 0%Z None)
      as [H1 H2]; [lia|lia|].
    split; [exact H1|]. rewrite H2. lia.
  - intros W h config calls T fn name w0 Hq Hc Hf.
    unfold V2.withRetry. cbn [V2.retryConfig_of V2.rc_maxRetries].
    apply (withRetry_loop_exhausted W h config calls T fn name Hq Hc Hf).
Qed.

Lemma counting_host1_quiet : quiet1 counting_host1 (fun n => n).
Proof. split; intros; reflexivity. Qed.

Lemma counting_host_quiet : quiet2 counting_host (fun n => n).
Proof. repeat split; intros; reflexivity. Qed.

Lemma scripted_counted T (script : nat -> result T) :
  counted (fun n => n) (scripted script).
Proof. intro w. reflexivity. Qed.

Lemma fails_then_script T k (v : T) :
  fails_k_times_then (fun n => n) (scripted (fails_then k v)) 0 k v.
Proof.
  split; intros w Hw; cbn [fst scripted]; unfold fails_then.
  - destruct (Nat.ltb_spec w k); [eexists; reflexivity|lia].
  - destruct (Nat.ltb_spec w k); [lia|reflexivity].
Qed.

Lemma timeout_always_fails T :
  always_fails (scripted (fun _ => Throw (lit "timeout")) : M nat T).
Proof. intro w. eexists. reflexivity. Qed.

Lemma retry_invocations_witness :
  (fst (V1.retryOperation counting_host1 (config1_with_attempts 3)
          (scripted (fails_then 2 tt)) (lit "op") 0%nat) = Ok tt
   /\ snd (V1.retryOperation counting_host1 (config1_with_attempts 3)
             (scripted (fails_then 2 tt)) (lit "op") 0%nat) = 3%nat)
  /\ ((exists e,
         fst (V1.retryOperation counting_host1 (config1_with_attempts 3)
                (scripted (fun _ => Throw (lit "timeout")) : M nat unit)
                (lit "op") 0%nat) = Throw e)
      /\ snd (V1.retryOperation counting_host1 (config1_with_attempts 3)
                (scripted (fun _ => Throw (lit "timeout")) : M nat unit)
                (lit "op") 0%nat) = 3%nat)
  /\ (fst (V2.withRetry counting_host (config_with_retries 3)
             (scripted (fails_then 3 tt)) (lit "op") 0%nat) = Ok tt
      /\ snd (V2.withRetry counting_host (config_with_retries 3)
                (scripted (fails_then 3 tt)) (lit "op") 0%nat) = 4%nat)
  /\ ((exists e,
         fst (V2.withRetry counting_host (config_with_retries 3)
                (scripted (fun _ => Throw (lit "timeout")) : M nat unit)
                (lit "op") 0%nat) = Throw e)
      /\ snd (V2.withRetry counting_host (config_with_retries 3)
                (scripted (fun _ => Throw (lit "timeout")) : M nat unit)
                (lit "op") 0%nat) = 4%nat).
Proof.
  split; [|split; [|split]].
  - apply (proj1 retry_invocations nat counting_host1
             (config1_with_attempts 3) (fun n => n) unit
             (scripted (fails_then 2 tt)) (lit "op") 0%nat 2%nat tt).
    + exact counting_host1_quiet.
    + apply scripted_counted.
    + apply fails_then_script.
    + cbn. lia.
  - apply (proj1 (proj2 retry_invocations) nat counting_host1
             (config1_with_attempts 3) (fun n => n) unit
             (scripted (fun _ => Throw (lit "timeout"))) (lit "op") 0%nat).
    + exact counting_host1_quiet.
    + apply scripted_counted.
    + apply timeout_always_fails.
  - apply (proj1 (proj2 (proj2 retry_invocations)) nat counting_host
             (config_with_retries 3) (fun n => n) unit
             (scripted (fails_then 3 tt)) (lit "op") 0%nat 3%nat tt).
    + exact counting_host_quiet.
    + apply scripted_counted.
    + apply fails_then_script.
    + cbn. lia.
  - apply (proj2 (proj2 (proj2 retry_invocations)) nat counting_host
             (config_with_retries 3) (fun n => n) unit
             (scripted (fun _ => Throw (lit "timeout"))) (lit "op") 0%nat).
    + exact counting_host_quiet.
    + apply scripted_counted.
    + apply timeout_always_fails.
Defined.

(** C5 as stated fails for [withRetry]: with the bound 3 an operation that
    always fails is invoked four times. *)
Lemma withRetry_one_more_invocation :
  V2.rc_maxRetries (V2.retryConfig_of (config_with_retries 3)) = 3%Z
  /\ always_fails (scripted (fun _ => Throw (lit "timeout")) : M nat unit)
  /\ V2.withRetry counting_host (config_with_retries 3)
       (scripted (fun _ => Throw (lit "timeout")) : M nat unit)
       (lit "op") 0%nat
     = (Throw (lit "timeout"), 4%nat)
  /\ 4%nat <> 3%nat.
Proof.
  split; [reflexivity|]. split; [apply timeout_always_fails|].
  split; [vm_compute; reflexivity|discriminate].
Qed.

(* ===================================================================== *)
(** * Batch search *)
(* ===================================================================== *)

Lemma searchHotels_loop_outcomes W (h : V2.host W) search ids :
  forall results errors w,
    fst (V2.searchHotels_loop h search ids results errors w)
    = (results ++ successes (batch_outcomes h search ids w),
       errors ++ failures (batch_outcomes h search ids w)).
Proof.
  induction ids as [|hotelId rest IH]; intros results errors w;
    cbn [V2.searchHotels_loop batch_outcomes].
  - cbn. rewrite !app_nil_r. reflexivity.
  - destruct (search hotelId w) as [[r|e] w1]; rewrite IH;
      cbn [successes failures]; rewrite <- !app_assoc; reflexivity.
Qed.

Lemma batch_outcomes_ids W (h : V2.host W) search ids :
  forall w, map fst (batch_outcomes h search ids w) = ids.
Proof.
  induction ids as [|hotelId rest IH]; intro w; cbn [batch_outcomes];
    [reflexivity|].
  destruct (search hotelId w) as [[r|e] w1]; cbn [map fst]; rewrite IH;
    reflexivity.
Qed.










(* ===================================================================== *)
(** * Saving a price *)
(* ===================================================================== *)

Lemma saveHotelPrice_initialized W (h : Db.host W) st obs w :
  exists st' w', Db.saveHotelPrice h (Some st) obs w = (Ok tt, Some st', w').
Proof.
  unfold Db.saveHotelPrice.
  destruct (Db.date_now h w) as [now w1].
  destruct (Db.insert_price h st _ obs w1) as [[st'|e] w2];
    eexists _, _; reflexivity.
Qed.

Lemma save_all_initialized W (hd : Db.host W) results :
  forall st w,
    exists st' w', Routes.save_all hd (Some st) results w = (Ok tt, Some st', w').
Proof.
  induction results as [|r rest IH]; intros st w; cbn [Routes.save_all].
  - eexists _, _. reflexivity.
  - destruct (saveHotelPrice_initialized W hd st
                (Routes.observation_of r (V1.hotelId r)) w) as (st1 & w1 & ->).
    apply IH.
Qed.

(** C10.  On an initialised database [saveHotelPrice] returns normally
    for every observation.  When the insert fails, the error is only
    logged as a warning and the table is left as it was, and the call
    returns all the same; so the loop of the search route over its
    results completes whether or not the rows were written. *)
Theorem saveHotelPrice_swallows_insert_failure :
  (forall W (h : Db.host W) st obs w,
      exists st' w',
        Db.saveHotelPrice h (Some st) obs w = (Ok tt, Some st', w'))
  /\ (forall W (h : Db.host W) st obs w now w0 e w1,
      Db.date_now h w = (now, w0) ->
      Db.insert_price h st (lit "price_" ++ Z_digits now) obs w0
      = (Throw e, w1) ->
      Db.saveHotelPrice h (Some st) obs w
      = (Ok tt, Some st,
         Db.console h Warn (lit "Failed to save hotel price: " ++ e) w1))
  /\ (forall W (hd : Db.host W) results st w,
      exists st' w',
        Routes.save_all hd (Some st) results w = (Ok tt, Some st', w')).
Proof.
  split; [exact saveHotelPrice_initialized|].
  split; [|exact save_all_initialized].
  intros W h st obs w now w0 e w1 Hn Hi.
  unfold Db.saveHotelPrice. rewrite Hn, Hi. reflexivity.
Qed.

Lemma saveHotelPrice_swallows_insert_failure_witness :
  Db.date_now faulty_driver tt = (1703500000000%Z, tt)
  /\ Db.insert_price faulty_driver sample_store
       (lit "price_" ++ Z_digits 1703500000000)
       (Routes.observation_of
          {| V1.hotelId := lit "2490015"; V1.hotelName := lit "Voco Makkah";
             V1.price := number_of_N 250; V1.currency := lit "USD";
             V1.checkIn := lit "2024-12-25"; V1.checkOut := lit "2024-12-26";
             V1.rating := None; V1.image := None; V1.url := [] |}
          (lit "2490015")) tt
     = (Throw (lit "SQLITE_BUSY: database is locked"), tt)
  /\ Db.saveHotelPrice faulty_driver (Some sample_store)
       (Routes.observation_of
          {| V1.hotelId := lit "2490015"; V1.hotelName := lit "Voco Makkah";
             V1.price := number_of_N 250; V1.currency := lit "USD";
             V1.checkIn := lit "2024-12-25"; V1.checkOut := lit "2024-12-26";
             V1.rating := None; V1.image := None; V1.url := [] |}
          (lit "2490015")) tt
     = (Ok tt, Some sample_store,
        Db.console faulty_driver Warn
          (lit "Failed to save hotel price: "
           ++ lit "SQLITE_BUSY: database is locked") tt).
Proof.
  split; [reflexivity|]. split; [reflexivity|].
  apply (proj1 (proj2 saveHotelPrice_swallows_insert_failure) unit
           faulty_driver sample_store _ tt 1703500000000%Z tt
           (lit "SQLITE_BUSY: database is locked") tt); reflexivity.
Defined.

(** On a database that was never initialised the guard at the head of
    [saveHotelPrice] throws before any insert is tried. *)
Lemma saveHotelPrice_not_initialized W (h : Db.host W) obs w :
  Db.saveHotelPrice h None obs w = (Throw Db.not_initialized, None, w).
Proof. reflexivity. Qed.

(* ===================================================================== *)
(** * Comparison *)
(* ===================================================================== *)

Lemma jseqb_eq a b : jseqb a b = true <-> a = b.
Proof.
  unfold jseqb. destruct (list_eq_dec N.eq_dec a b); split; intro H;
    try reflexivity; try assumption; try discriminate. contradiction.
Qed.

Lemma insert_from_right_length A (cmp : A -> A -> number) x l :
  length (insert_from_right cmp x l) = S (length l).
Proof.
  induction l as [|y t IH]; cbn; [reflexivity|].
  destruct (negative _); cbn; [rewrite IH|]; reflexivity.
Qed.

Lemma js_sort_length A (cmp : A -> A -> number) l :
  length (js_sort cmp l) = length l.
Proof.
  unfold js_sort. rewrite length_rev.
  assert (H : forall acc,
             length (fold_left (fun acc x => insert_from_right cmp x acc) l acc)
             = (length l + length acc)%nat).
  { induction l as [|x t IH]; intro acc; cbn [fold_left length];
      [reflexivity|].
    rewrite IH, insert_from_right_length. lia. }
  rewrite H. cbn. lia.
Qed.

Lemma order_insert_In r x l : In x (Db.order_insert r l) <-> x = r \/ In x l.
Proof.
  induction l as [|y t IH]; cbn; [intuition auto|].
  destruct (Db.order_le r y); cbn; [intuition auto|].
  rewrite IH. intuition auto.
Qed.

Lemma order_by_In x rows : In x (Db.order_by rows) <-> In x rows.
Proof.
  induction rows as [|r rows IH]; cbn; [tauto|].
  rewrite order_insert_In, IH. intuition auto.
Qed.

Lemma has_key k comparison :
  existsb (fun kv : jsstring * Db.entry => jseqb (fst kv) k) comparison = true
  <-> In k (map fst comparison).
Proof.
  rewrite existsb_exists, in_map_iff. split.
  - intros (kv & Hin & He). apply jseqb_eq in He. exists kv. auto.
  - intros (kv & He & Hin). exists kv. split; [exact Hin|].
    apply jseqb_eq. exact He.
Qed.

Lemma fill_comparison_keys rows :
  forall comparison,
    NoDup (map fst comparison) ->
    NoDup (map fst (Db.fill_comparison rows comparison))
    /\ (forall k, In k (map fst (Db.fill_comparison rows comparison))
                  <-> In k (map fst comparison) \/ In k (map row_key rows)).
Proof.
  induction rows as [|r rows IH]; intros comparison Hn;
    cbn [Db.fill_comparison map].
  - split; [exact Hn|]. intro k. cbn. tauto.
  - destruct (existsb _ comparison) eqn:E.
    + destruct (IH comparison Hn) as [H1 H2]. split; [exact H1|].
      intro k. rewrite H2. apply has_key in E. cbn [In].
      unfold row_key at 2. intuition (subst; auto).
    + assert (Hn' : NoDup (map fst (comparison
                                     ++ [(Db.id (Db.row_hotel r), Db.entry_of r)]))).
      { rewrite map_app. cbn [map fst].
        apply NoDup_app; [exact Hn|repeat constructor; cbn; tauto|].
        intros k Hk [<-|[]]. apply has_key in Hk. congruence. }
      destruct (IH _ Hn') as [H1 H2]. split; [exact H1|].
      intro k. rewrite H2, map_app, in_app_iff. cbn [map fst In].
      unfold row_key at 2. tauto.
Qed.

Lemma left_join_keys st filter_ k :
  In k (map row_key
          (filter (fun r => match filter_ with
                            | Some (ci, co) => Db.where_dates ci co r
                            | None => true
                            end)
             (Db.left_join st)))
  <-> In k (map Db.id
              (filter (fun x => match filter_ with
                                | Some _ => observed st filter_ x
                                | None => true
                                end)
                 (Db.hotels st))).
Proof.
  rewrite !in_map_iff. unfold Db.left_join. split.
  - intros (r & <- & Hr). apply filter_In in Hr. destruct Hr as [Hr Hw].
    apply in_flat_map in Hr. destruct Hr as (x & Hx & Hr).
    assert (Hrx : Db.row_hotel r = x /\
                  match Db.row_price r with
                  | Some p => In p (Db.hotel_prices st)
                              /\ jseqb (Db.hotelId x) (Db.p_hotelId p) = true
                  | None => True
                  end).
    { destruct (filter _ (Db.hotel_prices st)) as [|p0 ps] eqn:Ef.
      - destruct Hr as [<-|[]]. cbn. auto.
      - rewrite <- Ef in Hr. apply in_map_iff in Hr.
        destruct Hr as (p & <- & Hp). apply filter_In in Hp. cbn. auto. }
    destruct Hrx as [<- Hp]. exists (Db.row_hotel r). split; [reflexivity|].
    apply filter_In. split; [exact Hx|].
    destruct filter_ as [[ci co]|]; [|reflexivity].
    unfold Db.where_dates in Hw. unfold observed.
    destruct (Db.row_price r) as [p|]; [|discriminate].
    apply existsb_exists. exists p. destruct Hp as [Hp1 Hp2].
    split; [exact Hp1|]. rewrite Hp2, Hw. reflexivity.
  - intros (x & <- & Hx). apply filter_In in Hx. destruct Hx as [Hx Ho].
    destruct filter_ as [[ci co]|].
    + unfold observed in Ho. apply existsb_exists in Ho.
      destruct Ho as (p & Hp & Hm). apply andb_prop in Hm.
      destruct Hm as [Hm1 Hm2].
      exists (Db.Row x (Some p)). split; [reflexivity|].
      apply filter_In. split; [|exact Hm2].
      apply in_flat_map. exists x. split; [exact Hx|].
      assert (Hin : In p (filter (fun p0 => jseqb (Db.hotelId x) (Db.p_hotelId p0))
                            (Db.hotel_prices st)))
        by (apply filter_In; auto).
      destruct (filter _ (Db.hotel_prices st)) as [|p0 ps] eqn:Ef;
        [destruct Hin|].
      apply (in_map (fun p1 => Db.Row x (Some p1))). exact Hin.
    + destruct (filter (fun p0 => jseqb (Db.hotelId x) (Db.p_hotelId p0))
                  (Db.hotel_prices st)) as [|p0 ps] eqn:Ef.
      * exists (Db.Row x None). split; [reflexivity|].
        apply filter_In. split; [|reflexivity].
        apply in_flat_map. exists x. split; [exact Hx|].
        rewrite Ef. left. reflexivity.
      * exists (Db.Row x (Some p0)). split; [reflexivity|].
        apply filter_In. split; [|reflexivity].
        apply in_flat_map. exists x. split; [exact Hx|].
        rewrite Ef. left. reflexivity.
Qed.

Lemma NoDup_filter_map (f : Db.Hotel -> jsstring) q l :
  NoDup (map f l) -> NoDup (map f (filter q l)).
Proof.
  induction l as [|x l IH]; cbn; [auto|].
  intro H. apply NoDup_cons_iff in H. destruct H as [Hx Hl].
  destruct (q x); cbn; [|auto].
  constructor; [|auto]. intro Hin. apply Hx.
  apply in_map_iff in Hin. destruct Hin as (y & Hy & Hin).
  apply filter_In in Hin. apply in_map_iff. exists y. tauto.
Qed.

(** The comparison lists one entry for each hotel that has an
    observation for the dates of the filter, and one for every hotel when
    there is no filter. *)
Lemma compare_rows_length st checkInDate checkOutDate :
  NoDup (map Db.id (Db.hotels st)) ->
  length (Db.compare_rows st checkInDate checkOutDate)
  = length
      (filter (fun x =>
                 match Db.date_filter checkInDate checkOutDate with
                 | Some f => observed st (Some f) x
                 | None => true
                 end)
         (Db.hotels st)).
Proof.
  intro Hn. unfold Db.compare_rows, Db.query_rows.
  rewrite js_sort_length, length_map.
  set (flt := Db.date_filter checkInDate checkOutDate).
  set (rows := Db.order_by _).
  destruct (fill_comparison_keys rows [] ltac:(constructor)) as [H1 H2].
  rewrite <- (length_map fst).
  rewrite <- (length_map Db.id (filter _ (Db.hotels st))).
  assert (Hk : forall k,
             In k (map fst (Db.fill_comparison rows []))
             <-> In k (map Db.id
                         (filter (fun x => match flt with
                                           | Some f => observed st (Some f) x
                                           | None => true
                                           end) (Db.hotels st)))).
  { intro k. rewrite H2. cbn [map In].
    assert (Hr : In k (map row_key rows)
                 <-> In k (map row_key
                             (filter (fun r => match flt with
                                               | Some (ci, co) =>
                                                   Db.where_dates ci co r
                                               | None => true
                                               end) (Db.left_join st)))).
    { unfold rows. rewrite !in_map_iff.
      split; intros (r & Hr1 & Hr2); exists r; (split; [exact Hr1|]).
      - apply (proj1 (order_by_In _ _)) in Hr2.
        destruct flt as [[ci co]|]; [exact Hr2|].
        apply filter_In. split; [exact Hr2|reflexivity].
      - apply (proj2 (order_by_In _ _)).
        destruct flt as [[ci co]|]; [exact Hr2|].
        apply filter_In in Hr2. apply Hr2. }
    rewrite Hr, (left_join_keys st flt k).
    destruct flt as [[ci co]|]; tauto. }
  apply Nat.le_antisymm; apply NoDup_incl_length;
    try exact H1; try (apply NoDup_filter_map; exact Hn);
    intros k Hin; apply Hk; exact Hin.
Qed.

(** C7 at the failing input.  One hotel without any price and a date
    filter: the [WHERE] clause on the joined prices drops the row of the
    hotel, and the comparison is empty; without the filter the hotel is
    listed, with a null price. *)
Theorem date_filter_drops_hotels :
  Db.hotels sample_store = [sample_hotel]
  /\ Db.hotel_prices sample_store = []
  /\ Db.comparePrices sample_driver (Some sample_store)
       (Some (lit "2024-12-25")) (Some (lit "2024-12-26")) tt
     = (Ok [], tt)
  /\ length (Db.compare_rows sample_store
               (Some (lit "2024-12-25")) (Some (lit "2024-12-26")))
     <> length (Db.hotels sample_store)
  /\ map Db.latestPrice (Db.compare_rows sample_store None None) = [None].
Proof.
  split; [reflexivity|]. split; [reflexivity|].
  split; [vm_compute; reflexivity|].
  split; [vm_compute; discriminate|vm_compute; reflexivity].
Qed.

(* ===================================================================== *)
(** * The date range and the store *)
(* ===================================================================== *)

(** The batch route leaves the store as it was when the dates do not
    pass the checks of [searchMultipleHotels]. *)
Lemma post_search_rejects_range W (hs : V1.host W) (hd : Db.host W)
  a hotelName checkInDate checkOutDate w :
  match Routes.truthy checkInDate, Routes.truthy checkOutDate with
  | Some ci, Some co => valid_range hs ci co = false
  | _, _ => True
  end ->
  Routes.db (snd (fst (Routes.post_search hs hd a hotelName
                         checkInDate checkOutDate w))) = Routes.db a.
Proof.
  unfold Routes.post_search, valid_range.
  destruct (Routes.truthy checkInDate) as [ci|]; [|reflexivity].
  destruct (Routes.truthy checkOutDate) as [co|]; [|reflexivity].
  intro Hv.
  destruct (Routes.ensure_initialized hs (Routes.scraper a) w)
    as [[[u|e] s1] w1]; [|reflexivity].
  unfold V1.searchMultipleHotels.
  destruct (negb (V1.page s1)); [reflexivity|].
  destruct (match Routes.truthy hotelName with
            | Some n => [n]
            | None => map snd Routes.PREDEFINED_HOTELS
            end) as [|n names]; [reflexivity|].
  destruct (V1.isValidDateFormat hs ci); [|reflexivity].
  destruct (V1.isValidDateFormat hs co); [|reflexivity].
  cbn [negb orb andb] in *.
  destruct (V1.date_ge hs ci co); [reflexivity|discriminate].
Qed.

(** The route that scrapes one hotel has no check of the dates of its
    own.  Had the database of the module been initialised, a request for
    a stay that ends the day before it starts, for a hotel that is known
    and whose page shows a card, would be answered 200 and leave a row
    with the reversed dates in the table; the batch route, asked for the
    same dates, answers 500 and writes nothing. *)
Lemma post_scrape_has_no_date_check :
  V1.date_ge sample_site (lit "2024-12-26") (lit "2024-12-25") = true
  /\ (exists result row,
        Routes.post_scrape sample_site sample_driver sample_app
          (lit "hotel_2490015")
          (Some (lit "2024-12-26")) (Some (lit "2024-12-25")) tt
        = (Routes.ScrapeOk (Some result),
           Routes.App (Some (Db.Store [sample_hotel] [row]))
             (V1.Scraper true true), tt)
        /\ Db.checkInDate row = lit "2024-12-26"
        /\ Db.checkOutDate row = lit "2024-12-25")
  /\ Routes.post_search sample_site sample_driver sample_app
       (Some (lit "M Hotel Al Dana Makkah by Millennium"))
       (Some (lit "2024-12-26")) (Some (lit "2024-12-25")) tt
     = (Routes.ServerError (lit "Failed to search hotels")
          (lit "Check-in date must be before check-out date"),
        sample_app, tt).
Proof.
  split; [vm_compute; reflexivity|].
  split; [|vm_compute; reflexivity].
  eexists _, _. split; [vm_compute; reflexivity|].
  split; reflexivity.
Qed.

(* ===================================================================== *)
(** * Reading back a price written with two decimals *)
(* ===================================================================== *)

(** ** The notation of [toFixed(2)] *)

Lemma uint_units_digits u : forallb is_digit (uint_units u) = true.
Proof. induction u; cbn; auto. Qed.

Lemma N_digits_digits n : forallb is_digit (N_digits n) = true.
Proof. apply uint_units_digits. Qed.

Lemma N_digits_nonempty n : N_digits n <> [].
Proof.
  unfold N_digits. destruct n as [|p]; [discriminate|]. cbn [N.to_uint].
  pose proof (Unsigned.to_uint_nonnil p) as H.
  destruct (Pos.to_uint p); [congruence| | | | | | | | | |]; discriminate.
Qed.

Lemma small_digit x : (x < 10)%N -> is_digit (48 + x) = true.
Proof.
  intro H. unfold is_digit. apply andb_true_iff.
  split; apply N.leb_le; lia.
Qed.

Lemma toFixed2_plain x : fixed_range x = true -> plain_fixed2 (toFixed2 x).
Proof.
  destruct x as [s| | |s m e]; cbn [fixed_range]; try discriminate.
  - intros _. exists [48%N], 48%N, 48%N. repeat split; discriminate.
  - destruct s; [discriminate|]. intro H. apply negb_true_iff in H.
    cbn [toFixed2]. rewrite H. cbn [app].
    eexists _, _, _. split; [reflexivity|].
    split; [apply N_digits_nonempty|]. split; [apply N_digits_digits|].
    split; apply small_digit.
    + apply N.Div0.div_lt_upper_bound. apply N.mod_lt. discriminate.
    + apply N.mod_lt. discriminate.
Qed.

(** ** Texts that hold no letter and no symbol *)

Lemma trimStart_id s :
  match s with [] => True | a :: _ => is_space a = false end ->
  trimStart s = s.
Proof. destruct s as [|a t]; cbn; [reflexivity|]. intros ->. reflexivity. Qed.

Lemma trim_id s :
  match s with [] => True | a :: _ => is_space a = false end ->
  match rev s with [] => True | z :: _ => is_space z = false end ->
  trim s = s.
Proof.
  intros H1 H2. unfold trim, trimEnd.
  rewrite (trimStart_id s H1), (trimStart_id (rev s) H2).
  apply rev_involutive.
Qed.

Lemma no_unit_includes c s :
  Forall (fun d => d <> c) s -> includes [c] s = false.
Proof.
  intro H. rewrite includes_unit.
  induction H as [|d t Hd Ht IH]; cbn; [reflexivity|].
  rewrite IH. apply N.eqb_neq in Hd. rewrite Hd. reflexivity.
Qed.

Lemma scan_symbols_none s :
  Forall (fun d => (d < 128)%N /\ d <> cu_dollar) s ->
  V2.scan_symbols V2.currencyPatterns s = (None, s).
Proof.
  intro H. unfold V2.currencyPatterns. cbn [V2.scan_symbols].
  rewrite !no_unit_includes; [reflexivity| | | | |];
    (eapply Forall_impl; [|exact H]); cbv beta;
    unfold cu_rupee, cu_yen, cu_pound, cu_euro, cu_dollar; intros d [H1 H2];
    try exact H2; lia.
Qed.

(** ** The code pattern on a text that ends with a code *)

Lemma word_ci_miss a w st k ch rest :
  after st = ch :: rest -> cu_is_ci a ch = false ->
  rmatch (V2.word_ci (a :: w)) st k = None.
Proof.
  intros Ha Hc. destruct w as [|b w]; cbn [V2.word_ci].
  - rewrite rmatch_char, Ha, Hc. reflexivity.
  - rewrite rmatch_seq, rmatch_char, Ha, Hc. reflexivity.
Qed.

Lemma word_ci_hit a b c st k x y z rest :
  after st = x :: y :: z :: rest ->
  cu_is_ci a x = true -> cu_is_ci b y = true -> cu_is_ci c z = true ->
  rmatch (V2.word_ci [a; b; c]) st k
  = k (MState (z :: y :: x :: before st) rest (caps st)).
Proof.
  intros Ha H1 H2 H3. cbn [V2.word_ci].
  rewrite rmatch_seq, rmatch_char, Ha, H1.
  rewrite rmatch_seq, rmatch_char. cbn [after advance]. rewrite H2.
  rewrite rmatch_char. cbn [after advance before caps]. rewrite H3.
  reflexivity.
Qed.

Lemma rmatch_alt_skip r1 r2 st k :
  rmatch r1 st k = None -> rmatch (RAlt r1 r2) st k = rmatch r2 st k.
Proof. intro H. cbn [rmatch]. rewrite H. reflexivity. Qed.

Lemma rmatch_alt_take r1 r2 st k x :
  rmatch r1 st k = Some x -> rmatch (RAlt r1 r2) st k = Some x.
Proof. intro H. cbn [rmatch]. rewrite H. reflexivity. Qed.

Lemma ci_miss_below L ch : (ch < 65)%N -> (65 <= L)%N -> cu_is_ci L ch = false.
Proof.
  intros H HL. unfold cu_is_ci. apply orb_false_iff.
  split; apply N.eqb_neq; lia.
Qed.

Lemma code_re_miss bef ch rest :
  (ch < 65)%N ->
  rmatch V2.currencyCodeRe (MState bef (ch :: rest) []) (fun st => Some st)
  = None.
Proof.
  intro H. unfold V2.currencyCodeRe. rewrite rmatch_seq, rmatch_wordb.
  destruct (at_word_boundary _); [|reflexivity].
  rewrite rmatch_seq, rmatch_group.
  repeat (rewrite rmatch_alt_skip;
          [|eapply word_ci_miss with (ch := ch) (rest := rest);
            [reflexivity|apply ci_miss_below; [exact H|cbn; lia]]]).
  eapply word_ci_miss with (ch := ch) (rest := rest);
    [reflexivity|apply ci_miss_below; [exact H|cbn; lia]].
Qed.

Lemma search_code_skip pre :
  Forall (fun ch => (ch < 65)%N) pre ->
  forall bef rest,
    search V2.currencyCodeRe bef (pre ++ rest)
    = search V2.currencyCodeRe (rev pre ++ bef) rest.
Proof.
  induction 1 as [|ch pre Hc Hp IH]; intros bef rest; [reflexivity|].
  cbn [app rev]. rewrite search_cons_skip by (apply code_re_miss, Hc).
  rewrite IH, <- app_assoc. reflexivity.
Qed.

Lemma consumed3 st x y z rest cs :
  consumed st (MState (z :: y :: x :: before st) rest cs) = [x; y; z].
Proof.
  unfold consumed. cbn [before length].
  replace (S (S (S (length (before st)))) - length (before st))%nat
    with 3%nat by lia.
  reflexivity.
Qed.

Ltac eval_lits :=
  repeat match goal with
         | |- context [lit ?s] =>
             let v := eval vm_compute in (lit s) in change (lit s) with v
         end.

Ltac code_hit :=
  eval_lits;
  match goal with
  | |- context [at_word_boundary ?s] => change (at_word_boundary s) with true
  end;
  cbv iota;
  repeat (rewrite rmatch_alt_skip by (eapply word_ci_miss; reflexivity));
  try (apply rmatch_alt_take);
  erewrite word_ci_hit by reflexivity;
  rewrite consumed3, rmatch_wordb;
  reflexivity.

Lemma code_re_hit b c :
  In c currency_codes ->
  rmatch V2.currencyCodeRe (MState (cu_space :: b) c []) (fun st => Some st)
  = Some (MState (rev c ++ cu_space :: b) [] [(1%nat, c)]).
Proof.
  intro Hin. unfold V2.currencyCodeRe.
  rewrite rmatch_seq, rmatch_wordb, rmatch_seq, rmatch_group.
  cbn [currency_codes In] in Hin.
  destruct Hin as [<-|[<-|[<-|[<-|[<-|[<-|[<-|[]]]]]]]]; code_hit.
Qed.

Lemma search_hit r bef aft st :
  rmatch r (MState bef aft []) (fun st' => Some st') = Some st ->
  search r bef aft = Some (MatchResult (length bef) st).
Proof. intro H. destruct aft; cbn [search]; rewrite H; reflexivity. Qed.

Lemma code_found t c :
  Forall (fun ch => (ch < 65)%N) t -> In c currency_codes ->
  regex_match V2.currencyCodeRe (t ++ cu_space :: c)
  = Some (MatchResult (length (cu_space :: rev t))
            (MState (rev c ++ cu_space :: rev t) [] [(1%nat, c)])).
Proof.
  intros Ht Hc. unfold regex_match.
  change (t ++ cu_space :: c) with (t ++ [cu_space] ++ c).
  rewrite app_assoc, search_code_skip.
  - rewrite rev_app_distr, app_nil_r. cbn [rev app].
    apply search_hit, code_re_hit, Hc.
  - apply Forall_app. split; [exact Ht|].
    constructor; [reflexivity|constructor].
Qed.

Lemma startsWith_refl p s : startsWith p (p ++ s) = true.
Proof.
  induction p as [|a p IH]; cbn; [reflexivity|].
  rewrite N.eqb_refl, IH. reflexivity.
Qed.

Lemma replaceFirst_skip p0 p pre rest :
  Forall (fun ch => ch <> p0) pre ->
  replaceFirst (p0 :: p) [] (pre ++ rest)
  = pre ++ replaceFirst (p0 :: p) [] rest.
Proof.
  induction 1 as [|ch pre Hc Hp IH]; [reflexivity|].
  cbn [app]. cbn [replaceFirst startsWith].
  replace (p0 =? ch)%N with false
    by (symmetry; apply N.eqb_neq; congruence).
  cbn [andb]. rewrite IH. reflexivity.
Qed.

Lemma replaceFirst_self p : replaceFirst p [] p = [].
Proof.
  destruct p as [|a p]; [reflexivity|].
  cbn [replaceFirst]. rewrite <- (app_nil_r (a :: p)) at 2.
  rewrite startsWith_refl. cbn [app]. apply skipn_all.
Qed.

(** ** The number pattern on digits and dots *)

Lemma star_class_all p t :
  forall fuel b cs,
    (length t <= fuel)%nat ->
    forallb p t = true ->
    star_loop (rmatch (RChar p)) (fun st => Some st) fuel (MState b t cs)
    = Some (MState (rev t ++ b) [] cs).
Proof.
  induction t as [|c t IH]; intros fuel b cs Hf Hp.
  - destruct fuel; reflexivity.
  - destruct fuel as [|fuel]; [cbn in Hf; lia|].
    cbn in Hp. apply andb_prop in Hp. destruct Hp as [Hc Ht].
    cbn [star_loop]. rewrite rmatch_char. cbn [after]. rewrite Hc.
    cbn [advance after before caps length].
    replace (length t <? S (length t))%nat with true
      by (symmetry; apply Nat.ltb_lt; lia).
    unfold advance. cbn [before caps].
    rewrite IH; [|cbn in Hf; lia|exact Ht].
    cbn [rev]. rewrite <- app_assoc. reflexivity.
Qed.

Lemma plus_class_found p a t :
  forallb p (a :: t) = true ->
  regex_match (RPlus (RChar p)) (a :: t)
  = Some (MatchResult 0 (MState (rev (a :: t)) [] [])).
Proof.
  intro H. unfold regex_match. apply search_hit.
  unfold RPlus. rewrite rmatch_seq, rmatch_char. cbn [after].
  pose proof H as H'. cbn in H'. apply andb_prop in H'.
  destruct H' as [Ha Ht]. rewrite Ha. rewrite rmatch_star.
  unfold advance. cbn [after before caps].
  rewrite star_class_all; [|lia|exact Ht].
  cbn [rev]. reflexivity.
Qed.

Lemma remove_all_no_match p r s :
  forallb (fun c => negb (p c)) s = true ->
  V2.remove_all (RSeq (RChar p) r) s = s.
Proof.
  intro H. unfold V2.remove_all, replace_global, all_matches.
  cbn [matches_from]. rewrite search_class_none by exact H.
  reflexivity.
Qed.

(** ** The units of the plain notation *)

Lemma plain_unit_facts ch :
  plain_unit ch ->
  (ch < 65)%N /\ ch <> cu_dollar /\ ch <> cu_comma
  /\ V2.is_number_unit ch = true /\ is_space ch = false.
Proof.
  intros [H| ->].
  - pose proof H as Hd. unfold is_digit in H. apply andb_prop in H.
    destruct H as [H1 H2]. apply N.leb_le in H1. apply N.leb_le in H2.
    unfold cu_dollar, cu_comma.
    repeat split; try lia.
    + unfold V2.is_number_unit. rewrite Hd. reflexivity.
    + destruct (is_space ch) eqn:E; [|reflexivity].
      apply space_not_digit in E. congruence.
  - repeat split; try reflexivity; try discriminate.
Qed.

Lemma plain_fixed2_units t :
  plain_fixed2 t ->
  Forall plain_unit t
  /\ (exists a t', t = a :: t' /\ is_digit a = true)
  /\ (exists z r, rev t = z :: r /\ is_digit z = true).
Proof.
  intros (ip & d1 & d2 & -> & Hne & Hip & H1 & H2).
  split; [|split].
  - apply Forall_app. split.
    + rewrite forallb_forall in Hip. apply Forall_forall.
      intros x Hx. left. apply Hip, Hx.
    + constructor; [right; reflexivity|].
      constructor; [left; exact H1|].
      constructor; [left; exact H2|constructor].
  - destruct ip as [|a ip]; [congruence|].
    cbn in Hip. apply andb_prop in Hip.
    exists a, (ip ++ [cu_dot; d1; d2]). split; [reflexivity|apply Hip].
  - rewrite rev_app_distr. cbn [rev app]. eexists _, _.
    split; [reflexivity|exact H2].
Qed.

Lemma codes_letters c :
  In c currency_codes ->
  toUpperCase c = c
  /\ Forall (fun d => (d < 128)%N /\ d <> cu_dollar) c
  /\ (exists c0 c', c = c0 :: c' /\ (65 <= c0)%N)
  /\ (exists z r, rev c = z :: r /\ is_space z = false).
Proof.
  cbn [currency_codes In].
  intros [<-|[<-|[<-|[<-|[<-|[<-|[<-|[]]]]]]]];
    (split; [reflexivity|]);
    (split; [repeat constructor; try discriminate|]);
    (split; [eexists _, _; split; [reflexivity|cbn; lia]
            |eexists _, _; split; reflexivity]).
Qed.

(** The normalizer on a plain two-decimal text followed by a space and a
    code. *)
Lemma parse_serialized t c p :
  plain_fixed2 t -> In c currency_codes ->
  parseFloat t = p -> isNaN p = false ->
  V2.parsePriceString (t ++ lit " " ++ c) = V2.PriceInfo (Some p) (Some c).
Proof.
  intros Ht Hc Hp Hn.
  destruct (plain_fixed2_units t Ht) as (Hu & (a & t' & Ea & Ha) & (z & r & Ez & Hz)).
  destruct (codes_letters c Hc) as (Hup & Hcl & (c0 & c' & Ec & Hc0) & (zc & rc & Ezc & Hzc)).
  assert (Hf : forall ch, In ch t -> plain_unit ch)
    by (apply Forall_forall; exact Hu).
  assert (Hspace_a : is_space a = false).
  { apply plain_unit_facts. left. exact Ha. }
  assert (Hspace_z : is_space z = false).
  { apply plain_unit_facts. left. exact Hz. }
  change (lit " " ++ c) with (cu_space :: c).
  (* the cleaned text *)
  assert (Hclean : trim (t ++ cu_space :: c) = t ++ cu_space :: c).
  { apply trim_id.
    - rewrite Ea. cbn [app]. exact Hspace_a.
    - rewrite rev_app_distr. cbn [rev]. rewrite Ezc, <- !app_assoc.
      cbn [app]. exact Hzc. }
  (* the currency *)
  assert (Hdet : V2.detect_currency (t ++ cu_space :: c) = (Some c, t)).
  { unfold V2.detect_currency.
    rewrite scan_symbols_none.
    2:{ apply Forall_app. split.
        - apply Forall_forall. intros ch Hch.
          destruct (plain_unit_facts ch (Hf ch Hch)) as (H1 & H2 & _).
          split; [lia|exact H2].
        - constructor; [split; [reflexivity|discriminate]|exact Hcl]. }
    rewrite code_found; [|apply Forall_forall; intros ch Hch;
                           apply plain_unit_facts, Hf, Hch|exact Hc].
    unfold m_group. cbn [m_end caps lookup_cap Nat.eqb]. rewrite Hup.
    f_equal.
    change (t ++ cu_space :: c) with (t ++ [cu_space] ++ c).
    rewrite app_assoc, Ec, replaceFirst_skip, <- Ec, replaceFirst_self.
    2:{ apply Forall_app. split.
        - apply Forall_forall. intros ch Hch.
          destruct (plain_unit_facts ch (Hf ch Hch)) as (H1 & _). lia.
        - constructor; [unfold cu_space; lia|constructor]. }
    rewrite app_nil_r. unfold trim, trimEnd.
    rewrite (trimStart_id (t ++ [cu_space]))
      by (rewrite Ea; cbn [app]; exact Hspace_a).
    rewrite rev_app_distr. cbn [rev app].
    change (trimStart (cu_space :: rev t)) with (trimStart (rev t)).
    rewrite (trimStart_id (rev t)) by (rewrite Ez; exact Hspace_z).
    apply rev_involutive. }
  unfold V2.parsePriceString. rewrite Hclean, Hdet.
  assert (Hnum : forallb V2.is_number_unit t = true).
  { apply forallb_forall. intros ch Hch. apply plain_unit_facts, Hf, Hch. }
  unfold V2.numberRe. rewrite Ea in Hnum |- *.
  rewrite (plus_class_found _ a t' Hnum). rewrite <- Ea.
  assert (Htext : m_text (MatchResult 0 (MState (rev t) [] [])) = t).
  { unfold m_text. cbn [m_end m_index before]. rewrite Nat.sub_0_r.
    rewrite firstn_all. apply rev_involutive. }
  rewrite Htext.
  assert (Htrim : trim t = t).
  { apply trim_id; [rewrite Ea; exact Hspace_a|rewrite Ez; exact Hspace_z]. }
  rewrite Htrim.
  unfold V2.spacesRe, RPlus. rewrite remove_all_no_match.
  2:{ apply forallb_forall. intros ch Hch. apply negb_true_iff.
      apply plain_unit_facts, Hf, Hch. }
  assert (Hsep : V2.separators t = t).
  { unfold V2.separators.
    rewrite (no_unit_includes cu_comma t).
    - rewrite andb_false_r. reflexivity.
    - apply Forall_forall. intros ch Hch. apply plain_unit_facts, Hf, Hch. }
  rewrite Hsep, Hp, Hn. rewrite Ec. reflexivity.
Qed.

(** ** The currency of a successful result *)

Lemma scan_symbols_codes s :
  In (V2.or_USD (fst (V2.scan_symbols V2.currencyPatterns s))) currency_codes.
Proof.
  unfold V2.currencyPatterns. cbn [V2.scan_symbols].
  repeat (destruct (includes _ s); [cbn; tauto|]).
  cbn. tauto.
Qed.

Lemma detect_currency_codes s :
  In (V2.or_USD (fst (V2.detect_currency s))) currency_codes.
Proof.
  unfold V2.detect_currency.
  pose proof (scan_symbols_codes s) as Hs.
  destruct (V2.scan_symbols V2.currencyPatterns s) as [cur np].
  destruct (regex_match V2.currencyCodeRe s) as [m|] eqn:E; [|exact Hs].
  apply code_match_group in E. destruct E as (c1 & c2 & c3 & Hg & Hin).
  cbn [fst]. rewrite Hg in *. exact Hin.
Qed.

Lemma successful_result s p c :
  V2.parsePriceString s = V2.PriceInfo (Some p) (Some c) ->
  In c currency_codes /\ isNaN p = false.
Proof.
  intro H.
  pose proof (parsePriceString_currency s) as Hc.
  pose proof (parsePriceString_price s) as Hp.
  rewrite H in Hc, Hp. cbn [V2.price V2.currency] in Hc, Hp.
  injection Hc as ->. split; [apply detect_currency_codes|].
  destruct (V2.numeric_remainder s) as [r|]; [|discriminate].
  unfold number_or_null in Hp.
  remember (parseFloat (V2.separators r)) as x eqn:Ex.
  destruct (isNaN x) eqn:E; [discriminate|].
  injection Hp as <-. exact E.
Qed.

(** C9, as the code has it.  A successful result whose price lies in the
    range where [toFixed(2)] writes plain decimal notation (from 0 up to
    10^21) and is read back unchanged by [parseFloat] from that notation
    (a price of at most two decimals) is reproduced by the normalizer
    from [price.toFixed(2) + " " + currency]. *)
Theorem reserialized_price_reads_back :
  forall s p c,
    V2.parsePriceString s = V2.PriceInfo (Some p) (Some c) ->
    fixed_range p = true ->
    parseFloat (toFixed2 p) = p ->
    V2.parsePriceString (reserialize p c) = V2.PriceInfo (Some p) (Some c).
Proof.
  intros s p c Hs Hr Hb.
  destruct (successful_result s p c Hs) as [Hc Hn].
  unfold reserialize.
  apply parse_serialized; auto using toFixed2_plain.
Qed.

Lemma reserialized_price_reads_back_witness :
  V2.parsePriceString (lit "$1,234.56")
  = V2.PriceInfo (Some (decimal_number false 123456 (-2))) (Some (lit "USD"))
  /\ fixed_range (decimal_number false 123456 (-2)) = true
  /\ parseFloat (toFixed2 (decimal_number false 123456 (-2)))
     = decimal_number false 123456 (-2)
  /\ V2.parsePriceString
       (reserialize (decimal_number false 123456 (-2)) (lit "USD"))
     = V2.PriceInfo (Some (decimal_number false 123456 (-2)))
         (Some (lit "USD")).
Proof.
  split; [vm_compute; reflexivity|].
  split; [vm_compute; reflexivity|].
  split; [vm_compute; reflexivity|].
  apply (reserialized_price_reads_back (lit "$1,234.56"));
    vm_compute; reflexivity.
Defined.

(** C9 as stated fails.  The normalizer keeps the digits it reads and
    [toFixed(2)] does not: 1.234 is written ["1.23 USD"] and read back as
    1.23.  A price of 10^21 is written ["1e+21 USD"] and read back as 1. *)
Lemma reserialization_changes_the_price :
  V2.parsePriceString (lit "1.234")
  = V2.PriceInfo (Some (decimal_number false 1234 (-3))) (Some (lit "USD"))
  /\ reserialize (decimal_number false 1234 (-3)) (lit "USD") = lit "1.23 USD"
  /\ V2.parsePriceString (lit "1.23 USD")
     = V2.PriceInfo (Some (decimal_number false 123 (-2))) (Some (lit "USD"))
  /\ decimal_number false 123 (-2) <> decimal_number false 1234 (-3)
  /\ V2.parsePriceString (lit "1000000000000000000000")
     = V2.PriceInfo (Some (decimal_number false 1 21)) (Some (lit "USD"))
  /\ reserialize (decimal_number false 1 21) (lit "USD") = lit "1e+21 USD"
  /\ V2.parsePriceString (lit "1e+21 USD")
     = V2.PriceInfo (Some (number_of_N 1)) (Some (lit "USD")).
Proof.
  split; [vm_compute; reflexivity|].
  split; [vm_compute; reflexivity|].
  split; [vm_compute; reflexivity|].
  split; [vm_compute; discriminate|].
  split; [vm_compute; reflexivity|].
  split; vm_compute; reflexivity.
Qed.

(* ===================================================================== *)
(** * Hotels without a price sort last *)
(* ===================================================================== *)

Lemma insert_priced_stays_priced x l :
  Db.latestPrice x <> None ->
  Forall (fun e => Db.latestPrice e <> None) l ->
  Forall (fun e => Db.latestPrice e <> None)
    (insert_from_right Db.by_latestPrice x l).
Proof.
  intros Hx. induction 1 as [|y t Hy Ht IH]; cbn [insert_from_right].
  - constructor; [exact Hx|constructor].
  - destruct (negative _).
    + constructor; [exact Hy|exact IH].
    + constructor; [exact Hx|constructor; assumption].
Qed.

(** In the list kept by the insertion (last element first) the entries
    without a price stay in front. *)
Lemma insert_keeps_nulls_first x unpriced priced :
  Forall (fun e => Db.latestPrice e = None) unpriced ->
  Forall (fun e => Db.latestPrice e <> None) priced ->
  exists unpriced' priced',
    insert_from_right Db.by_latestPrice x (unpriced ++ priced)
    = unpriced' ++ priced'
    /\ Forall (fun e => Db.latestPrice e = None) unpriced'
    /\ Forall (fun e => Db.latestPrice e <> None) priced'.
Proof.
  intros Hu Hp. destruct (Db.latestPrice x) as [px|] eqn:Ex.
  - induction Hu as [|y t Hy Ht IH]; cbn [app].
    + exists [], (insert_from_right Db.by_latestPrice x priced).
      split; [reflexivity|]. split; [constructor|].
      apply insert_priced_stays_priced; [congruence|exact Hp].
    + cbn [insert_from_right]. unfold Db.by_latestPrice at 1.
      rewrite Ex, Hy.
      change (negative (SFopp (number_of_N 1))) with true. cbv iota.
      destruct IH as (u' & p' & -> & Hu' & Hp').
      exists (y :: u'), p'. split; [reflexivity|].
      split; [constructor; assumption|exact Hp'].
  - exists (x :: unpriced), priced. split; [|split].
    + cbn [app].
      destruct (unpriced ++ priced) as [|y t]; [reflexivity|].
      cbn [insert_from_right]. unfold Db.by_latestPrice. rewrite Ex.
      change (negative (number_of_N 1)) with false. reflexivity.
    + constructor; assumption.
    + exact Hp.
Qed.

Lemma js_sort_nulls_last l : nulls_last (js_sort Db.by_latestPrice l).
Proof.
  unfold js_sort, nulls_last.
  assert (H : forall acc u p,
             acc = u ++ p ->
             Forall (fun e => Db.latestPrice e = None) u ->
             Forall (fun e => Db.latestPrice e <> None) p ->
             exists u' p',
               fold_left (fun acc x => insert_from_right Db.by_latestPrice x acc)
                 l acc = u' ++ p'
               /\ Forall (fun e => Db.latestPrice e = None) u'
               /\ Forall (fun e => Db.latestPrice e <> None) p').
  { induction l as [|x l IH]; intros acc u p -> Hu Hp; cbn [fold_left].
    - exists u, p. auto.
    - destruct (insert_keeps_nulls_first x u p Hu Hp) as (u1 & p1 & E & Hu1 & Hp1).
      apply (IH _ u1 p1 E Hu1 Hp1). }
  destruct (H [] [] [] eq_refl ltac:(constructor) ltac:(constructor))
    as (u & p & -> & Hu & Hp).
  exists (rev p), (rev u). rewrite rev_app_distr.
  split; [reflexivity|]. split; apply Forall_rev; assumption.
Qed.

(** Whatever the filter, the hotels without a price that the comparison
    lists come after those with one. *)
Lemma compare_rows_nulls_last st checkInDate checkOutDate :
  nulls_last (Db.compare_rows st checkInDate checkOutDate).
Proof. apply js_sort_nulls_last. Qed.

(* ===================================================================== *)
(** * White space around a text *)
(* ===================================================================== *)

Lemma trimStart_app s b :
  trimStart (s ++ b)
  = match trimStart s with [] => trimStart b | t => t ++ b end.
Proof.
  induction s as [|c s IH]; cbn [app trimStart].
  - destruct (trimStart b); reflexivity.
  - destruct (is_space c); [exact IH|reflexivity].
Qed.

Lemma trimStart_blank s : blank s = true -> trimStart s = [].
Proof.
  unfold blank. induction s as [|c s IH]; cbn; [reflexivity|].
  intro H. apply andb_prop in H. destruct H as [-> H]. apply IH, H.
Qed.

Lemma blank_rev s : blank s = true -> blank (rev s) = true.
Proof.
  unfold blank. rewrite !forallb_forall. intros H c Hc.
  apply H, in_rev, Hc.
Qed.

Lemma trimStart_split s :
  exists a, s = a ++ trimStart s /\ blank a = true.
Proof.
  induction s as [|c s (a & Ha & Hb)]; cbn [trimStart].
  - exists []. split; reflexivity.
  - destruct (is_space c) eqn:E.
    + exists (c :: a). cbn. rewrite E, <- Ha. split; [reflexivity|exact Hb].
    + exists []. split; reflexivity.
Qed.

(** White space before and after a text does not change what [trim]
    leaves of it. *)
Lemma trim_outer a s b :
  blank a = true -> blank b = true -> trim (a ++ s ++ b) = trim s.
Proof.
  intros Ha Hb. unfold trim, trimEnd.
  rewrite trimStart_app, (trimStart_blank a Ha), trimStart_app.
  destruct (trimStart s) as [|c u] eqn:E.
  - rewrite (trimStart_blank b Hb). reflexivity.
  - f_equal. rewrite rev_app_distr, trimStart_app.
    rewrite (trimStart_blank (rev b) (blank_rev b Hb)). reflexivity.
Qed.

(** What [trim] returns neither starts nor ends with white space. *)
Lemma trim_ends s :
  match trim s with [] => True | a :: _ => is_space a = false end
  /\ match rev (trim s) with [] => True | z :: _ => is_space z = false end.
Proof.
  unfold trim, trimEnd. rewrite rev_involutive. split.
  - destruct (trimStart_split (rev (trimStart s))) as (a & Ha & Hb).
    apply (f_equal (@rev N)) in Ha.
    rewrite rev_involutive, rev_app_distr in Ha.
    destruct (rev (trimStart (rev (trimStart s)))) as [|x t] eqn:E; [exact I|].
    destruct (trimStart_head s) as [E0|(c & u & E0 & Hc)]; rewrite E0 in Ha.
    + discriminate Ha.
    + cbn [app] in Ha. injection Ha as <- _. exact Hc.
  - destruct (trimStart_head (rev (trimStart s))) as [->|(c & u & -> & Hc)];
      [exact I|exact Hc].
Qed.

Lemma trim_idempotent s : trim (trim s) = trim s.
Proof. destruct (trim_ends s) as [H1 H2]. apply trim_id; assumption. Qed.

(* ===================================================================== *)
(** * The sign of a parsed Number *)
(* ===================================================================== *)

Lemma round_ratio_signbit p q : signbit (round_ratio false p q) = false.
Proof.
  unfold round_ratio.
  destruct (SFdiv_core_binary prec emax (Z.pos p) 0 (Z.pos q) 0) as [[mz ez] lz].
  unfold binary_round_aux.
  destruct (shr_fexp prec emax mz ez lz) as [mrs' e'].
  destruct (shr_fexp prec emax _ e' loc_Exact) as [mrs'' e''].
  destruct (shr_m mrs''); [reflexivity| |reflexivity].
  destruct (Z.leb e'' _); reflexivity.
Qed.

Lemma decimal_number_signbit m e : signbit (decimal_number false m e) = false.
Proof.
  unfold decimal_number. destruct m as [|p]; [reflexivity|].
  destruct (0 <=? e)%Z; apply round_ratio_signbit.
Qed.

(** [parseFloat] reads a sign only from a minus that stands in the
    text. *)
Lemma parseFloat_signbit t :
  Forall (fun c => c <> cu_minus) t -> signbit (parseFloat t) = false.
Proof.
  intro H. apply (trimStart_keeps (fun c => c <> cu_minus)) in H.
  unfold parseFloat.
  assert (Hneg :
            exists u,
              match trimStart t with
              | c :: t' =>
                  if (c =? cu_plus)%N then (false, t')
                  else if (c =? cu_minus)%N then (true, t')
                  else (false, trimStart t)
              | [] => (false, trimStart t)
              end = (false, u)).
  { destruct (trimStart t) as [|c t']; [eexists; reflexivity|].
    destruct (c =? cu_plus)%N; [eexists; reflexivity|].
    apply Forall_cons_iff in H. destruct H as [Hc _].
    apply N.eqb_neq in Hc. rewrite Hc. eexists; reflexivity. }
  destruct Hneg as [u ->].
  destruct (startsWith _ u); [reflexivity|].
  destruct (span_digits u) as [ip r1].
  destruct r1 as [|c r2].
  - destruct ip; [reflexivity|apply decimal_number_signbit].
  - destruct (c =? cu_dot)%N.
    + destruct (span_digits r2) as [fp r3].
      destruct ip; [destruct fp; [reflexivity|]|]; apply decimal_number_signbit.
    + destruct ip; [reflexivity|apply decimal_number_signbit].
Qed.

Lemma unsigned_not_below_zero p :
  signbit p = false -> isNaN p = false -> num_ge p num_zero = true.
Proof. destruct p as [[|]| [|] | |[|] m e]; cbn; congruence. Qed.

Lemma number_unit_not_minus c : V2.is_number_unit c = true -> c <> cu_minus.
Proof. intros H ->. discriminate H. Qed.

Lemma rightmost_decimal_units r :
  Forall (fun c => V2.is_number_unit c = true) r ->
  Forall (fun c => V2.is_number_unit c = true) (rightmost_decimal r).
Proof.
  intro H. unfold rightmost_decimal.
  destruct (rightmost_mark r) as [d|]; [|exact H].
  apply Forall_forall. intros x Hx. apply in_map_iff in Hx.
  destruct Hx as (c & <- & Hc). apply filter_In in Hc. destruct Hc as [Hc _].
  destruct (c =? d)%N; [reflexivity|].
  rewrite Forall_forall in H. apply H, Hc.
Qed.

(** The text that [parsePriceString] hands to [parseFloat] holds digits,
    marks and white space only. *)
Lemma separated_remainder_units s r :
  V2.numeric_remainder s = Some r ->
  Forall (fun c => V2.is_number_unit c = true) (V2.separators r).
Proof.
  intro H. rewrite separators_rightmost. apply rightmost_decimal_units.
  apply (numeric_remainder_units (fun _ => True)) in H.
  - eapply Forall_impl; [|exact H]. cbv beta. tauto.
  - apply Forall_forall. auto.
Qed.

Lemma parsePriceString_unsigned s p :
  V2.price (V2.parsePriceString s) = Some p ->
  isNaN p = false /\ signbit p = false.
Proof.
  rewrite parsePriceString_price.
  destruct (V2.numeric_remainder s) as [r|] eqn:E; [|discriminate].
  unfold number_or_null.
  remember (parseFloat (V2.separators r)) as x eqn:Ex.
  destruct (isNaN x) eqn:En; [discriminate|].
  intro H. injection H as <-. split; [exact En|].
  rewrite Ex. apply parseFloat_signbit.
  eapply Forall_impl; [|apply (separated_remainder_units s r E)].
  apply number_unit_not_minus.
Qed.

Lemma parsePriceString_priced s p :
  V2.price (V2.parsePriceString s) = Some p ->
  exists c, V2.parsePriceString s = V2.PriceInfo (Some p) (Some c)
            /\ In c currency_codes.
Proof.
  intro H. pose proof (parsePriceString_currency s) as Hc. rewrite H in Hc.
  destruct (V2.parsePriceString s) as [pr cu] eqn:E.
  cbn [V2.price V2.currency] in H, Hc. subst pr cu.
  eexists. split; [reflexivity|]. apply detect_currency_codes.
Qed.

(* ===================================================================== *)
(** * Properties of the normalizer *)
(* ===================================================================== *)

(** X1.  White space before and after a price string never changes what
    [parsePriceString] makes of it: the price and the currency are those
    of the text in between. *)
Theorem parsePriceString_ignores_outer_space :
  forall a s b,
    blank a = true -> blank b = true ->
    V2.parsePriceString (a ++ s ++ b) = V2.parsePriceString s.
Proof.
  intros a s b Ha Hb. unfold V2.parsePriceString.
  rewrite (trim_outer a s b Ha Hb). reflexivity.
Qed.

Lemma parsePriceString_ignores_outer_space_witness :
  blank (lit "  ") = true /\ blank [9%N; 10%N] = true
  /\ V2.parsePriceString (lit "  " ++ lit "$1,234.56" ++ [9%N; 10%N])
     = V2.parsePriceString (lit "$1,234.56").
Proof.
  split; [reflexivity|]. split; [reflexivity|].
  apply (parsePriceString_ignores_outer_space (lit "  ") (lit "$1,234.56")
           [9%N; 10%N]); reflexivity.
Defined.

(** X2.  A price that [parsePriceString] returns is a Number that is not
    a NaN and carries no sign, so it is never below zero (a minus before
    the digits is not read), and it always comes with a currency, one of
    the seven codes. *)
Theorem parsePriceString_price_is_unsigned :
  forall s p,
    V2.price (V2.parsePriceString s) = Some p ->
    isNaN p = false /\ signbit p = false /\ num_ge p num_zero = true
    /\ exists c, V2.currency (V2.parsePriceString s) = Some c
                 /\ In c currency_codes.
Proof.
  intros s p H.
  destruct (parsePriceString_unsigned s p H) as [Hn Hs].
  split; [exact Hn|]. split; [exact Hs|].
  split; [apply unsigned_not_below_zero; assumption|].
  destruct (parsePriceString_priced s p H) as (c & -> & Hc).
  exists c. split; [reflexivity|exact Hc].
Qed.

Lemma parsePriceString_price_is_unsigned_witness :
  V2.price (V2.parsePriceString (lit "-5 EUR")) = Some (number_of_N 5)
  /\ isNaN (number_of_N 5) = false /\ signbit (number_of_N 5) = false
  /\ num_ge (number_of_N 5) num_zero = true
  /\ exists c, V2.currency (V2.parsePriceString (lit "-5 EUR")) = Some c
               /\ In c currency_codes.
Proof.
  split; [vm_compute; reflexivity|].
  apply (parsePriceString_price_is_unsigned (lit "-5 EUR")).
  vm_compute. reflexivity.
Defined.

(* ===================================================================== *)
(** * Digits and commas *)
(* ===================================================================== *)

Lemma code_re_end bef :
  rmatch V2.currencyCodeRe (MState bef [] []) (fun st => Some st) = None.
Proof.
  unfold V2.currencyCodeRe. rewrite rmatch_seq, rmatch_wordb.
  destruct (at_word_boundary _); reflexivity.
Qed.

(** The code pattern finds nothing in a text without a letter. *)
Lemma code_not_found t :
  Forall (fun ch => (ch < 65)%N) t -> regex_match V2.currencyCodeRe t = None.
Proof.
  intro H. unfold regex_match.
  rewrite <- (app_nil_r t), search_code_skip by exact H.
  cbn [search]. rewrite code_re_end. reflexivity.
Qed.

Lemma digit_or_comma_facts ch :
  digit_or_comma ch ->
  (ch < 65)%N /\ ch <> cu_dollar /\ ch <> cu_dot
  /\ V2.is_number_unit ch = true /\ is_space ch = false.
Proof.
  intros [H| ->].
  - destruct (plain_unit_facts ch (or_introl H)) as (H1 & H2 & _ & H4 & H5).
    repeat split; auto.
    intros ->. discriminate H.
  - repeat split; try reflexivity; try discriminate.
Qed.

Lemma comma_to_dot_id t :
  includes [cu_comma] t = false -> map comma_to_dot t = t.
Proof.
  intro H. rewrite <- (map_id t) at 2. apply map_ext_in.
  intros c Hc. unfold comma_to_dot. rewrite (not_included _ _ H c Hc).
  reflexivity.
Qed.

(** The decimal-separator step on a remainder without a dot. *)
Lemma separators_without_dot t :
  includes [cu_dot] t = false -> V2.separators t = map comma_to_dot t.
Proof.
  intro H. unfold V2.separators. rewrite H. cbn [andb].
  destruct (includes [cu_comma] t) eqn:E.
  - unfold V2.commaRe. apply replace_unit_map.
  - symmetry. apply comma_to_dot_id, E.
Qed.

Lemma match_text_all t :
  m_text (MatchResult 0 (MState (rev t) [] [])) = t.
Proof.
  unfold m_text. cbn [m_end m_index before]. rewrite Nat.sub_0_r.
  rewrite firstn_all. apply rev_involutive.
Qed.

Lemma Forall_head_last (P : N -> Prop) t :
  Forall P t ->
  match t with [] => True | a :: _ => P a end
  /\ match rev t with [] => True | z :: _ => P z end.
Proof.
  intro H. split.
  - destruct H; [exact I|assumption].
  - apply Forall_rev in H. destruct H; [exact I|assumption].
Qed.

(** X3.  In a text of digits and commas every comma is read as a decimal
    point, also where it groups thousands: the price is what [parseFloat]
    reads from the text with its commas written as dots (["1,234"] gives
    1.234 and ["1,234,567"] as well), and the currency is USD. *)
Theorem commas_alone_are_decimal_points :
  forall t,
    t <> [] -> Forall digit_or_comma t ->
    V2.parsePriceString t
    = match number_or_null (parseFloat (map comma_to_dot t)) with
      | Some p => V2.PriceInfo (Some p) (Some (lit "USD"))
      | None => V2.PriceInfo None None
      end.
Proof.
  intros t Hne Ht.
  assert (Hf : forall ch, In ch t -> digit_or_comma ch)
    by (apply Forall_forall; exact Ht).
  assert (Hsp : Forall (fun ch => is_space ch = false) t).
  { apply Forall_forall. intros ch Hch. apply digit_or_comma_facts, Hf, Hch. }
  destruct (Forall_head_last _ t Hsp) as [Hhead Hlast].
  assert (Htrim : trim t = t) by (apply trim_id; assumption).
  assert (Hdet : V2.detect_currency t = (None, t)).
  { unfold V2.detect_currency. rewrite scan_symbols_none.
    - rewrite code_not_found; [reflexivity|].
      apply Forall_forall. intros ch Hch. apply digit_or_comma_facts, Hf, Hch.
    - apply Forall_forall. intros ch Hch.
      destruct (digit_or_comma_facts ch (Hf ch Hch)) as (H1 & H2 & _).
      split; [lia|exact H2]. }
  unfold V2.parsePriceString. rewrite Htrim, Hdet.
  assert (Hnum : forallb V2.is_number_unit t = true).
  { apply forallb_forall. intros ch Hch. apply digit_or_comma_facts, Hf, Hch. }
  destruct t as [|a t']; [congruence|].
  unfold V2.numberRe. rewrite (plus_class_found _ a t' Hnum).
  rewrite match_text_all, Htrim.
  unfold V2.spacesRe, RPlus. rewrite remove_all_no_match.
  2:{ apply forallb_forall. intros ch Hch. apply negb_true_iff.
      apply digit_or_comma_facts, Hf, Hch. }
  rewrite separators_without_dot.
  2:{ apply no_unit_includes. apply Forall_forall. intros ch Hch.
      apply digit_or_comma_facts, Hf, Hch. }
  unfold number_or_null.
  destruct (isNaN (parseFloat (map comma_to_dot (a :: t')))); reflexivity.
Qed.

Lemma commas_alone_are_decimal_points_witness :
  lit "1,234,567" <> [] /\ Forall digit_or_comma (lit "1,234,567")
  /\ parseFloat (map comma_to_dot (lit "1,234,567"))
     = decimal_number false 1234 (-3)
  /\ V2.parsePriceString (lit "1,234,567")
     = match number_or_null (parseFloat (map comma_to_dot (lit "1,234,567")))
       with
       | Some p => V2.PriceInfo (Some p) (Some (lit "USD"))
       | None => V2.PriceInfo None None
       end.
Proof.
  assert (H : Forall digit_or_comma (lit "1,234,567")).
  { repeat constructor;
      first [left; reflexivity | right; reflexivity]. }
  split; [discriminate|]. split; [exact H|].
  split; [vm_compute; reflexivity|].
  apply (commas_alone_are_decimal_points (lit "1,234,567"));
    [discriminate|exact H].
Defined.

(* ===================================================================== *)
(** * What is extracted from a document *)
(* ===================================================================== *)

Lemma first_significant_parsed ms r :
  V2.first_significant ms = Some r ->
  exists m p, In m ms /\ r = V2.parsePriceString m
              /\ V2.price r = Some p /\ num_gt p num_zero = true.
Proof.
  induction ms as [|m ms IH]; cbn [V2.first_significant]; [discriminate|].
  assert (Hrest : V2.first_significant ms = Some r ->
                  exists m0 p, In m0 (m :: ms) /\ r = V2.parsePriceString m0
                               /\ V2.price r = Some p
                               /\ num_gt p num_zero = true).
  { intro H. destruct (IH H) as (m0 & p & Hin & Hr).
    exists m0, p. split; [right; exact Hin|exact Hr]. }
  destruct (V2.price (V2.parsePriceString m)) as [p|] eqn:E; [|exact Hrest].
  destruct (num_gt p num_zero) eqn:G; [|exact Hrest].
  intro H. injection H as <-. exists m, p.
  split; [left; reflexivity|]. repeat split; assumption.
Qed.

Lemma extractPriceFromText_priced text r :
  V2.extractPriceFromText text = Some r ->
  exists p c, r = V2.PriceInfo (Some p) (Some c)
              /\ isNaN p = false /\ num_gt p num_zero = true
              /\ In c currency_codes.
Proof.
  unfold V2.extractPriceFromText.
  destruct (match_global _ _) as [ms|]; [|discriminate].
  intro H. apply first_significant_parsed in H.
  destruct H as (m & p & _ & -> & Hp & Hg).
  destruct (parsePriceString_priced m p Hp) as (c & Hr & Hc).
  exists p, c. split; [exact Hr|].
  split; [apply (successful_result m p c Hr)|]. split; assumption.
Qed.

Lemma try_selectors_none doc sels :
  (forall sel, In sel sels -> V2.first_text doc sel = None) ->
  V2.try_selectors doc sels = None.
Proof.
  induction sels as [|sel sels IH]; intro H; cbn [V2.try_selectors];
    [reflexivity|].
  rewrite (H sel (or_introl eq_refl)). apply IH.
  intros s Hs. apply H. right. exact Hs.
Qed.

Lemma extractPriceInfo_valid :
  (forall doc,
      match V2.extractPriceInfo doc with
      | V2.PriceInfo (Some p) (Some c) =>
          isNaN p = false /\ In c currency_codes
      | V2.PriceInfo None None => True
      | _ => False
      end)
  /\ (forall doc p,
      (forall sel, In sel V2.priceSelectors -> V2.first_text doc sel = None) ->
      V2.price (V2.extractPriceInfo doc) = Some p ->
      num_gt p num_zero = true).
Proof.
  split.
  - intro doc. unfold V2.extractPriceInfo.
    destruct (V2.try_selectors doc V2.priceSelectors) as [r|] eqn:E.
    + apply try_selectors_first in E.
      destruct E as (b & sel & a & text & p & c & _ & _ & Hp & -> & _).
      destruct (successful_result _ p c Hp) as [Hc Hn]. split; assumption.
    + destruct (V2.extractPriceFromText (V2.body_text doc)) as [r|] eqn:F;
        [|exact I].
      apply extractPriceFromText_priced in F.
      destruct F as (p & c & -> & Hn & _ & Hc). split; assumption.
  - intros doc p Hnone. unfold V2.extractPriceInfo.
    rewrite (try_selectors_none doc _ Hnone).
    destruct (V2.extractPriceFromText (V2.body_text doc)) as [r|] eqn:F;
      [|discriminate].
    apply extractPriceFromText_priced in F.
    destruct F as (p' & c & -> & _ & Hg & _).
    cbn [V2.price]. intro H. injection H as <-. exact Hg.
Qed.

(** X4.  [extractPriceInfo] answers with a price and a currency or with
    neither: a price is not a NaN and its currency is one of the seven
    codes, although [parsePriceString] itself can name a currency without
    a price.  When no price selector matches an element, the price comes
    from the body text and is above zero. *)
Theorem extractPriceInfo_price_with_currency :
  (forall doc,
      match V2.extractPriceInfo doc with
      | V2.PriceInfo (Some p) (Some c) =>
          isNaN p = false /\ In c currency_codes
      | V2.PriceInfo None None => True
      | _ => False
      end)
  /\ (forall doc p,
      (forall sel, In sel V2.priceSelectors -> V2.first_text doc sel = None) ->
      V2.price (V2.extractPriceInfo doc) = Some p ->
      num_gt p num_zero = true)
  /\ V2.parsePriceString (lit "USD") = V2.PriceInfo None (Some (lit "USD")).
Proof.
  split; [apply extractPriceInfo_valid|].
  split; [apply extractPriceInfo_valid|vm_compute; reflexivity].
Qed.

Lemma extractPriceInfo_price_with_currency_witness :
  (forall sel, In sel V2.priceSelectors ->
               V2.first_text (V2.Document (fun _ => None)
                                (lit "0 nights from $ 99.50")) sel = None)
  /\ V2.price (V2.extractPriceInfo
                 (V2.Document (fun _ => None) (lit "0 nights from $ 99.50")))
     = Some (decimal_number false 995 (-1))
  /\ num_gt (decimal_number false 995 (-1)) num_zero = true.
Proof.
  split; [reflexivity|]. split; [vm_compute; reflexivity|].
  apply (proj1 (proj2 extractPriceInfo_price_with_currency)
           (V2.Document (fun _ => None) (lit "0 nights from $ 99.50"))).
  - reflexivity.
  - vm_compute. reflexivity.
Defined.

Lemma first_name_found doc sels n :
  V2.first_name doc sels = Some n ->
  exists before_ sel after_,
    sels = before_ ++ sel :: after_
    /\ n = trim (text_of doc sel) /\ n <> []
    /\ Forall (fun s => trim (text_of doc s) = []) before_.
Proof.
  induction sels as [|sel sels IH]; cbn [V2.first_name]; [discriminate|].
  fold (text_of doc sel).
  destruct (trim (text_of doc sel)) as [|c t] eqn:E.
  - intro H. destruct (IH H) as (b & s0 & a & -> & Hn & Hne & Hb).
    exists (sel :: b), s0, a. repeat split; auto.
  - intro H. injection H as <-.
    exists [], sel, sels. repeat split; auto. discriminate.
Qed.

Lemma first_name_none doc sels :
  V2.first_name doc sels = None ->
  Forall (fun s => trim (text_of doc s) = []) sels.
Proof.
  induction sels as [|sel sels IH]; cbn [V2.first_name]; [constructor|].
  fold (text_of doc sel).
  destruct (trim (text_of doc sel)) as [|c t] eqn:E; [|discriminate].
  intro H. constructor; [exact E|apply IH, H].
Qed.

(** X5.  [extractHotelName] answers with the trimmed text of the first
    of its four selectors whose first element has a text that is not
    blank: the name is never empty and has no white space at its ends.
    It answers [null] only when all four texts are blank. *)
Theorem extractHotelName_first_nonblank :
  forall doc,
    match V2.extractHotelName doc with
    | Some n =>
        n <> [] /\ trim n = n
        /\ exists before_ sel after_,
             V2.nameSelectors = before_ ++ sel :: after_
             /\ n = trim (text_of doc sel)
             /\ Forall (fun s => trim (text_of doc s) = []) before_
    | None => Forall (fun s => trim (text_of doc s) = []) V2.nameSelectors
    end.
Proof.
  intro doc. unfold V2.extractHotelName.
  destruct (V2.first_name doc V2.nameSelectors) as [n|] eqn:E.
  - apply first_name_found in E.
    destruct E as (b & sel & a & Hs & Hn & Hne & Hb).
    split; [exact Hne|]. split; [rewrite Hn; apply trim_idempotent|].
    exists b, sel, a. repeat split; assumption.
  - apply first_name_none, E.
Qed.

Lemma extractHotelName_nonempty doc :
  match V2.extractHotelName doc with
  | Some n => n
  | None => lit "Unknown Hotel"
  end <> [].
Proof.
  unfold V2.extractHotelName.
  destruct (V2.first_name doc V2.nameSelectors) as [n|] eqn:E;
    [|discriminate].
  apply first_name_found in E. destruct E as (_ & _ & _ & _ & _ & Hne & _).
  exact Hne.
Qed.

(** X6.  [extractPrices] either returns a result that repeats the hotel
    id and the dates it was given, has a name that is not empty
    (["Unknown Hotel"] when the page shows none), a price that is not a
    NaN and one of the seven currency codes, or throws the one message
    ["Failed to extract prices: Unable to extract price information from
    HTML"]. *)
Theorem extractPrices_outcome :
  forall W (h : V2.host W) html hotelId checkIn checkOut w,
    match fst (V2.extractPrices h html hotelId checkIn checkOut w) with
    | Ok r =>
        V2.hotelId r = hotelId /\ V2.checkIn r = checkIn
        /\ V2.checkOut r = checkOut /\ V2.name r <> []
        /\ isNaN (V2.r_price r) = false /\ In (V2.r_currency r) currency_codes
    | Throw e =>
        e = lit "Failed to extract prices: "
            ++ lit "Unable to extract price information from HTML"
    end.
Proof.
  intros W h html hotelId checkIn checkOut w.
  unfold V2.extractPrices, try_catch.
  pose proof (proj1 extractPriceInfo_valid (V2.cheerio_load h html)) as Hv.
  pose proof (extractHotelName_nonempty (V2.cheerio_load h html)) as Hn.
  destruct (V2.extractPriceInfo (V2.cheerio_load h html)) as [[p|] [c|]];
    cbn [V2.price V2.currency]; try contradiction.
  - unfold bind, effect, ret. cbn [fst V2.hotelId V2.checkIn V2.checkOut
                                   V2.name V2.r_price V2.r_currency].
    destruct Hv as [Hp Hc]. repeat split; assumption.
  - reflexivity.
Qed.

(* ===================================================================== *)
(** * The pauses of the first retry wrapper *)
(* ===================================================================== *)

Section PausesV1.

Variable W : Type.
Variable h : V1.host W.
Variable config : V1.ScraperConfig.
Variable calls : W -> nat.
Variable pauses : W -> list Z.
Variable T : Type.
Variable operation : M W T.
Variable name : jsstring.

Hypothesis Hquiet : quiet1 h calls.
Hypothesis Hcount : counted calls operation.
Hypothesis Hlog : pause_log h pauses.
Hypothesis Hop : forall w, pauses (snd (operation w)) = pauses w.

(** After [i] failed attempts, with [remaining] turns of the loop left:
    [k] more invocations are made, with one pause between two of them. *)
Lemma retryOperation_loop_pauses :
  forall remaining i w lastError,
    (remaining = 0%nat
     \/ Z.of_nat (i + remaining) = V1.retryAttempts config) ->
    exists k,
      calls (snd (V1.retryOperation_loop h config operation name remaining
                    (Z.of_nat i + 1) lastError w)) = (calls w + k)%nat
      /\ pauses (snd (V1.retryOperation_loop h config operation name remaining
                        (Z.of_nat i + 1) lastError w))
         = pauses w ++ map backoff1 (seq i (k - 1))
      /\ (k <= remaining)%nat /\ (0 < remaining -> 0 < k)%nat.
Proof.
  destruct Hquiet as [Hqc Hqs]. destruct Hlog as [Hlc Hls].
  induction remaining as [|remaining IH]; intros i w le Hn.
  - exists 0%nat. cbn. rewrite app_nil_r. repeat split; lia.
  - destruct Hn as [Hn|Hn]; [discriminate|].
    cbn [V1.retryOperation_loop].
    pose proof (Hcount w) as Hc. pose proof (Hop w) as Hp.
    destruct (operation w) as [[v|e] w1]; cbn [snd] in Hc, Hp.
    + exists 1%nat. cbn [snd seq map Nat.sub]. rewrite app_nil_r.
      split; [lia|]. split; [exact Hp|lia].
    + set (w2 := V1.console h Warn _ w1).
      assert (Hc2 : calls w2 = S (calls w)) by (unfold w2; rewrite Hqc; exact Hc).
      assert (Hp2 : pauses w2 = pauses w) by (unfold w2; rewrite Hlc; exact Hp).
      replace (Z.of_nat i + 1 + 1)%Z with (Z.of_nat (S i) + 1)%Z by lia.
      destruct (Z.of_nat i + 1 <? V1.retryAttempts config)%Z eqn:E.
      * apply Z.ltb_lt in E.
        destruct (IH (S i) (V1.sleep h
                              (Z.min (1000 * 2 ^ (Z.of_nat i + 1 - 1)) 10000) w2)
                    (Some e)) as (k & Hk1 & Hk2 & Hk3 & Hk4); [right; lia|].
        exists (S k). rewrite Hk1, Hk2, Hqs, Hls, Hc2, Hp2.
        assert (Hk : (0 < k)%nat) by (apply Hk4; lia).
        split; [lia|]. split; [|lia].
        replace (S k - 1)%nat with (S (k - 1)) by lia.
        cbn [seq map]. rewrite <- app_assoc. cbn [app].
        unfold backoff1 at 2.
        replace (Z.of_nat i + 1 - 1)%Z with (Z.of_nat i) by lia.
        reflexivity.
      * apply Z.ltb_ge in E.
        destruct (IH (S i) w2 (Some e)) as (k & Hk1 & Hk2 & Hk3 & Hk4);
          [left; lia|].
        assert (Hk : k = 0%nat) by lia. subst k.
        exists 1%nat. rewrite Hk1, Hk2, Hc2, Hp2. cbn [seq map Nat.sub].
        split; [lia|]. split; [reflexivity|lia].
Qed.

End PausesV1.

Lemma backoff1_bounds i : (1000 <= backoff1 i <= 10000)%Z.
Proof.
  unfold backoff1.
  assert (1 <= 2 ^ Z.of_nat i)%Z by (apply Z.pow_le_mono_r with (b := 0%Z); lia).
  lia.
Qed.

(** X7.  [retryOperation] pauses once between two invocations of its
    operation and at no other time: after [k] invocations it has paused
    [k - 1] times, for 1000, 2000, 4000 and 8000 milliseconds and then for
    10000 each time, so never after the last attempt and never for more
    than ten seconds. *)
Theorem retryOperation_pauses :
  forall W (h : V1.host W) config (calls : W -> nat) (pauses : W -> list Z)
         T (operation : M W T) name w,
    quiet1 h calls -> counted calls operation ->
    pause_log h pauses ->
    (forall w0, pauses (snd (operation w0)) = pauses w0) ->
    let w' := snd (V1.retryOperation h config operation name w) in
    pauses w' = pauses w ++ map backoff1 (seq 0 (calls w' - calls w - 1))
    /\ Forall (fun d => (1000 <= d <= 10000)%Z)
         (map backoff1 (seq 0 (calls w' - calls w - 1))).
Proof.
  intros W h config calls pauses T operation name w Hq Hc Hl Ho w'.
  destruct (retryOperation_loop_pauses W h config calls pauses T operation
              name Hq Hc Hl Ho (Z.to_nat (V1.retryAttempts config)) 0 w None)
    as (k & Hk1 & Hk2 & _).
  { destruct (Z.to_nat (V1.retryAttempts config)) eqn:E; [left; reflexivity|].
    right. lia. }
  change (Z.of_nat 0 + 1)%Z with 1%Z in Hk1, Hk2.
  subst w'. unfold V1.retryOperation. split.
  - rewrite Hk2, Hk1. repeat f_equal. lia.
  - apply Forall_forall. intros d Hd. apply in_map_iff in Hd.
    destruct Hd as (i & <- & _). apply backoff1_bounds.
Qed.

Lemma retryOperation_pauses_witness :
  quiet1 pausing_host fst
  /\ counted fst (scripted_pausing (fun _ => @Throw unit (lit "timeout")))
  /\ pause_log pausing_host snd
  /\ snd (snd (V1.retryOperation pausing_host (config1_with_attempts 6)
                 (scripted_pausing (fun _ => @Throw unit (lit "timeout")))
                 (lit "navigate") (0%nat, [])))
     = [1000; 2000; 4000; 8000; 10000]%Z
  /\ (let w' := snd (V1.retryOperation pausing_host (config1_with_attempts 6)
                       (scripted_pausing (fun _ => @Throw unit (lit "timeout")))
                       (lit "navigate") (0%nat, [])) in
      snd w' = snd (0%nat, @nil Z)
               ++ map backoff1 (seq 0 (fst w' - fst (0%nat, @nil Z) - 1))
      /\ Forall (fun d => (1000 <= d <= 10000)%Z)
           (map backoff1 (seq 0 (fst w' - fst (0%nat, @nil Z) - 1)))).
Proof.
  assert (Hq : quiet1 pausing_host fst) by (split; reflexivity).
  assert (Hc : counted fst
                 (scripted_pausing (fun _ => @Throw unit (lit "timeout"))))
    by (intro w; reflexivity).
  assert (Hl : pause_log pausing_host snd) by (split; reflexivity).
  split; [exact Hq|]. split; [exact Hc|]. split; [exact Hl|].
  split; [vm_compute; reflexivity|].
  apply (retryOperation_pauses (nat * list Z) pausing_host
           (config1_with_attempts 6) fst snd unit
           (scripted_pausing (fun _ => @Throw unit (lit "timeout")))
           (lit "navigate") (0%nat, []) Hq Hc Hl).
  intro w0. reflexivity.
Defined.

(* ===================================================================== *)
(** * What the retry wrappers throw *)
(* ===================================================================== *)

Lemma retryOperation_loop_throws W (h : V1.host W) config T
  (operation : M W T) name e :
  (forall w, fst (operation w) = Throw e) ->
  forall remaining attempt lastError w,
    fst (V1.retryOperation_loop h config operation name remaining attempt
           lastError w)
    = Throw (lit "Failed to complete " ++ name ++ lit " after "
             ++ Z_digits (V1.retryAttempts config) ++ lit " attempts: "
             ++ last_or_undefined
                  (match remaining with O => lastError | S _ => Some e end)).
Proof.
  intro Hf. induction remaining as [|remaining IH]; intros attempt le w.
  - reflexivity.
  - cbn [V1.retryOperation_loop]. pose proof (Hf w) as He.
    destruct (operation w) as [r w1]. cbn [fst] in He. subst r.
    rewrite IH. destruct remaining; reflexivity.
Qed.

Lemma withRetry_loop_throws W (h : V2.host W) config T (fn : M W T) name e :
  (forall w, fst (fn w) = Throw e) ->
  forall remaining attempt lastError w,
    fst (V2.withRetry_loop h config fn name remaining attempt lastError w)
    = Throw (match remaining, lastError with
             | O, None =>
                 name ++ lit " failed after "
                 ++ Z_digits (V2.maxRetries config + 1) ++ lit " attempts"
             | O, Some e0 => e0
             | S _, _ => e
             end).
Proof.
  intro Hf. induction remaining as [|remaining IH]; intros attempt le w.
  - destruct le; reflexivity.
  - cbn [V2.withRetry_loop]. pose proof (Hf w) as He.
    destruct (fn w) as [r w1]. cbn [fst] in He. subst r.
    rewrite IH. destruct remaining; reflexivity.
Qed.

(** X8.  When every attempt fails with the message [e], the two retry
    wrappers throw different errors: [retryOperation] a new one,
    ["Failed to complete <name> after <retryAttempts> attempts: <e>"],
    and [withRetry] the last error itself, with the message [e].  With a
    bound that allows no attempt ([retryAttempts] at most 0, [maxRetries]
    below 0) the operation is not invoked, nothing is logged, and the
    message ends in ["undefined"], respectively reads ["<name> failed
    after <maxRetries + 1> attempts"]. *)
Theorem retry_wrappers_throw :
  (forall W (h : V1.host W) config T (operation : M W T) name e w,
      (forall w0, fst (operation w0) = Throw e) ->
      (1 <= V1.retryAttempts config)%Z ->
      fst (V1.retryOperation h config operation name w)
      = Throw (lit "Failed to complete " ++ name ++ lit " after "
               ++ Z_digits (V1.retryAttempts config) ++ lit " attempts: "
               ++ e))
  /\ (forall W (h : V1.host W) config T (operation : M W T) name w,
      (V1.retryAttempts config <= 0)%Z ->
      V1.retryOperation h config operation name w
      = (Throw (lit "Failed to complete " ++ name ++ lit " after "
                ++ Z_digits (V1.retryAttempts config) ++ lit " attempts: "
                ++ lit "undefined"), w))
  /\ (forall W (h : V2.host W) config T (fn : M W T) name e w,
      (forall w0, fst (fn w0) = Throw e) ->
      (0 <= V2.maxRetries config)%Z ->
      fst (V2.withRetry h config fn name w) = Throw e)
  /\ (forall W (h : V2.host W) config T (fn : M W T) name w,
      (V2.maxRetries config < 0)%Z ->
      V2.withRetry h config fn name w
      = (Throw (name ++ lit " failed after "
                ++ Z_digits (V2.maxRetries config + 1) ++ lit " attempts"), w)).
Proof.
  split; [|split; [|split]].
  - intros W h config T operation name e w Hf Hn.
    unfold V1.retryOperation.
    rewrite (retryOperation_loop_throws W h config T operation name e Hf).
    destruct (Z.to_nat (V1.retryAttempts config)) eqn:E; [lia|reflexivity].
  - intros W h config T operation name w Hn. unfold V1.retryOperation.
    replace (Z.to_nat (V1.retryAttempts config)) with 0%nat by lia.
    reflexivity.
  - intros W h config T fn name e w Hf Hn. unfold V2.withRetry.
    rewrite (withRetry_loop_throws W h config T fn name e Hf).
    cbn [V2.retryConfig_of V2.rc_maxRetries].
    destruct (Z.to_nat (V2.maxRetries config + 1)) eqn:E; [lia|reflexivity].
  - intros W h config T fn name w Hn. unfold V2.withRetry.
    cbn [V2.retryConfig_of V2.rc_maxRetries].
    replace (Z.to_nat (V2.maxRetries config + 1)) with 0%nat by lia.
    reflexivity.
Qed.

Lemma retry_wrappers_throw_witness :
  fst (V1.retryOperation counting_host1 (config1_with_attempts 3)
         (scripted (fun _ => @Throw unit (lit "timeout"))) (lit "navigate")
         0%nat)
  = Throw (lit "Failed to complete navigate after 3 attempts: timeout")
  /\ V1.retryOperation counting_host1 (config1_with_attempts 0)
       (scripted (fun _ => @Throw unit (lit "timeout"))) (lit "navigate")
       0%nat
     = (Throw (lit "Failed to complete navigate after 0 attempts: undefined"),
        0%nat)
  /\ fst (V2.withRetry counting_host (config_with_retries 3)
            (scripted (fun _ => @Throw unit (lit "timeout"))) (lit "search")
            0%nat)
     = Throw (lit "timeout")
  /\ V2.withRetry counting_host (config_with_retries (-1))
       (scripted (fun _ => @Throw unit (lit "timeout"))) (lit "search") 0%nat
     = (Throw (lit "search failed after 0 attempts"), 0%nat).
Proof.
  split; [|split; [|split]].
  - apply (proj1 retry_wrappers_throw nat counting_host1
             (config1_with_attempts 3) unit
             (scripted (fun _ => @Throw unit (lit "timeout")))
             (lit "navigate") (lit "timeout") 0%nat).
    + intro w0. reflexivity.
    + cbn. lia.
  - apply (proj1 (proj2 retry_wrappers_throw) nat counting_host1
             (config1_with_attempts 0) unit
             (scripted (fun _ => @Throw unit (lit "timeout")))
             (lit "navigate") 0%nat).
    cbn. lia.
  - apply (proj1 (proj2 (proj2 retry_wrappers_throw)) nat counting_host
             (config_with_retries 3) unit
             (scripted (fun _ => @Throw unit (lit "timeout")))
             (lit "search") (lit "timeout") 0%nat).
    + intro w0. reflexivity.
    + cbn. lia.
  - apply (proj2 (proj2 (proj2 retry_wrappers_throw)) nat counting_host
             (config_with_retries (-1)) unit
             (scripted (fun _ => @Throw unit (lit "timeout")))
             (lit "search") 0%nat).
    cbn. lia.
Defined.

(* ===================================================================== *)
(** * The browser of the second scraper *)
(* ===================================================================== *)

Lemma launchBrowser_loop_outcome W (h : V2.host W) pp config browser :
  forall remaining attempt lastError w,
    match V2.launchBrowser_loop h pp config browser remaining attempt
            lastError w with
    | (Ok _, b, _) => b = true
    | (Throw e, b, _) =>
        b = browser
        /\ exists last,
             e = lit "Failed to launch browser after "
                 ++ Z_digits (V2.maxRetries config + 1)
                 ++ lit " attempts: " ++ last
    end.
Proof.
  induction remaining as [|remaining IH]; intros attempt le w;
    cbn [V2.launchBrowser_loop].
  - split; [reflexivity|]. eexists. reflexivity.
  - destruct (V2.launch pp _ _ w) as [[u|e] w1]; [reflexivity|].
    destruct (V2.calculateBackoffDelay h config attempt w1) as [delay wd].
    apply IH.
Qed.

(** X9.  The field [browser] of the second scraper is set by a launch
    that succeeds and cleared by a close that succeeds, and by nothing
    else: [launchBrowser] returns with the browser active or throws
    ["Failed to launch browser after <maxRetries + 1> attempts: ..."] and
    leaves the field as it was; [close] returns with the field cleared
    (at once, when there was no browser), or throws ["Failed to close
    browser: ..."] and the scraper still counts as active. *)
Theorem browser_field_follows_launch_and_close :
  (forall W (h : V2.host W) pp config browser w,
      match V2.launchBrowser h pp config browser w with
      | (Ok _, b, _) => V2.isBrowserActive b = true
      | (Throw e, b, _) =>
          b = browser
          /\ exists last,
               e = lit "Failed to launch browser after "
                   ++ Z_digits (V2.maxRetries config + 1)
                   ++ lit " attempts: " ++ last
      end)
  /\ (forall W (h : V2.host W) pp browser w,
      match V2.close h pp browser w with
      | (Ok _, b, _) => V2.isBrowserActive b = false
      | (Throw e, b, _) =>
          browser = true /\ V2.isBrowserActive b = true
          /\ exists last, e = lit "Failed to close browser: " ++ last
      end)
  /\ (forall W (h : V2.host W) pp w,
      V2.close h pp false w = (Ok tt, false, w)).
Proof.
  split; [|split].
  - intros W h pp config browser w. unfold V2.launchBrowser.
    apply launchBrowser_loop_outcome.
  - intros W h pp browser w. unfold V2.close.
    destruct browser; [|reflexivity].
    destruct (V2.browser_close pp w) as [[u|e] w1]; [reflexivity|].
    split; [reflexivity|]. split; [reflexivity|]. eexists. reflexivity.
  - reflexivity.
Qed.

(* ===================================================================== *)
(** * Pages opened and pages closed *)
(* ===================================================================== *)

Section Pages.

Variable W : Type.
Variable h : V2.host W.
Variable config : V2.ScraperConfig.
Variable balance : W -> Z.

Hypothesis Hacc : page_accounting h balance.

Lemma keeps_bind A B (m : M W A) (f : A -> M W B) :
  keeps balance m -> (forall a, keeps balance (f a)) -> keeps balance (bind m f).
Proof.
  intros Hm Hf w. unfold bind. pose proof (Hm w) as H1.
  destruct (m w) as [[a|e] w1]; cbn [snd] in *.
  - rewrite Hf. exact H1.
  - exact H1.
Qed.

Lemma keeps_try_catch A (m : M W A) (k : jsstring -> M W A) :
  keeps balance m -> (forall e, keeps balance (k e)) -> keeps balance (try_catch m k).
Proof.
  intros Hm Hk w. unfold try_catch. pose proof (Hm w) as H1.
  destruct (m w) as [[a|e] w1]; cbn [snd] in *.
  - exact H1.
  - rewrite Hk. exact H1.
Qed.

Lemma try_finally_shift A (m : M W A) (f : M W unit) d :
  keeps balance m -> (forall w, balance (snd (f w)) = (balance w + d)%Z) ->
  forall w, balance (snd (try_finally m f w)) = (balance w + d)%Z.
Proof.
  intros Hm Hf w. unfold try_finally. pose proof (Hm w) as H1.
  destruct (m w) as [r w1]. cbn [snd] in H1. pose proof (Hf w1) as H2.
  destruct (f w1) as [[u|e] w2]; cbn [snd] in *; lia.
Qed.

Lemma keeps_effect (f : W -> W) :
  (forall w, balance (f w) = balance w) -> keeps balance (effect f).
Proof. intros H w. apply H. Qed.

Lemma keeps_ret A (a : A) : keeps balance (ret a).
Proof. intro w. reflexivity. Qed.

Lemma keeps_throw A e : keeps balance (@throw W A e).
Proof. intro w. reflexivity. Qed.

Lemma extractPrices_keeps html hotelId checkIn checkOut :
  keeps balance (V2.extractPrices h html hotelId checkIn checkOut).
Proof.
  destruct Hacc as (Hl & _).
  unfold V2.extractPrices. apply keeps_try_catch.
  - destruct (V2.price _); [|apply keeps_throw].
    destruct (V2.currency _); [|apply keeps_throw].
    apply keeps_bind; [apply keeps_effect; intro; apply Hl|].
    intros _. apply keeps_ret.
  - intro e. apply keeps_bind; [apply keeps_effect; intro; apply Hl|].
    intros _. apply keeps_throw.
Qed.

(** One attempt of [searchSingleHotel] hands every page it opens to
    [closePage]. *)
Lemma attempt_keeps browser hotelId checkIn checkOut guests :
  keeps balance
    (if negb browser
     then throw (lit "Browser not initialized. Call launchBrowser() first.")
     else
       bind (V2.newPage h)
         (fun page =>
            try_finally
              (bind (V2.setViewport h page 1920 1080) (fun _ =>
               bind (V2.setUserAgent h page (V2.userAgent config)) (fun _ =>
               bind (effect (V2.setDefaultTimeouts h page (V2.timeout config)))
                 (fun _ =>
               bind (effect
                       (V2.logger h Info
                          (lit "Navigating to "
                           ++ V2.buildSearchUrl h hotelId checkIn checkOut guests)
                          [("hotelId"%string, MStr hotelId)])) (fun _ =>
               bind (V2.goto h page
                       (V2.buildSearchUrl h hotelId checkIn checkOut guests))
                 (fun _ =>
               bind (try_catch (V2.waitForSelector h page)
                       (fun _ =>
                          effect
                            (V2.logger h Warn
                               (lit "Price selector not found, proceeding with HTML parsing")
                               [("hotelId"%string, MStr hotelId)]))) (fun _ =>
               bind (V2.content h page) (fun html =>
               V2.extractPrices h html hotelId checkIn checkOut))))))))
              (V2.closePage h page))).
Proof.
  destruct Hacc as (Hl & Hs & Hr & Hn & Hc & Hv & Hu & Ht & Hg & Hw & Hco).
  destruct browser; cbn [negb]; [|apply keeps_throw].
  intro w. unfold bind at 1. pose proof (Hn w) as H1.
  destruct (V2.newPage h w) as [[page|e] w1]; cbn [fst snd] in H1;
    [|exact H1].
  rewrite (try_finally_shift _ _ _ (-1)%Z); [lia| |intro; apply Hc].
  { apply keeps_bind; [intro; apply Hv|]. intros _.
    apply keeps_bind; [intro; apply Hu|]. intros _.
    apply keeps_bind; [apply keeps_effect; intro; apply Ht|]. intros _.
    apply keeps_bind; [apply keeps_effect; intro; apply Hl|]. intros _.
    apply keeps_bind; [intro; apply Hg|]. intros _.
    apply keeps_bind.
    - apply keeps_try_catch; [intro; apply Hw|].
      intros _. apply keeps_effect. intro. apply Hl.
    - intros _. apply keeps_bind; [intro; apply Hco|].
      intro html. apply extractPrices_keeps. }
Qed.

Lemma withRetry_loop_keeps T (fn : M W T) name :
  keeps balance fn ->
  forall remaining attempt lastError,
    keeps balance (V2.withRetry_loop h config fn name remaining attempt lastError).
Proof.
  destruct Hacc as (Hl & Hs & Hr & _).
  intros Hf. induction remaining as [|remaining IH]; intros attempt le w.
  - reflexivity.
  - cbn [V2.withRetry_loop]. pose proof (Hf w) as H1.
    destruct (fn w) as [[v|e] w1]; cbn [snd] in H1; [exact H1|].
    rewrite IH.
    destruct (attempt <? _)%Z.
    + unfold V2.calculateBackoffDelay. pose proof (Hr w1) as H2.
      destruct (V2.random h w1) as [r wd]. cbn [snd] in H2.
      rewrite Hs, Hl, H2. exact H1.
    + rewrite Hl. exact H1.
Qed.

Lemma searchSingleHotel_keeps browser hotelId checkIn checkOut guests :
  keeps balance (V2.searchSingleHotel h config browser hotelId checkIn checkOut guests).
Proof.
  unfold V2.searchSingleHotel, V2.withRetry.
  apply withRetry_loop_keeps, attempt_keeps.
Qed.

Lemma searchHotels_loop_keeps search :
  (forall hotelId, keeps balance (search hotelId)) ->
  forall hotelIds results errors w,
    balance (snd (V2.searchHotels_loop h search hotelIds results errors w))
    = balance w.
Proof.
  destruct Hacc as (Hl & _).
  intro Hs. induction hotelIds as [|hotelId rest IH]; intros results errors w;
    cbn [V2.searchHotels_loop]; [reflexivity|].
  pose proof (Hs hotelId w) as H1.
  destruct (search hotelId w) as [[r|e] w1]; cbn [snd] in H1;
    rewrite IH, Hl; exact H1.
Qed.

Lemma searchHotels_keeps browser hotelIds checkIn checkOut guests :
  keeps balance (V2.searchHotels h config browser hotelIds checkIn checkOut guests).
Proof.
  destruct Hacc as (Hl & _).
  intro w. unfold V2.searchHotels, V2.searchHotels_with.
  set (s := fun hotelId : jsstring => _).
  set (w0 := V2.log_start h hotelIds checkIn checkOut guests w).
  pose proof (searchHotels_loop_keeps s
                (fun hotelId =>
                   searchSingleHotel_keeps browser hotelId checkIn
                     checkOut guests) hotelIds [] [] w0) as H1.
  destruct (V2.searchHotels_loop h s hotelIds [] [] w0)
    as [[results errors] w1].
  cbn [snd] in *. unfold w0, V2.log_start in H1. rewrite Hl in H1.
  destruct errors; [exact H1|]. rewrite Hl. exact H1.
Qed.

End Pages.

(** X10.  [searchSingleHotel] and [searchHotels] close every page they
    open: with a balance of the pages that [newPage] returned less the
    calls of [page.close()], a search ends with the balance it started
    with, whether navigation and extraction succeed, fail or are
    retried. *)
Theorem searches_close_their_pages :
  forall W (h : V2.host W) config (balance : W -> Z),
    page_accounting h balance ->
    (forall browser hotelId checkIn checkOut guests w,
        balance (snd (V2.searchSingleHotel h config browser hotelId checkIn
                        checkOut guests w)) = balance w)
    /\ (forall browser hotelIds checkIn checkOut guests w,
        balance (snd (V2.searchHotels h config browser hotelIds checkIn
                        checkOut guests w)) = balance w).
Proof.
  intros W h config balance Hacc. split.
  - intros browser hotelId checkIn checkOut guests w.
    apply (searchSingleHotel_keeps W h config balance Hacc).
  - intros browser hotelIds checkIn checkOut guests w.
    apply (searchHotels_keeps W h config balance Hacc).
Qed.

Lemma searches_close_their_pages_witness :
  page_accounting paging_host (fun z => z)
  /\ V2.searchSingleHotel paging_host (config_with_retries 2) true
       (lit "2490015") (lit "2024-12-25") (lit "2024-12-26") 2 0%Z
     = (Throw (lit "Failed to extract prices: Unable to extract price information from HTML"),
        0%Z)
  /\ (forall browser hotelId checkIn checkOut guests w,
        snd (V2.searchSingleHotel paging_host (config_with_retries 2) browser
               hotelId checkIn checkOut guests w) = w)
  /\ (forall browser hotelIds checkIn checkOut guests w,
        snd (V2.searchHotels paging_host (config_with_retries 2) browser
               hotelIds checkIn checkOut guests w) = w).
Proof.
  assert (H : page_accounting paging_host (fun z => z)).
  { repeat split; intros; cbn; lia. }
  split; [exact H|]. split; [vm_compute; reflexivity|].
  apply (searches_close_their_pages Z paging_host (config_with_retries 2)
           (fun z => z) H).
Defined.

(* ===================================================================== *)
(** * What a batch of the second scraper returns *)
(* ===================================================================== *)

Lemma batch_all_fail W (h : V2.host W) search :
  (forall hotelId w, exists e, fst (search hotelId w) = Throw e) ->
  forall ids w, successes (batch_outcomes h search ids w) = [].
Proof.
  intro Hf. induction ids as [|hotelId rest IH]; intro w;
    cbn [batch_outcomes]; [reflexivity|].
  destruct (Hf hotelId w) as [e He].
  destruct (search hotelId w) as [r w1]. cbn [fst] in He. subst r.
  cbn [successes]. apply IH.
Qed.

Lemma searchHotels_with_result W (h : V2.host W) search ids ci co guests w :
  fst (V2.searchHotels_with h search ids ci co guests w)
  = Ok (successes (batch_outcomes h search ids
                     (V2.log_start h ids ci co guests w))).
Proof.
  unfold V2.searchHotels_with.
  pose proof (searchHotels_loop_outcomes W h search ids [] []
                (V2.log_start h ids ci co guests w)) as H.
  destruct (V2.searchHotels_loop h search ids [] [] _) as [[results errors] w1].
  cbn [fst] in H. injection H as -> _. reflexivity.
Qed.

Lemma searchSingleHotel_without_browser W (h : V2.host W) config
  hotelId ci co guests w :
  fst (V2.searchSingleHotel h config false hotelId ci co guests w)
  = Throw (if (0 <=? V2.maxRetries config)%Z
           then lit "Browser not initialized. Call launchBrowser() first."
           else lit "searchSingleHotel for hotel " ++ hotelId
                ++ lit " failed after "
                ++ Z_digits (V2.maxRetries config + 1) ++ lit " attempts").
Proof.
  unfold V2.searchSingleHotel, V2.withRetry. cbn [negb].
  rewrite (withRetry_loop_throws W h config _ _ _
             (lit "Browser not initialized. Call launchBrowser() first."))
    by reflexivity.
  cbn [V2.retryConfig_of V2.rc_maxRetries].
  destruct (0 <=? V2.maxRetries config)%Z eqn:E.
  - apply Z.leb_le in E.
    destruct (Z.to_nat (V2.maxRetries config + 1)) eqn:En; [lia|reflexivity].
  - apply Z.leb_gt in E.
    replace (Z.to_nat (V2.maxRetries config + 1)) with 0%nat by lia.
    reflexivity.
Qed.

(** X11.  On a scraper whose browser was never launched (or was closed)
    every single search throws, after its retries, ["Browser not
    initialized. Call launchBrowser() first."], and the batch search
    swallows it: [searchHotels] returns the empty list, without an error,
    whatever hotels were asked for. *)
Theorem searchHotels_without_browser_is_empty :
  (forall W (h : V2.host W) config hotelIds checkIn checkOut guests w,
      fst (V2.searchHotels h config (V2.isBrowserActive false) hotelIds
             checkIn checkOut guests w) = Ok [])
  /\ (forall W (h : V2.host W) config hotelId checkIn checkOut guests w,
      (0 <= V2.maxRetries config)%Z ->
      fst (V2.searchSingleHotel h config (V2.isBrowserActive false) hotelId
             checkIn checkOut guests w)
      = Throw (lit "Browser not initialized. Call launchBrowser() first.")).
Proof.
  split.
  - intros W h config hotelIds checkIn checkOut guests w.
    unfold V2.searchHotels, V2.isBrowserActive.
    rewrite searchHotels_with_result, batch_all_fail; [reflexivity|].
    intros hotelId w0. eexists. apply searchSingleHotel_without_browser.
  - intros W h config hotelId checkIn checkOut guests w Hn.
    unfold V2.isBrowserActive. rewrite searchSingleHotel_without_browser.
    replace (0 <=? V2.maxRetries config)%Z with true
      by (symmetry; apply Z.leb_le; exact Hn).
    reflexivity.
Qed.

Lemma searchHotels_without_browser_is_empty_witness :
  fst (V2.searchHotels counting_host (config_with_retries 3)
         (V2.isBrowserActive false) [lit "2490015"; lit "22074"]
         (lit "2024-12-25") (lit "2024-12-26") 2 0%nat) = Ok []
  /\ fst (V2.searchSingleHotel counting_host (config_with_retries 3)
            (V2.isBrowserActive false) (lit "2490015")
            (lit "2024-12-25") (lit "2024-12-26") 2 0%nat)
     = Throw (lit "Browser not initialized. Call launchBrowser() first.").
Proof.
  split.
  - apply (proj1 searchHotels_without_browser_is_empty).
  - apply (proj2 searchHotels_without_browser_is_empty nat counting_host
             (config_with_retries 3)).
    cbn. lia.
Defined.

(** ** The results repeat what was asked *)

Lemma bind_ok W A B (m : M W A) (f : A -> M W B) w v :
  fst (bind m f w) = Ok v ->
  exists a w1, m w = (Ok a, w1) /\ fst (f a w1) = Ok v.
Proof.
  unfold bind. destruct (m w) as [[a|e] w1]; [|discriminate].
  intro H. exists a, w1. split; [reflexivity|exact H].
Qed.

Lemma try_finally_ok W A (m : M W A) (f : M W unit) w v :
  fst (try_finally m f w) = Ok v -> fst (m w) = Ok v.
Proof.
  unfold try_finally. destruct (m w) as [r w1].
  destruct (f w1) as [[u|e] w2]; [|discriminate].
  intro H. exact H.
Qed.

Lemma withRetry_loop_ok W (h : V2.host W) config T (fn : M W T) name v :
  forall remaining attempt lastError w,
    fst (V2.withRetry_loop h config fn name remaining attempt lastError w)
    = Ok v ->
    exists w0, fst (fn w0) = Ok v.
Proof.
  induction remaining as [|remaining IH]; intros attempt le w;
    cbn [V2.withRetry_loop]; [discriminate|].
  destruct (fn w) as [[v0|e] w1] eqn:E.
  - intro H. exists w. rewrite E. exact H.
  - apply IH.
Qed.

Lemma extractPrices_ok W (h : V2.host W) html hotelId checkIn checkOut w r :
  fst (V2.extractPrices h html hotelId checkIn checkOut w) = Ok r ->
  V2.hotelId r = hotelId /\ V2.checkIn r = checkIn /\ V2.checkOut r = checkOut.
Proof.
  unfold V2.extractPrices, try_catch.
  destruct (V2.price _) as [p|]; [|discriminate].
  destruct (V2.currency _) as [c|]; [|discriminate].
  unfold bind, effect, ret. cbn [fst].
  intro H. injection H as <-. repeat split.
Qed.

Lemma searchSingleHotel_ok W (h : V2.host W) config browser
  hotelId checkIn checkOut guests w r :
  fst (V2.searchSingleHotel h config browser hotelId checkIn checkOut guests w)
  = Ok r ->
  V2.hotelId r = hotelId /\ V2.checkIn r = checkIn /\ V2.checkOut r = checkOut.
Proof.
  unfold V2.searchSingleHotel, V2.withRetry. intro H.
  apply withRetry_loop_ok in H. destruct H as [w0 H].
  destruct browser; cbn [negb] in H; [|discriminate].
  apply bind_ok in H. destruct H as (page & w1 & _ & H).
  apply try_finally_ok in H.
  repeat (apply bind_ok in H; destruct H as (? & ? & _ & H)).
  apply extractPrices_ok in H. exact H.
Qed.

Lemma successes_echo W (h : V2.host W) search checkIn checkOut :
  (forall hotelId w r,
      fst (search hotelId w) = Ok r ->
      V2.hotelId r = hotelId /\ V2.checkIn r = checkIn
      /\ V2.checkOut r = checkOut) ->
  forall ids w,
    map V2.hotelId (successes (batch_outcomes h search ids w))
    = map fst (filter (fun o => succeeded (snd o))
                 (batch_outcomes h search ids w))
    /\ Forall (fun r => V2.checkIn r = checkIn /\ V2.checkOut r = checkOut)
         (successes (batch_outcomes h search ids w)).
Proof.
  intro Hs. induction ids as [|hotelId rest IH]; intro w;
    cbn [batch_outcomes].
  - split; [reflexivity|constructor].
  - pose proof (Hs hotelId w) as H.
    destruct (search hotelId w) as [[r|e] w1];
      cbn [successes map filter snd succeeded fst].
    + destruct (H r eq_refl) as (H1 & H2 & H3).
      destruct (IH (V2.logger h Info (lit "Successfully searched hotel "
                                      ++ hotelId)
                      [("hotelId"%string, MStr hotelId)] w1)) as [I1 I2].
      split.
      * rewrite H1, I1. reflexivity.
      * constructor; [split; assumption|exact I2].
    + apply IH.
Qed.

(** When the outcome of a search does not depend on the moment it is
    made, the hotels that succeed are read off the request. *)
Lemma batch_outcomes_pure W (h : V2.host W) search ok ids :
  (forall hotelId w, In hotelId ids ->
     succeeded (fst (search hotelId w)) = ok hotelId) ->
  forall w,
    map fst (filter (fun o => succeeded (snd o)) (batch_outcomes h search ids w))
    = filter ok ids.
Proof.
  induction ids as [|hotelId rest IH]; intros Hp w;
    cbn [batch_outcomes filter]; [reflexivity|].
  pose proof (Hp hotelId w (or_introl eq_refl)) as H.
  assert (Hr : forall id w0, In id rest ->
                 succeeded (fst (search id w0)) = ok id)
    by (intros id w0 Hin; apply Hp; right; exact Hin).
  destruct (search hotelId w) as [[r|e] w1]; cbn [fst succeeded] in H;
    rewrite <- H; cbn [filter snd succeeded map fst]; rewrite (IH Hr);
    reflexivity.
Qed.

(** X12.  The list that [searchHotels] returns repeats what was asked:
    the hotel ids of the results are the requested ids whose search
    succeeded, in the order of the request, so that exactly the hotels
    that failed are left out, and every result carries the requested
    check-in and check-out dates.  When the outcome of a search does not
    depend on the moment it is made, the ids returned are the requested
    ids filtered by success. *)
Theorem searchHotels_results_follow_request :
  (forall W (h : V2.host W) config browser hotelIds checkIn checkOut guests w,
      let outcomes :=
        batch_outcomes h
          (fun hotelId =>
             V2.searchSingleHotel h config browser hotelId checkIn checkOut
               guests)
          hotelIds (V2.log_start h hotelIds checkIn checkOut guests w) in
      exists results,
        fst (V2.searchHotels h config browser hotelIds checkIn checkOut
               guests w) = Ok results
        /\ map fst outcomes = hotelIds
        /\ map V2.hotelId results
           = map fst (filter (fun o => succeeded (snd o)) outcomes)
        /\ Forall (fun r => V2.checkIn r = checkIn /\ V2.checkOut r = checkOut)
             results)
  /\ (forall W (h : V2.host W) config browser hotelIds checkIn checkOut guests
             w ok,
      (forall hotelId w0, In hotelId hotelIds ->
         succeeded (fst (V2.searchSingleHotel h config browser hotelId
                           checkIn checkOut guests w0)) = ok hotelId) ->
      exists results,
        fst (V2.searchHotels h config browser hotelIds checkIn checkOut
               guests w) = Ok results
        /\ map V2.hotelId results = filter ok hotelIds
        /\ Forall (fun r => V2.checkIn r = checkIn /\ V2.checkOut r = checkOut)
             results).
Proof.
  split.
  - intros W h config browser hotelIds checkIn checkOut guests w outcomes.
    unfold V2.searchHotels. rewrite searchHotels_with_result.
    eexists. split; [reflexivity|].
    split; [apply batch_outcomes_ids|].
    apply successes_echo. intros hotelId w0 r.
    apply searchSingleHotel_ok.
  - intros W h config browser hotelIds checkIn checkOut guests w ok Hp.
    unfold V2.searchHotels. rewrite searchHotels_with_result.
    eexists. split; [reflexivity|].
    rewrite <- (batch_outcomes_pure W h _ ok hotelIds Hp
                  (V2.log_start h hotelIds checkIn checkOut guests w)).
    apply successes_echo. intros hotelId w0 r.
    apply searchSingleHotel_ok.
Qed.

Lemma searchHotels_results_follow_request_witness :
  exists results,
    fst (V2.searchHotels one_hotel_site (config_with_retries 1) true
           [lit "22074"; lit "2490015"; lit "2113125"]
           (lit "2024-12-25") (lit "2024-12-26") 2 [])
    = Ok results
    /\ map V2.hotelId results
       = filter (fun hotelId => jseqb hotelId (lit "2490015"))
           [lit "22074"; lit "2490015"; lit "2113125"]
    /\ Forall (fun r => V2.checkIn r = lit "2024-12-25"
                        /\ V2.checkOut r = lit "2024-12-26") results.
Proof.
  apply (proj2 searchHotels_results_follow_request jsstring one_hotel_site
           (config_with_retries 1) true
           [lit "22074"; lit "2490015"; lit "2113125"]
           (lit "2024-12-25") (lit "2024-12-26") 2%Z []
           (fun hotelId => jseqb hotelId (lit "2490015"))).
  intros hotelId w0 [<-|[<-|[<-|[]]]]; vm_compute; reflexivity.
Defined.

(* ===================================================================== *)
(** * The date pattern of the first scraper *)
(* ===================================================================== *)

Lemma rmatch_class_then p r st k x :
  rmatch (RSeq (RChar p) r) st k = Some x ->
  exists c t, after st = c :: t /\ p c = true
              /\ rmatch r (advance c t st) k = Some x.
Proof.
  rewrite rmatch_seq, rmatch_char.
  destruct (after st) as [|c t]; [discriminate|].
  destruct (p c) eqn:E; [|discriminate].
  intro H. exists c, t. auto.
Qed.

Lemma date_shape_matches s :
  date_shape s = true ->
  rmatch V1.dateRegex (MState [] s []) (fun st => Some st)
  = Some (MState (rev s) [] []).
Proof.
  unfold date_shape.
  do 10 (destruct s as [|? s]; [discriminate|]).
  destruct s; [|discriminate].
  cbn [forallb]. intro H.
  repeat rewrite andb_true_iff in H. decompose [and] H. clear H.
  unfold V1.dateRegex. cbn [rmatch before after advance caps]. unfold cu_is.
  repeat match goal with
         | E : _ = true |- _ => rewrite E; clear E
         end.
  reflexivity.
Qed.

Lemma dateRegex_shape s x :
  rmatch V1.dateRegex (MState [] s []) (fun st => Some st) = Some x ->
  date_shape s = true.
Proof.
  unfold V1.dateRegex. cbv zeta.
  change (rmatch (RSeq RBol ?r) (MState [] s []) ?k)
    with (rmatch r (MState [] s []) k).
  intro H.
  do 10 (apply rmatch_class_then in H;
         destruct H as (? & ? & ? & ? & H)).
  cbn [rmatch] in H.
  unfold advance in *. cbn [after before caps] in *.
  repeat match goal with
         | E : ?a = _ :: ?b |- _ => subst a
         end.
  match type of H with
  | match ?l with _ => _ end = _ => destruct l; [|discriminate]
  end.
  unfold date_shape. cbn [forallb]. unfold cu_is in *.
  repeat match goal with
         | E : _ = true |- _ => rewrite E; clear E
         end.
  reflexivity.
Qed.

(** The anchor [^] lets the pattern match at the start of the text
    only. *)
Lemma dateRegex_not_later aft :
  forall c bef, search V1.dateRegex (c :: bef) aft = None.
Proof.
  induction aft as [|d t IH]; intros c bef; cbn [search].
  - reflexivity.
  - change (rmatch V1.dateRegex (MState (c :: bef) (d :: t) []) _)
      with (@None mstate).
    apply IH.
Qed.

Lemma regex_test_dateRegex s : regex_test V1.dateRegex s = date_shape s.
Proof.
  unfold regex_test, regex_match.
  destruct (date_shape s) eqn:E.
  - rewrite (search_hit _ _ _ _ (date_shape_matches s E)). reflexivity.
  - destruct (rmatch V1.dateRegex (MState [] s []) (fun st => Some st))
      as [x|] eqn:Em.
    + apply dateRegex_shape in Em. congruence.
    + destruct s as [|c t]; cbn [search]; rewrite Em; [reflexivity|].
      rewrite dateRegex_not_later. reflexivity.
Qed.

(** X13.  The pattern of [isValidDateFormat] accepts exactly the texts
    of ten units made of four digits, a hyphen, two digits, a hyphen and
    two digits: nothing may stand before or after them.  A text is a
    valid date for the scraper when it has this shape and the engine's
    [Date] gives it a time value. *)
Theorem isValidDateFormat_shape :
  (forall s, regex_test V1.dateRegex s = date_shape s)
  /\ (forall W (h : V1.host W) s,
      V1.isValidDateFormat h s
      = date_shape s
        && match V1.date_value h s with Some _ => true | None => false end)
  /\ date_shape (lit "2024-12-25") = true
  /\ date_shape (lit " 2024-12-25") = false
  /\ date_shape (lit "2024-12-25T10:00") = false
  /\ date_shape (lit "2024-1-5") = false.
Proof.
  split; [exact regex_test_dateRegex|].
  split; [|repeat split; reflexivity].
  intros W h s. unfold V1.isValidDateFormat.
  rewrite regex_test_dateRegex. destruct (date_shape s); reflexivity.
Qed.

(* ===================================================================== *)
(** * The checks of the batch search of the first scraper *)
(* ===================================================================== *)

Lemma searchHotelPrices_echo W (h : V1.host W) config s name ci co w r :
  fst (V1.searchHotelPrices h config s name ci co w) = Ok (Some r) ->
  V1.checkIn r = ci /\ V1.checkOut r = co.
Proof.
  unfold V1.searchHotelPrices.
  destruct (negb (V1.page s)); [discriminate|].
  unfold try_catch.
  match goal with
  | |- fst (match ?m w with _ => _ end) = _ -> _ =>
      destruct (m w) as [[v|e] w1] eqn:E
  end.
  2:{ unfold bind, effect, throw. cbn. discriminate. }
  cbn [fst]. intro H. injection H as ->.
  assert (E' : fst ((bind
                       (V1.retryOperation h config
                          (V1.goto h
                             (V1.HOTEL_SEARCH_URL ++ lit "?s="
                              ++ V1.encodeURIComponent h name
                              ++ lit "&checkIn=" ++ ci
                              ++ lit "&checkOut=" ++ co))
                          (lit "navigate to " ++ name ++ lit " search"))
                       _) w) = Ok (Some r)) by (rewrite E; reflexivity).
  clear E.
  apply bind_ok in E'. destruct E' as (? & w2 & _ & E').
  apply bind_ok in E'. destruct E' as (? & w3 & _ & E').
  apply bind_ok in E'. destruct E' as (pageContent & w4 & _ & E').
  destruct (V1.first_card h pageContent) as [card|].
  - destruct (match V1.data_hotel_id card with
              | Some (c :: id) => (c :: id, w4)
              | _ => let '(now, w') := V1.date_now h w4 in
                     (lit "hotel_" ++ Z_digits now, w')
              end) as [hotelId w5].
    destruct (V1.extractPrice _) as [price currency].
    cbn [fst] in E'. injection E' as <-. split; reflexivity.
  - unfold bind, effect, ret in E'. cbn in E'. discriminate.
Qed.

Lemma searchMultipleHotels_loop_results W (h : V1.host W) config s n ci co :
  forall rest i results w,
    exists found,
      fst (V1.searchMultipleHotels_loop h config s n ci co i rest results w)
      = results ++ found
      /\ (length found <= length rest)%nat
      /\ Forall (fun r => V1.checkIn r = ci /\ V1.checkOut r = co) found.
Proof.
  induction rest as [|name rest IH]; intros i results w;
    cbn [V1.searchMultipleHotels_loop].
  - exists []. rewrite app_nil_r. repeat split; auto.
  - set (w0 := V1.console h Info _ w).
    pose proof (searchHotelPrices_echo W h config s name ci co w0) as He.
    destruct (V1.searchHotelPrices h config s name ci co w0) as [[[r|]|e] w1].
    + match goal with
      | |- context [V1.searchMultipleHotels_loop h config s n ci co (S i)
                      rest (results ++ [r]) ?w2] =>
          destruct (IH (S i) (results ++ [r]) w2) as (found & Hf & Hl & Hd)
      end.
      exists (r :: found). rewrite Hf, <- app_assoc. cbn [app length].
      split; [reflexivity|]. split; [lia|].
      constructor; [apply (He r eq_refl)|exact Hd].
    + match goal with
      | |- context [V1.searchMultipleHotels_loop h config s n ci co (S i)
                      rest results ?w2] =>
          destruct (IH (S i) results w2) as (found & Hf & Hl & Hd)
      end.
      exists found. rewrite Hf. cbn [length].
      split; [reflexivity|]. split; [lia|exact Hd].
    + match goal with
      | |- context [V1.searchMultipleHotels_loop h config s n ci co (S i)
                      rest results ?w2] =>
          destruct (IH (S i) results w2) as (found & Hf & Hl & Hd)
      end.
      exists found. rewrite Hf. cbn [length].
      split; [reflexivity|]. split; [lia|exact Hd].
Qed.

(** X14.  [searchMultipleHotels] searches nothing until its four checks
    have passed.  It throws, in this order of precedence and with the
    world left as it was: ["Scraper not initialized. Call initialize()
    first."] without a page, ["hotelNames must be a non-empty array"] for
    an empty list, ["Invalid date format. Use YYYY-MM-DD"] when a date is
    not valid, ["Check-in date must be before check-out date"] when the
    check-in is not earlier than the check-out.  Otherwise it returns, at
    most one result for each name, each with the dates asked for. *)
Theorem searchMultipleHotels_checks_first :
  forall W (h : V1.host W) config s hotelNames checkInDate checkOutDate w,
    (V1.page s = false ->
     V1.searchMultipleHotels h config s hotelNames checkInDate checkOutDate w
     = (Throw (lit "Scraper not initialized. Call initialize() first."), w))
    /\ (V1.page s = true -> hotelNames = [] ->
        V1.searchMultipleHotels h config s hotelNames checkInDate
          checkOutDate w
        = (Throw (lit "hotelNames must be a non-empty array"), w))
    /\ (V1.page s = true -> hotelNames <> [] ->
        V1.isValidDateFormat h checkInDate
        && V1.isValidDateFormat h checkOutDate = false ->
        V1.searchMultipleHotels h config s hotelNames checkInDate
          checkOutDate w
        = (Throw (lit "Invalid date format. Use YYYY-MM-DD"), w))
    /\ (V1.page s = true -> hotelNames <> [] ->
        V1.isValidDateFormat h checkInDate
        && V1.isValidDateFormat h checkOutDate = true ->
        V1.date_ge h checkInDate checkOutDate = true ->
        V1.searchMultipleHotels h config s hotelNames checkInDate
          checkOutDate w
        = (Throw (lit "Check-in date must be before check-out date"), w))
    /\ (V1.page s = true -> hotelNames <> [] ->
        valid_range h checkInDate checkOutDate = true ->
        exists results,
          fst (V1.searchMultipleHotels h config s hotelNames checkInDate
                 checkOutDate w) = Ok results
          /\ (length results <= length hotelNames)%nat
          /\ Forall (fun r => V1.checkIn r = checkInDate
                              /\ V1.checkOut r = checkOutDate) results).
Proof.
  intros W h config s names ci co w. unfold V1.searchMultipleHotels.
  split; [intros ->; reflexivity|].
  split; [intros -> ->; reflexivity|].
  split; [|split].
  - intros -> Hn Hv. destruct names as [|n names]; [congruence|].
    cbn [negb]. rewrite <- negb_andb, Hv. reflexivity.
  - intros -> Hn Hv Hd. destruct names as [|n names]; [congruence|].
    cbn [negb]. rewrite <- negb_andb, Hv, Hd. reflexivity.
  - intros -> Hn Hv. destruct names as [|n names]; [congruence|].
    unfold valid_range in Hv. apply andb_prop in Hv. destruct Hv as [Hv Hd].
    apply negb_true_iff in Hd.
    cbn [negb]. rewrite <- negb_andb, Hv, Hd. cbn [negb].
    destruct (searchMultipleHotels_loop_results W h config s
                (length (n :: names)) ci co (n :: names) 0%nat [] w)
      as (found & Hf & Hl & Hdates).
    destruct (V1.searchMultipleHotels_loop _ _ _ _ _ _ _ _ _ _)
      as [results w1].
    cbn [fst app] in Hf. subst results.
    exists found. split; [reflexivity|]. split; assumption.
Qed.

Lemma searchMultipleHotels_checks_first_witness :
  V1.searchMultipleHotels sample_site Routes.scraperConfig
    (V1.Scraper false false) [lit "Voco Makkah"]
    (lit "2024-12-25") (lit "2024-12-26") tt
  = (Throw (lit "Scraper not initialized. Call initialize() first."), tt)
  /\ V1.searchMultipleHotels sample_site Routes.scraperConfig
       (V1.Scraper true true) [] (lit "2024-12-25") (lit "2024-12-26") tt
     = (Throw (lit "hotelNames must be a non-empty array"), tt)
  /\ V1.searchMultipleHotels sample_site Routes.scraperConfig
       (V1.Scraper true true) [lit "Voco Makkah"]
       (lit "25/12/2024") (lit "2024-12-26") tt
     = (Throw (lit "Invalid date format. Use YYYY-MM-DD"), tt)
  /\ V1.searchMultipleHotels sample_site Routes.scraperConfig
       (V1.Scraper true true) [lit "Voco Makkah"]
       (lit "2024-12-25") (lit "2024-12-25") tt
     = (Throw (lit "Check-in date must be before check-out date"), tt)
  /\ (exists results,
        fst (V1.searchMultipleHotels sample_site Routes.scraperConfig
               (V1.Scraper true true) [lit "Voco Makkah"]
               (lit "2024-12-25") (lit "2024-12-26") tt) = Ok results
        /\ (length results <= length [lit "Voco Makkah"])%nat
        /\ Forall (fun r => V1.checkIn r = lit "2024-12-25"
                            /\ V1.checkOut r = lit "2024-12-26") results).
Proof.
  split; [|split; [|split; [|split]]].
  - apply (proj1 (searchMultipleHotels_checks_first unit sample_site
                    Routes.scraperConfig (V1.Scraper false false)
                    [lit "Voco Makkah"] (lit "2024-12-25") (lit "2024-12-26")
                    tt)).
    reflexivity.
  - apply (proj1 (proj2 (searchMultipleHotels_checks_first unit sample_site
                           Routes.scraperConfig (V1.Scraper true true)
                           [] (lit "2024-12-25") (lit "2024-12-26") tt)));
      reflexivity.
  - apply (proj1 (proj2 (proj2
             (searchMultipleHotels_checks_first unit sample_site
                Routes.scraperConfig (V1.Scraper true true)
                [lit "Voco Makkah"] (lit "25/12/2024") (lit "2024-12-26")
                tt))));
      [reflexivity|discriminate|vm_compute; reflexivity].
  - apply (proj1 (proj2 (proj2 (proj2
             (searchMultipleHotels_checks_first unit sample_site
                Routes.scraperConfig (V1.Scraper true true)
                [lit "Voco Makkah"] (lit "2024-12-25") (lit "2024-12-25")
                tt)))));
      [reflexivity|discriminate|vm_compute; reflexivity
      |vm_compute; reflexivity].
  - apply (proj2 (proj2 (proj2 (proj2
             (searchMultipleHotels_checks_first unit sample_site
                Routes.scraperConfig (V1.Scraper true true)
                [lit "Voco Makkah"] (lit "2024-12-25") (lit "2024-12-26")
                tt)))));
      [reflexivity|discriminate|vm_compute; reflexivity].
Defined.

(* ===================================================================== *)
(** * The price pattern of the first scraper *)
(* ===================================================================== *)

(** A greedy repetition of a class takes every unit of the class in front
    of it when what follows can then be matched. *)
Lemma star_class_greedy p K m :
  forall pre fuel b rest cs,
    forallb p pre = true ->
    match rest with [] => True | c :: _ => p c = false end ->
    (length (pre ++ rest) <= fuel)%nat ->
    K (MState (rev pre ++ b) rest cs) = Some m ->
    star_loop (rmatch (RChar p)) K fuel (MState b (pre ++ rest) cs) = Some m.
Proof.
  induction pre as [|c pre IH]; intros fuel b rest cs Hp Hr Hf HK.
  - cbn [app rev] in *. destruct fuel as [|fuel]; cbn [star_loop];
      [exact HK|].
    rewrite rmatch_char. cbn [after].
    destruct rest as [|d rest]; [exact HK|]. rewrite Hr. exact HK.
  - destruct fuel as [|fuel]; [cbn in Hf; lia|].
    cbn in Hp. apply andb_prop in Hp. destruct Hp as [Hc Hp].
    cbn [app star_loop]. rewrite rmatch_char. cbn [after]. rewrite Hc.
    unfold advance. cbn [after before caps length].
    replace (length (pre ++ rest) <? S (length (pre ++ rest)))%nat with true
      by (symmetry; apply Nat.ltb_lt; lia).
    rewrite (IH fuel (c :: b) rest cs Hp Hr); [reflexivity| |].
    + cbn [app length] in Hf. lia.
    + cbn [rev] in HK. rewrite <- app_assoc in HK. exact HK.
Qed.

Lemma consumed_app b t rest cs cs' :
  consumed (MState b (t ++ rest) cs) (MState (rev t ++ b) rest cs') = t.
Proof.
  unfold consumed. cbn [before]. rewrite length_app, length_rev.
  replace (length t + length b - length b)%nat with (length (rev t))
    by (rewrite length_rev; lia).
  rewrite firstn_app, firstn_all, Nat.sub_diag. cbn [firstn].
  rewrite app_nil_r. apply rev_involutive.
Qed.

(** The match of the price pattern in a text whose first digit opens a
    run of digits and marks: group 1 is what stands before the run,
    group 2 is the run. *)
Lemma priceRe_found pre d g' post :
  forallb (fun c => negb (is_digit c)) pre = true ->
  is_digit d = true -> forallb V1.is_price_unit g' = true ->
  match post with [] => True | c :: _ => V1.is_price_unit c = false end ->
  exists m,
    regex_match V1.priceRe (pre ++ (d :: g') ++ post) = Some m
    /\ m_group 1 m = pre /\ m_group 2 m = d :: g'.
Proof.
  intros Hpre Hd Hg Hpost.
  eexists. split.
  - unfold regex_match. apply search_hit.
    unfold V1.priceRe. rewrite rmatch_seq, rmatch_group, rmatch_star.
    cbn [after]. apply star_class_greedy.
    + exact Hpre.
    + cbn [app]. rewrite Hd. reflexivity.
    + lia.
    + cbn [before after caps]. rewrite app_nil_r.
      rewrite rmatch_group. unfold RPlus. rewrite rmatch_seq, rmatch_char.
      cbn [after app].
      replace (V1.is_price_unit d) with true
        by (unfold V1.is_price_unit; rewrite Hd; reflexivity).
      rewrite rmatch_star. unfold advance. cbn [after before caps].
      apply star_class_greedy; [exact Hg|exact Hpost|lia|].
      cbn [before after caps]. reflexivity.
  - unfold m_group. cbn [m_end caps lookup_cap Nat.eqb].
    split.
    + rewrite <- (app_nil_r (rev pre)).
      apply (consumed_app [] pre ((d :: g') ++ post) [] []).
    + change (rev g' ++ d :: rev pre) with (rev g' ++ [d] ++ rev pre).
      rewrite app_assoc.
      change (rev g' ++ [d]) with (rev (d :: g')).
      apply (consumed_app (rev pre) (d :: g') post).
Qed.

(** ** Counting the matches of a one-unit class *)

Lemma matches_from_class_length p aft :
  forall fuel bef,
    (length aft < fuel)%nat ->
    length (matches_from fuel (RChar p) bef aft) = length (filter p aft).
Proof.
  induction aft as [|c t IH]; intros fuel bef Hf.
  - destruct fuel as [|fuel]; [cbn in Hf; lia|]. reflexivity.
  - destruct fuel as [|fuel]; [cbn in Hf; lia|]. cbn [length] in Hf.
    cbn [filter]. destruct (p c) eqn:Hc.
    + cbn [matches_from search]. rewrite (rmatch_class_hit p bef c t Hc).
      cbn [m_end m_index before after length].
      replace (length bef <? S (length bef))%nat with true
        by (symmetry; apply Nat.ltb_lt; lia).
      cbn [length]. rewrite IH by lia. reflexivity.
    + rewrite (matches_from_skip fuel (RChar p) bef c t
                 (rmatch_class_miss p bef c t Hc)).
      apply IH. lia.
Qed.

Lemma pieces_length s ms : forall pos, length (pieces pos s ms) = S (length ms).
Proof.
  induction ms as [|m ms IH]; intro pos; cbn [pieces length];
    [reflexivity|]. rewrite IH. reflexivity.
Qed.

Lemma split_class_length p s :
  length (split_regex (RChar p) s) = S (length (filter p s)).
Proof.
  unfold split_regex, all_matches.
  rewrite pieces_length, matches_from_class_length by lia. reflexivity.
Qed.

Lemma markRe_is_mark c :
  ((c =? cu_comma) || (c =? cu_dot))%N = is_mark c.
Proof. unfold is_mark. apply orb_comm. Qed.

(** The replacement of [extractPrice] on the run of digits and marks. *)
Lemma extractPrice_marks g :
  replace_global V1.markRe
    (fun m =>
       if (2 <? length (split_regex V1.markRe g))%nat then []
       else if jseqb m [cu_comma] then [cu_dot] else [])
    g
  = marks_rule g.
Proof.
  unfold V1.markRe. rewrite replace_global_class, split_class_length.
  rewrite (filter_ext _ is_mark markRe_is_mark).
  unfold marks_rule.
  change (2 <? S (length (filter is_mark g)))%nat
    with (2 <=? length (filter is_mark g))%nat.
  destruct (2 <=? length (filter is_mark g))%nat.
  - induction g as [|c g IH]; [reflexivity|].
    cbn [flat_map filter]. rewrite IH, markRe_is_mark.
    destruct (is_mark c); reflexivity.
  - apply flat_map_ext. intro c. rewrite markRe_is_mark. unfold is_mark.
    destruct (N.eqb_spec c cu_comma) as [->|Hc].
    + reflexivity.
    + destruct (N.eqb_spec c cu_dot) as [->|Hd]; [reflexivity|].
      reflexivity.
Qed.

Lemma extractPrice_valid s :
  isNaN (fst (V1.extractPrice s)) = false /\ snd (V1.extractPrice s) <> [].
Proof.
  unfold V1.extractPrice.
  destruct (regex_match V1.priceRe s) as [m|]; [|split; [reflexivity|discriminate]].
  cbn [fst snd]. split.
  - destruct (isNaN (parseFloat _)) eqn:E; [reflexivity|exact E].
  - destruct (trim (m_group 1 m)); discriminate.
Qed.

(** X15.  [extractPrice] on a text whose first digit opens a run of
    digits, dots and commas: the currency is the trimmed text before the
    run (USD when that is blank), and the price is read from the run
    after its marks have gone through one rule.  Two marks or more are
    all deleted, a single comma is a decimal point, a single dot is
    deleted: ["1,234.56"] is read as 123456 and ["250.00"] as 25000,
    ["12,50"] as 12.5.  The price is never a NaN and the currency never
    empty, whatever the text. *)
Theorem extractPrice_marks_rule :
  (forall pre d g' post,
      forallb (fun c => negb (is_digit c)) pre = true ->
      is_digit d = true -> forallb V1.is_price_unit g' = true ->
      match post with [] => True | c :: _ => V1.is_price_unit c = false end ->
      V1.extractPrice (pre ++ (d :: g') ++ post)
      = (let price := parseFloat (marks_rule (d :: g')) in
         if isNaN price then num_zero else price,
         text_or_USD (trim pre)))
  /\ (forall s, isNaN (fst (V1.extractPrice s)) = false
                /\ snd (V1.extractPrice s) <> []).
Proof.
  split; [|exact extractPrice_valid].
  intros pre d g' post Hpre Hd Hg Hpost.
  destruct (priceRe_found pre d g' post Hpre Hd Hg Hpost) as (m & Hm & H1 & H2).
  unfold V1.extractPrice. rewrite Hm, H1, H2, extractPrice_marks.
  cbv zeta. f_equal. unfold text_or_USD. destruct (trim pre); reflexivity.
Qed.

Lemma extractPrice_marks_rule_witness :
  V1.extractPrice (lit "SAR 1,234.56 per night")
  = (number_of_N 123456, lit "SAR")
  /\ V1.extractPrice (lit "$250.00") = (number_of_N 25000, lit "$")
  /\ V1.extractPrice (lit "12,50 EUR")
     = (decimal_number false 125 (-1), lit "USD")
  /\ V1.extractPrice (lit "SAR " ++ (49%N :: lit ",234.56") ++ lit " per night")
     = (let price := parseFloat (marks_rule (49%N :: lit ",234.56")) in
        if isNaN price then num_zero else price,
        text_or_USD (trim (lit "SAR "))).
Proof.
  split; [vm_compute; reflexivity|].
  split; [vm_compute; reflexivity|].
  split; [vm_compute; reflexivity|].
  apply (proj1 extractPrice_marks_rule (lit "SAR ") 49%N (lit ",234.56")
           (lit " per night")); reflexivity.
Defined.

(* ===================================================================== *)
(** * The single search of the first scraper *)
(* ===================================================================== *)

Lemma searchHotelPrices_result W (h : V1.host W) config s name ci co w r :
  fst (V1.searchHotelPrices h config s name ci co w) = Ok (Some r) ->
  isNaN (V1.price r) = false /\ V1.currency r <> [] /\ V1.hotelId r <> []
  /\ (V1.hotelName r = [] -> name = [])
  /\ match V1.rating r with
     | Some x => isNaN x = false /\ SFeqb x num_zero = false
     | None => True
     end
  /\ (exists path, V1.url r = V1.WEBBEDS_BASE_URL ++ path)
  /\ match V1.image r with Some src => src <> [] | None => True end.
Proof.
  unfold V1.searchHotelPrices.
  destruct (negb (V1.page s)); [discriminate|].
  unfold try_catch.
  match goal with
  | |- fst (match ?m w with _ => _ end) = _ -> _ =>
      destruct (m w) as [[v|e] w1] eqn:E
  end.
  2:{ unfold bind, effect, throw. cbn. discriminate. }
  cbn [fst]. intro H. injection H as ->.
  assert (E' : fst ((bind
                       (V1.retryOperation h config
                          (V1.goto h
                             (V1.HOTEL_SEARCH_URL ++ lit "?s="
                              ++ V1.encodeURIComponent h name
                              ++ lit "&checkIn=" ++ ci
                              ++ lit "&checkOut=" ++ co))
                          (lit "navigate to " ++ name ++ lit " search"))
                       _) w) = Ok (Some r)) by (rewrite E; reflexivity).
  clear E.
  apply bind_ok in E'. destruct E' as (? & w2 & _ & E').
  apply bind_ok in E'. destruct E' as (? & w3 & _ & E').
  apply bind_ok in E'. destruct E' as (pageContent & w4 & _ & E').
  destruct (V1.first_card h pageContent) as [card|].
  2:{ unfold bind, effect, ret in E'. cbn in E'. discriminate. }
  assert (Hid : fst (match V1.data_hotel_id card with
                     | Some (c :: id) => (c :: id, w4)
                     | _ => let '(now, w') := V1.date_now h w4 in
                            (lit "hotel_" ++ Z_digits now, w')
                     end) <> []).
  { destruct (V1.data_hotel_id card) as [[|c id]|];
      try (destruct (V1.date_now h w4)); discriminate. }
  destruct (match V1.data_hotel_id card with
            | Some (c :: id) => (c :: id, w4)
            | _ => let '(now, w') := V1.date_now h w4 in
                   (lit "hotel_" ++ Z_digits now, w')
            end) as [hotelId w5].
  pose proof (extractPrice_valid (trim (V1.hotel_price_text card))) as Hp.
  destruct (V1.extractPrice _) as [price currency].
  cbn [fst snd] in Hp, Hid. destruct Hp as [Hp1 Hp2].
  cbn [fst] in E'. injection E' as <-.
  cbn [V1.price V1.currency V1.hotelId V1.hotelName V1.rating V1.url V1.image].
  split; [exact Hp1|]. split; [exact Hp2|]. split; [exact Hid|].
  split; [|split; [|split]].
  - destruct (trim (V1.hotel_name_text card)); [auto|discriminate].
  - destruct (parseFloat _) as [[|]|[|]| |[|] m e]; try exact I;
      split; reflexivity.
  - eexists. reflexivity.
  - destruct (V1.img_src card) as [[|c src]|]; try exact I. discriminate.
Qed.

Lemma searchHotelPrices_failure W (h : V1.host W) config s name ci co w e :
  V1.page s = true ->
  fst (V1.searchHotelPrices h config s name ci co w) = Throw e ->
  exists errorMsg,
    e = lit "Failed to search hotel " ++ name ++ lit ": " ++ errorMsg.
Proof.
  intros Hp. unfold V1.searchHotelPrices. rewrite Hp. cbn [negb].
  unfold try_catch.
  match goal with
  | |- fst (match ?m w with _ => _ end) = _ -> _ =>
      destruct (m w) as [[v|e0] w1]
  end.
  - discriminate.
  - unfold bind, effect, throw. cbn [fst]. intro H. injection H as <-.
    eexists. reflexivity.
Qed.

(** X16.  What [searchHotelPrices] answers.  A result repeats the dates
    it was asked for; its price is not a NaN, its currency and its hotel
    id are not empty, its name is empty only when the name searched for
    is, its rating is a Number other than 0 and NaN or [null], its image
    is not the empty text, and its url starts with the base url.  On an
    initialised scraper every failure is thrown again as ["Failed to
    search hotel <name>: ..."]; without a page the call throws ["Scraper
    not initialized. Call initialize() first."] and does nothing else. *)
Theorem searchHotelPrices_outcome :
  forall W (h : V1.host W) config s hotelName checkInDate checkOutDate w,
    match fst (V1.searchHotelPrices h config s hotelName checkInDate
                 checkOutDate w) with
    | Ok (Some r) =>
        V1.checkIn r = checkInDate /\ V1.checkOut r = checkOutDate
        /\ isNaN (V1.price r) = false /\ V1.currency r <> []
        /\ V1.hotelId r <> [] /\ (V1.hotelName r = [] -> hotelName = [])
        /\ match V1.rating r with
           | Some x => isNaN x = false /\ SFeqb x num_zero = false
           | None => True
           end
        /\ (exists path, V1.url r = V1.WEBBEDS_BASE_URL ++ path)
        /\ match V1.image r with Some src => src <> [] | None => True end
    | Ok None => True
    | Throw e =>
        if V1.page s
        then exists errorMsg,
               e = lit "Failed to search hotel " ++ hotelName ++ lit ": "
                   ++ errorMsg
        else V1.searchHotelPrices h config s hotelName checkInDate
               checkOutDate w
             = (Throw (lit "Scraper not initialized. Call initialize() first."),
                w)
    end.
Proof.
  intros W h config s name ci co w.
  destruct (fst (V1.searchHotelPrices h config s name ci co w))
    as [[r|]|e] eqn:E.
  - destruct (searchHotelPrices_echo W h config s name ci co w r E) as [H1 H2].
    split; [exact H1|]. split; [exact H2|].
    apply (searchHotelPrices_result W h config s name ci co w r E).
  - exact I.
  - destruct (V1.page s) eqn:Hp.
    + apply (searchHotelPrices_failure W h config s name ci co w e Hp E).
    + unfold V1.searchHotelPrices. rewrite Hp. reflexivity.
Qed.

(* ===================================================================== *)
(** * Rows in descending order *)
(* ===================================================================== *)

Lemma insert_desc_perm A (key : A -> Z) x l :
  Permutation (Db.insert_desc key x l) (x :: l).
Proof.
  induction l as [|y t IH]; cbn [Db.insert_desc]; [reflexivity|].
  destruct (key y <=? key x)%Z; [reflexivity|].
  rewrite IH. apply perm_swap.
Qed.

Lemma order_desc_perm A (key : A -> Z) l : Permutation (Db.order_desc key l) l.
Proof.
  induction l as [|x l IH]; cbn; [reflexivity|].
  rewrite insert_desc_perm. apply perm_skip, IH.
Qed.

Lemma insert_desc_sorted A (key : A -> Z) x l :
  newest_first key l -> newest_first key (Db.insert_desc key x l).
Proof.
  unfold newest_first. induction 1 as [|y t Ht IH Hy]; cbn [Db.insert_desc].
  - constructor; constructor.
  - destruct (key y <=? key x)%Z eqn:E.
    + apply Z.leb_le in E. constructor.
      * constructor; assumption.
      * constructor; [exact E|].
        eapply Forall_impl; [|exact Hy]. cbv beta. intros a Ha. lia.
    + apply Z.leb_gt in E. constructor; [exact IH|].
      apply (Permutation_Forall (Permutation_sym (insert_desc_perm A key x t))).
      constructor; [lia|exact Hy].
Qed.

Lemma order_desc_sorted A (key : A -> Z) l :
  newest_first key (Db.order_desc key l).
Proof.
  induction l as [|x l IH]; cbn; [constructor|].
  apply insert_desc_sorted, IH.
Qed.

(* ===================================================================== *)
(** * The table of hotels *)
(* ===================================================================== *)

Lemma existsb_key_false (f : Db.Hotel -> jsstring) k l :
  existsb (fun x => jseqb (f x) k) l = false -> ~ In k (map f l).
Proof.
  intros H Hin. apply in_map_iff in Hin. destruct Hin as (x & Hx & Hin).
  assert (E : existsb (fun x => jseqb (f x) k) l = true).
  { apply existsb_exists. exists x. split; [exact Hin|].
    apply jseqb_eq. exact Hx. }
  congruence.
Qed.

Lemma existsb_key_true (f : Db.Hotel -> jsstring) k l :
  In k (map f l) -> existsb (fun x => jseqb (f x) k) l = true.
Proof.
  intro Hin. apply in_map_iff in Hin. destruct Hin as (x & Hx & Hin).
  apply existsb_exists. exists x. split; [exact Hin|].
  apply jseqb_eq. exact Hx.
Qed.

Lemma NoDup_snoc (A : Type) (l : list A) x :
  NoDup l -> ~ In x l -> NoDup (l ++ [x]).
Proof.
  intros Hl Hx. apply NoDup_app; [exact Hl|repeat constructor; cbn; tauto|].
  intros y Hy [<-|[]]. contradiction.
Qed.

Lemma find_fresh_last id0 l x :
  existsb (fun y => jseqb (Db.id y) id0) l = false -> Db.id x = id0 ->
  find (fun y => jseqb (Db.id y) id0) (l ++ [x]) = Some x.
Proof.
  intros Hl Hx. induction l as [|y l IH]; cbn [app find].
  - replace (jseqb (Db.id x) id0) with true
      by (symmetry; apply jseqb_eq; exact Hx).
    reflexivity.
  - cbn [existsb] in Hl. apply orb_false_iff in Hl. destruct Hl as [Hy Hl].
    rewrite Hy. apply IH, Hl.
Qed.

(** What one [INSERT] into [hotels] does to the table. *)
Lemma insert_hotel_cases W (h : Db.host W) or_ignore st id0 hid nm w :
  match Db.insert_hotel h or_ignore st id0 hid nm w with
  | (Ok st', _) =>
      (st' = st /\ or_ignore = true
       /\ existsb (fun x => jseqb (Db.id x) id0) (Db.hotels st)
          || existsb (fun x => jseqb (Db.hotelId x) hid) (Db.hotels st) = true)
      \/ (exists ts,
            st' = Db.Store
                    (Db.hotels st ++
                     [{| Db.id := id0; Db.hotelId := hid; Db.name := nm;
                         Db.createdAt := ts; Db.updatedAt := ts |}])
                    (Db.hotel_prices st)
            /\ existsb (fun x => jseqb (Db.id x) id0) (Db.hotels st) = false
            /\ existsb (fun x => jseqb (Db.hotelId x) hid) (Db.hotels st)
               = false)
  | (Throw _, _) =>
      fst (Db.driver_fault h w) <> None
      \/ (or_ignore = false
          /\ existsb (fun x => jseqb (Db.id x) id0) (Db.hotels st)
             || existsb (fun x => jseqb (Db.hotelId x) hid) (Db.hotels st)
             = true)
  end.
Proof.
  unfold Db.insert_hotel.
  destruct (Db.driver_fault h w) as [[e|] w1]; cbn [fst];
    [left; discriminate|].
  destruct (existsb (fun x => jseqb (Db.id x) id0) (Db.hotels st)) eqn:E1.
  - destruct or_ignore; [left|right]; auto.
  - destruct (existsb (fun x => jseqb (Db.hotelId x) hid) (Db.hotels st))
      eqn:E2.
    + destruct or_ignore; [left|right]; auto.
    + destruct (Db.current_timestamp h w1) as [ts w2].
      right. exists ts. auto.
Qed.

Lemma insert_hotel_keyed W (h : Db.host W) or_ignore st id0 hid nm w st' w' :
  well_keyed st ->
  Db.insert_hotel h or_ignore st id0 hid nm w = (Ok st', w') ->
  well_keyed st'.
Proof.
  intros (H1 & H2 & H3) E.
  pose proof (insert_hotel_cases W h or_ignore st id0 hid nm w) as Hc.
  rewrite E in Hc. destruct Hc as [(-> & _)|(ts & -> & F1 & F2)].
  - repeat split; assumption.
  - unfold well_keyed. cbn [Db.hotels Db.hotel_prices].
    rewrite !map_app. cbn [map Db.id Db.hotelId].
    split; [|split; [|exact H3]]; apply NoDup_snoc; auto;
      apply existsb_key_false; assumption.
Qed.

(** X17.  A hotel that [addHotel] has added is found by [getHotel] under
    the id that [addHotel] returned, with the name and the WebBeds id it
    was given.  A hotel whose WebBeds id is already in the table is not
    added: the call throws ["Failed to add hotel: ..."] and the table
    stays as it was. *)
Theorem addHotel_then_getHotel :
  (forall W (h : Db.host W) st name hotelId w hotel db' w',
      Db.addHotel h (Some st) name hotelId w = (Ok hotel, db', w') ->
      Db.name hotel = name /\ Db.hotelId hotel = hotelId
      /\ forall w2,
           fst (Db.driver_fault h w2) = None ->
           exists x,
             fst (Db.getHotel h db' (Db.id hotel) w2) = Ok (Some x)
             /\ Db.id x = Db.id hotel /\ Db.name x = name
             /\ Db.hotelId x = hotelId)
  /\ (forall W (h : Db.host W) st name hotelId w,
      In hotelId (map Db.hotelId (Db.hotels st)) ->
      exists e w',
        Db.addHotel h (Some st) name hotelId w
        = (Throw (lit "Failed to add hotel: " ++ e), Some st, w')).
Proof.
  split.
  - intros W h st name hotelId w hotel db' w'. unfold Db.addHotel.
    destruct (Db.date_now h w) as [now w1].
    pose proof (insert_hotel_cases W h false st (lit "hotel_" ++ Z_digits now)
                  hotelId name w1) as Hc.
    destruct (Db.insert_hotel h false st _ hotelId name w1) as [[st'|e] w2];
      [|discriminate].
    destruct (Db.date_now h w2) as [t1 w3].
    destruct (Db.date_now h w3) as [t2 w4].
    intro H. injection H as <- <- <-.
    cbn [Db.name Db.hotelId Db.id].
    split; [reflexivity|]. split; [reflexivity|].
    intros w2' Hs. unfold Db.getHotel.
    destruct (Db.driver_fault h w2') as [[e|] w5]; cbn [fst] in Hs;
      [discriminate|].
    destruct Hc as [(_ & Hf & _)|(ts & -> & F1 & F2)]; [discriminate|].
    cbn [Db.hotels fst]. eexists. split.
    + f_equal. apply find_fresh_last; [exact F1|reflexivity].
    + repeat split.
  - intros W h st name hotelId w Hin. unfold Db.addHotel.
    destruct (Db.date_now h w) as [now w1].
    pose proof (insert_hotel_cases W h false st (lit "hotel_" ++ Z_digits now)
                  hotelId name w1) as Hc.
    destruct (Db.insert_hotel h false st _ hotelId name w1) as [[st'|e] w2].
    + destruct Hc as [(_ & Hf & _)|(ts & _ & _ & F2)]; [discriminate|].
      rewrite (existsb_key_true Db.hotelId hotelId _ Hin) in F2. discriminate.
    + eexists _, _. reflexivity.
Qed.

Lemma addHotel_then_getHotel_witness :
  (exists hotel st' x,
      Db.addHotel sample_driver (Some sample_store) (lit "Hilton Makkah")
        (lit "777") tt = (Ok hotel, Some st', tt)
      /\ Db.id hotel = lit "hotel_1703500000000"
      /\ fst (Db.getHotel sample_driver (Some st') (Db.id hotel) tt)
         = Ok (Some x)
      /\ Db.name x = lit "Hilton Makkah" /\ Db.hotelId x = lit "777")
  /\ In (lit "2490015") (map Db.hotelId (Db.hotels sample_store))
  /\ exists e w',
       Db.addHotel sample_driver (Some sample_store) (lit "Al Dana")
         (lit "2490015") tt
       = (Throw (lit "Failed to add hotel: " ++ e), Some sample_store, w').
Proof.
  split; [|split].
  - destruct (Db.addHotel sample_driver (Some sample_store)
                (lit "Hilton Makkah") (lit "777") tt)
      as [[[hotel|e] db'] w'] eqn:E; [|vm_compute in E; discriminate].
    destruct (proj1 addHotel_then_getHotel unit sample_driver sample_store
                (lit "Hilton Makkah") (lit "777") tt hotel db' w' E)
      as (H1 & H2 & H3).
    destruct (H3 tt eq_refl) as (x & Hx & _ & Hn & Hh).
    destruct db' as [st'|]; [|vm_compute in E; discriminate].
    destruct w'. exists hotel, st', x.
    split; [reflexivity|].
    split; [vm_compute in E; injection E as <- _; reflexivity|].
    split; [exact Hx|]. split; assumption.
  - left. reflexivity.
  - apply (proj2 addHotel_then_getHotel unit sample_driver sample_store).
    left. reflexivity.
Defined.

(** ** The keys stay distinct *)

Lemma filter_keeps_keys (f : Db.Hotel -> jsstring) q l :
  NoDup (map f l) -> NoDup (map f (filter q l)).
Proof. apply NoDup_filter_map. Qed.

Lemma insertPredefinedHotels_loop_keyed W (h : Db.host W) rest :
  forall st w,
    well_keyed st ->
    well_keyed (fst (Db.insertPredefinedHotels_loop h st rest w)).
Proof.
  induction rest as [|[hid nm] rest IH]; intros st w Hk;
    cbn [Db.insertPredefinedHotels_loop]; [exact Hk|].
  destruct (Db.insert_hotel h true st _ hid nm w) as [[st'|e] w1] eqn:E.
  - apply IH. apply (insert_hotel_keyed W h true st _ hid nm w st' w1 Hk E).
  - apply IH, Hk.
Qed.

Lemma insert_price_keyed W (h : Db.host W) st id0 obs w st' w' :
  well_keyed st ->
  Db.insert_price h st id0 obs w = (Ok st', w') -> well_keyed st'.
Proof.
  intros (H1 & H2 & H3). unfold Db.insert_price.
  destruct (Db.driver_fault h w) as [[e|] w1]; [discriminate|].
  destruct (existsb (fun p => jseqb (Db.p_id p) id0) (Db.hotel_prices st))
    eqn:E; [discriminate|].
  destruct (isNaN (Db.o_price obs)); [discriminate|].
  destruct (Db.current_timestamp h w1) as [ts w2].
  intro H. injection H as <- _.
  unfold well_keyed. cbn [Db.hotels Db.hotel_prices].
  split; [exact H1|]. split; [exact H2|].
  rewrite map_app. cbn [map Db.p_id]. apply NoDup_snoc; [exact H3|].
  intro Hin. apply in_map_iff in Hin. destruct Hin as (p & Hp & Hin).
  assert (Ht : existsb (fun p => jseqb (Db.p_id p) id0) (Db.hotel_prices st)
               = true).
  { apply existsb_exists. exists p. split; [exact Hin|].
    apply jseqb_eq. exact Hp. }
  congruence.
Qed.

(** X18.  The operations of the database keep the keys that the schema
    declares distinct: in a store where no two hotels share an [id] or a
    [hotel_id] and no two prices share an [id], this still holds after
    [addHotel], [deleteHotel], [saveHotelPrice] and
    [insertPredefinedHotels], whether they succeed or fail. *)
Theorem database_keeps_keys_distinct :
  forall W (h : Db.host W) st,
    well_keyed st ->
    (forall name hotelId w,
        handle_well_keyed (snd (fst (Db.addHotel h (Some st) name hotelId w))))
    /\ (forall id w,
        handle_well_keyed (snd (fst (Db.deleteHotel h (Some st) id w))))
    /\ (forall obs w,
        handle_well_keyed (snd (fst (Db.saveHotelPrice h (Some st) obs w))))
    /\ (forall w,
        handle_well_keyed (snd (fst (Db.insertPredefinedHotels h (Some st) w)))).
Proof.
  intros W h st Hk. split; [|split; [|split]].
  - intros name hotelId w. unfold Db.addHotel.
    destruct (Db.date_now h w) as [now w1].
    destruct (Db.insert_hotel h false st _ hotelId name w1) as [[st'|e] w2]
      eqn:E.
    + destruct (Db.date_now h w2) as [t1 w3].
      destruct (Db.date_now h w3) as [t2 w4]. cbn [fst snd handle_well_keyed].
      apply (insert_hotel_keyed W h false st _ hotelId name w1 st' w2 Hk E).
    + exact Hk.
  - intros id w. unfold Db.deleteHotel.
    destruct (Db.driver_fault h w) as [[e|] w1]; [exact Hk|].
    cbn [fst snd handle_well_keyed]. destruct Hk as (H1 & H2 & H3).
    unfold well_keyed. cbn [Db.hotels Db.hotel_prices].
    split; [|split; [|exact H3]]; apply filter_keeps_keys; assumption.
  - intros obs w. unfold Db.saveHotelPrice.
    destruct (Db.date_now h w) as [now w1].
    destruct (Db.insert_price h st _ obs w1) as [[st'|e] w2] eqn:E.
    + apply (insert_price_keyed W h st _ obs w1 st' w2 Hk E).
    + exact Hk.
  - intro w. unfold Db.insertPredefinedHotels.
    pose proof (insertPredefinedHotels_loop_keyed W h Db.predefinedHotels
                  st w Hk) as H.
    destruct (Db.insertPredefinedHotels_loop h st Db.predefinedHotels w)
      as [st' w1].
    exact H.
Qed.

Lemma database_keeps_keys_distinct_witness :
  well_keyed sample_store
  /\ handle_well_keyed
       (snd (fst (Db.addHotel sample_driver (Some sample_store)
                    (lit "Hilton Makkah") (lit "777") tt)))
  /\ handle_well_keyed
       (snd (fst (Db.insertPredefinedHotels sample_driver
                    (Some sample_store) tt))).
Proof.
  assert (H : well_keyed sample_store).
  { repeat split; cbn; repeat constructor; cbn; tauto. }
  split; [exact H|]. split.
  - apply (proj1 (database_keeps_keys_distinct unit sample_driver
                    sample_store H)).
  - apply (proj2 (proj2 (proj2 (database_keeps_keys_distinct unit
                                  sample_driver sample_store H)))).
Defined.

(* ===================================================================== *)
(** * The predefined hotels *)
(* ===================================================================== *)

Lemma known_grows st st' added hid :
  Db.hotels st' = Db.hotels st ++ added ->
  known st hid = true -> known st' hid = true.
Proof.
  unfold known. intros -> H. rewrite !existsb_app.
  apply orb_prop in H. destruct H as [H|H]; rewrite H;
    cbn [orb]; [reflexivity|]. rewrite orb_true_r. reflexivity.
Qed.

Lemma insert_or_ignore W (h : Db.host W) st hid nm w :
  sound_driver h ->
  exists st' w',
    Db.insert_hotel h true st (lit "hotel_" ++ hid) hid nm w = (Ok st', w')
    /\ known st' hid = true
    /\ (known st hid = true -> st' = st)
    /\ (known st hid = false ->
        exists x, Db.hotels st' = Db.hotels st ++ [x]
                  /\ Db.id x = lit "hotel_" ++ hid
                  /\ Db.hotelId x = hid /\ Db.name x = nm)
    /\ (exists added, Db.hotels st' = Db.hotels st ++ added)
    /\ Db.hotel_prices st' = Db.hotel_prices st.
Proof.
  intro Hs.
  pose proof (insert_hotel_cases W h true st (lit "hotel_" ++ hid) hid nm w)
    as Hc.
  destruct (Db.insert_hotel h true st _ hid nm w) as [[st'|e] w'].
  - exists st', w'. split; [reflexivity|].
    destruct Hc as [(-> & _ & Hk)|(ts & -> & F1 & F2)].
    + fold (known st hid) in Hk. split; [exact Hk|]. split; [auto|].
      split; [congruence|]. split; [exists []; rewrite app_nil_r|]; reflexivity.
    + assert (Hn : known st hid = false) by (unfold known; rewrite F1, F2; reflexivity).
      split; [|split; [congruence|split; [|split]]].
      * unfold known. cbn [Db.hotels]. rewrite existsb_app. cbn [existsb Db.id].
        replace (jseqb (lit "hotel_" ++ hid) (lit "hotel_" ++ hid)) with true
          by (symmetry; apply jseqb_eq; reflexivity).
        rewrite orb_true_r. reflexivity.
      * intros _. eexists. cbn [Db.hotels]. split; [reflexivity|].
        repeat split.
      * eexists. reflexivity.
      * reflexivity.
  - exfalso. destruct Hc as [Hc|[Hc _]]; [|discriminate].
    apply Hc, Hs.
Qed.

Lemma predefined_loop W (h : Db.host W) :
  sound_driver h ->
  forall rest st w,
    (exists added,
        Db.hotels (fst (Db.insertPredefinedHotels_loop h st rest w))
        = Db.hotels st ++ added)
    /\ Db.hotel_prices (fst (Db.insertPredefinedHotels_loop h st rest w))
       = Db.hotel_prices st
    /\ (forall hid nm, In (hid, nm) rest ->
          known (fst (Db.insertPredefinedHotels_loop h st rest w)) hid = true).
Proof.
  intro Hs. induction rest as [|[hid nm] rest IH]; intros st w;
    cbn [Db.insertPredefinedHotels_loop].
  - split; [exists []; rewrite app_nil_r; reflexivity|].
    split; [reflexivity|]. intros hid nm [].
  - destruct (insert_or_ignore W h st hid nm w Hs)
      as (st' & w' & -> & Hk & _ & _ & (added & Ha) & Hp).
    destruct (IH st' w') as ((added' & Ha') & Hp' & Hk').
    split; [|split].
    + exists (added ++ added'). rewrite Ha', Ha, app_assoc. reflexivity.
    + rewrite Hp', Hp. reflexivity.
    + intros hid0 nm0 [E|Hin].
      * injection E as <- <-.
        apply (known_grows st' _ added' hid Ha' Hk).
      * apply (Hk' hid0 nm0 Hin).
Qed.

Lemma predefined_loop_fixed W (h : Db.host W) :
  sound_driver h ->
  forall rest st w,
    (forall hid nm, In (hid, nm) rest -> known st hid = true) ->
    fst (Db.insertPredefinedHotels_loop h st rest w) = st.
Proof.
  intro Hs. induction rest as [|[hid nm] rest IH]; intros st w Hk;
    cbn [Db.insertPredefinedHotels_loop]; [reflexivity|].
  destruct (insert_or_ignore W h st hid nm w Hs)
    as (st' & w' & -> & _ & Hsame & _).
  rewrite (Hsame (Hk hid nm (or_introl eq_refl))).
  apply IH. intros hid0 nm0 Hin. apply (Hk hid0 nm0). right. exact Hin.
Qed.

Lemma known_after_insert st x hid0 hid :
  Db.id x = lit "hotel_" ++ hid0 -> Db.hotelId x = hid0 -> hid0 <> hid ->
  known st hid = false ->
  known (Db.Store (Db.hotels st ++ [x]) (Db.hotel_prices st)) hid = false.
Proof.
  intros Hi Hh Hne Hk. unfold known in *. cbn [Db.hotels].
  rewrite !existsb_app. cbn [existsb].
  apply orb_false_iff in Hk. destruct Hk as [-> ->]. cbn [orb].
  rewrite Hi, Hh.
  replace (jseqb (lit "hotel_" ++ hid0) (lit "hotel_" ++ hid)) with false.
  - replace (jseqb hid0 hid) with false; [reflexivity|].
    symmetry. destruct (jseqb hid0 hid) eqn:E; [|reflexivity].
    apply jseqb_eq in E. contradiction.
  - symmetry. destruct (jseqb _ _) eqn:E; [|reflexivity].
    apply jseqb_eq, app_inv_head in E. contradiction.
Qed.

Lemma predefined_loop_fresh W (h : Db.host W) :
  sound_driver h ->
  forall rest st w,
    NoDup (map fst rest) ->
    (forall hid nm, In (hid, nm) rest -> known st hid = false) ->
    exists rows,
      Db.hotels (fst (Db.insertPredefinedHotels_loop h st rest w))
      = Db.hotels st ++ rows
      /\ map (fun x => (Db.hotelId x, Db.name x)) rows = rest
      /\ map Db.id rows = map (fun p => lit "hotel_" ++ fst p) rest.
Proof.
  intro Hs. induction rest as [|[hid nm] rest IH]; intros st w Hn Hk;
    cbn [Db.insertPredefinedHotels_loop].
  - exists []. rewrite app_nil_r. repeat split.
  - destruct (insert_or_ignore W h st hid nm w Hs)
      as (st' & w' & -> & _ & _ & Hnew & _ & Hp).
    destruct (Hnew (Hk hid nm (or_introl eq_refl)))
      as (x & Hx & Hi & Hh & Hm).
    cbn [map fst] in Hn. apply NoDup_cons_iff in Hn. destruct Hn as [Hnin Hn].
    destruct (IH st' w' Hn) as (rows & Hr & Hr1 & Hr2).
    { intros hid0 nm0 Hin.
      assert (Hst : st' = Db.Store (Db.hotels st ++ [x]) (Db.hotel_prices st)).
      { destruct st' as [hs ps]. cbn [Db.hotels Db.hotel_prices] in Hx, Hp.
        subst. reflexivity. }
      rewrite Hst. apply (known_after_insert st x hid hid0 Hi Hh).
      - intro Heq. subst hid0. apply Hnin. apply in_map_iff.
        exists (hid, nm0). split; [reflexivity|exact Hin].
      - apply (Hk hid0 nm0). right. exact Hin. }
    exists (x :: rows). rewrite Hr, Hx, <- app_assoc. cbn [app map fst].
    rewrite Hr1, Hr2, Hi, Hh, Hm. repeat split.
Qed.

Lemma predefined_distinct : NoDup (map fst Db.predefinedHotels).
Proof.
  vm_compute. repeat constructor; cbn [In];
    intro H; repeat (destruct H as [H|H]; [discriminate H|]); exact H.
Qed.

(** X19.  With a driver that rejects no statement,
    [insertPredefinedHotels] only adds rows to the table of hotels and
    leaves the prices alone; afterwards every predefined hotel has a row
    under its key [hotel_<id>] or under its WebBeds id, so that running it
    again changes nothing ([INSERT OR IGNORE]).  On an empty table it
    inserts the nine hotels, in their order. *)
Theorem insertPredefinedHotels_idempotent :
  forall W (h : Db.host W) st w,
    sound_driver h ->
    exists st1 w1,
      Db.insertPredefinedHotels h (Some st) w = (Ok tt, Some st1, w1)
      /\ (exists added, Db.hotels st1 = Db.hotels st ++ added)
      /\ Db.hotel_prices st1 = Db.hotel_prices st
      /\ (forall hotel_id name,
            In (hotel_id, name) Db.predefinedHotels ->
            known st1 hotel_id = true)
      /\ (forall w2,
            fst (Db.insertPredefinedHotels h (Some st1) w2) = (Ok tt, Some st1))
      /\ (Db.hotels st = [] ->
          map (fun x => (Db.hotelId x, Db.name x)) (Db.hotels st1)
          = Db.predefinedHotels
          /\ map Db.id (Db.hotels st1)
             = map (fun p => lit "hotel_" ++ fst p) Db.predefinedHotels).
Proof.
  intros W h st w Hs. unfold Db.insertPredefinedHotels.
  destruct (predefined_loop W h Hs Db.predefinedHotels st w)
    as (Ha & Hp & Hk).
  pose proof (predefined_loop_fresh W h Hs Db.predefinedHotels st w
                predefined_distinct) as Hf.
  destruct (Db.insertPredefinedHotels_loop h st Db.predefinedHotels w)
    as [st1 w1] eqn:E.
  cbn [fst] in *. exists st1, w1.
  split; [reflexivity|]. split; [exact Ha|]. split; [exact Hp|].
  split; [exact Hk|]. split.
  - intro w2.
    pose proof (predefined_loop_fixed W h Hs Db.predefinedHotels st1 w2 Hk)
      as Hfix.
    destruct (Db.insertPredefinedHotels_loop h st1 Db.predefinedHotels w2)
      as [st2 w3].
    cbn [fst] in *. subst st2. reflexivity.
  - intro He. destruct Hf as (rows & Hr & Hr1 & Hr2).
    + intros hid nm _. unfold known. rewrite He. reflexivity.
    + rewrite Hr, He. cbn [app]. split; assumption.
Qed.

Lemma insertPredefinedHotels_idempotent_witness :
  sound_driver sample_driver
  /\ exists st1 w1,
       Db.insertPredefinedHotels sample_driver (Some sample_store) tt
       = (Ok tt, Some st1, w1)
       /\ (exists added, Db.hotels st1 = Db.hotels sample_store ++ added)
       /\ Db.hotel_prices st1 = Db.hotel_prices sample_store
       /\ (forall hotel_id name,
             In (hotel_id, name) Db.predefinedHotels ->
             known st1 hotel_id = true)
       /\ (forall w2,
             fst (Db.insertPredefinedHotels sample_driver (Some st1) w2)
             = (Ok tt, Some st1))
       /\ (Db.hotels sample_store = [] ->
           map (fun x => (Db.hotelId x, Db.name x)) (Db.hotels st1)
           = Db.predefinedHotels
           /\ map Db.id (Db.hotels st1)
              = map (fun p => lit "hotel_" ++ fst p) Db.predefinedHotels).
Proof.
  assert (H : sound_driver sample_driver) by (intro w; reflexivity).
  split; [exact H|].
  apply (insertPredefinedHotels_idempotent unit sample_driver sample_store tt H).
Defined.

(* ===================================================================== *)
(** * Deleting a hotel *)
(* ===================================================================== *)

Lemma filter_out_length (A : Type) (q : A -> bool) l :
  (0 <? length l - length (filter (fun x => negb (q x)) l))%nat = existsb q l.
Proof.
  assert (H : (length (filter (fun x => negb (q x)) l) <= length l)%nat
              /\ (existsb q l = true
                  <-> (length (filter (fun x => negb (q x)) l) < length l)%nat)).
  { induction l as [|x l [IH1 IH2]]; cbn [filter existsb length].
    - split; [lia|]. split; [discriminate|lia].
    - destruct (q x); cbn [negb orb length].
      + split; [lia|]. split; [lia|reflexivity].
      + split; [lia|]. rewrite IH2. lia. }
  destruct H as [H1 H2]. destruct (existsb q l).
  - apply Nat.ltb_lt. assert (H := proj1 H2 eq_refl). lia.
  - apply Nat.ltb_ge.
    assert (~ (length (filter (fun x => negb (q x)) l) < length l)%nat).
    { intro H. apply H2 in H. discriminate. }
    lia.
Qed.

Lemma find_filtered_out (q : Db.Hotel -> bool) l :
  find q (filter (fun x => negb (q x)) l) = None.
Proof.
  induction l as [|x l IH]; cbn [filter]; [reflexivity|].
  destruct (q x) eqn:E; cbn [negb]; [exact IH|].
  cbn [find]. rewrite E. exact IH.
Qed.

(** X20.  [deleteHotel] answers [true] exactly when a hotel with the id
    was in the table; afterwards [getHotel] finds no hotel under the id,
    every other hotel is still there, and the prices are untouched, those
    recorded for the deleted hotel included. *)
Theorem deleteHotel_then_getHotel :
  forall W (h : Db.host W) st id w,
    fst (Db.driver_fault h w) = None ->
    exists st' w',
      Db.deleteHotel h (Some st) id w
      = (Ok (existsb (fun x => jseqb (Db.id x) id) (Db.hotels st)),
         Some st', w')
      /\ (forall w2, fst (Db.driver_fault h w2) = None ->
                     fst (Db.getHotel h (Some st') id w2) = Ok None)
      /\ (forall x, In x (Db.hotels st')
                    <-> In x (Db.hotels st) /\ Db.id x <> id)
      /\ Db.hotel_prices st' = Db.hotel_prices st.
Proof.
  intros W h st id w Hs. unfold Db.deleteHotel.
  destruct (Db.driver_fault h w) as [[e|] w1]; cbn [fst] in Hs;
    [discriminate|].
  eexists _, _. split; [|split; [|split]].
  - rewrite filter_out_length. reflexivity.
  - intros w2 Hs2. unfold Db.getHotel.
    destruct (Db.driver_fault h w2) as [[e|] w3]; cbn [fst] in Hs2;
      [discriminate|].
    cbn [fst Db.hotels]. rewrite find_filtered_out. reflexivity.
  - intro x. cbn [Db.hotels]. rewrite filter_In. split.
    + intros [Hin Hq]. split; [exact Hin|]. intros He.
      apply negb_true_iff in Hq.
      assert (jseqb (Db.id x) id = true) by (apply jseqb_eq; exact He).
      congruence.
    + intros [Hin Hne]. split; [exact Hin|]. apply negb_true_iff.
      destruct (jseqb (Db.id x) id) eqn:E; [|reflexivity].
      apply jseqb_eq in E. contradiction.
  - reflexivity.
Qed.

Lemma deleteHotel_then_getHotel_witness :
  fst (Db.driver_fault sample_driver tt) = None
  /\ exists st' w',
       Db.deleteHotel sample_driver (Some sample_store) (lit "hotel_2490015")
         tt
       = (Ok (existsb (fun x => jseqb (Db.id x) (lit "hotel_2490015"))
                (Db.hotels sample_store)), Some st', w')
       /\ (forall w2, fst (Db.driver_fault sample_driver w2) = None ->
                      fst (Db.getHotel sample_driver (Some st')
                             (lit "hotel_2490015") w2) = Ok None)
       /\ (forall x, In x (Db.hotels st')
                     <-> In x (Db.hotels sample_store)
                         /\ Db.id x <> lit "hotel_2490015")
       /\ Db.hotel_prices st' = Db.hotel_prices sample_store.
Proof.
  split; [reflexivity|].
  apply (deleteHotel_then_getHotel unit sample_driver sample_store
           (lit "hotel_2490015") tt).
  reflexivity.
Defined.

(* ===================================================================== *)
(** * The history of prices *)
(* ===================================================================== *)

Lemma history_rows W (h : Db.host W) st hotelId limit w :
  fst (Db.driver_fault h w) = None ->
  fst (Db.getHotelPriceHistory h (Some st) hotelId limit w)
  = Ok (let prices :=
          Db.order_desc Db.recordedAt
            (filter (fun p => jseqb (Db.p_hotelId p) hotelId)
               (Db.hotel_prices st)) in
        if (limit <? 0)%Z then prices else firstn (Z.to_nat limit) prices).
Proof.
  intro Hs. unfold Db.getHotelPriceHistory.
  destruct (Db.driver_fault h w) as [[e|] w1]; cbn [fst] in Hs;
    [discriminate|reflexivity].
Qed.

(** X21.  [getHotelPriceHistory] returns observations of the hotel asked
    for and of no other, the newest first.  With a limit of [n >= 0] it
    returns the [n] newest (all of them when there are fewer), so every
    observation left out was recorded no later than every one returned;
    with a negative limit it returns them all. *)
Theorem getHotelPriceHistory_newest_first :
  forall W (h : Db.host W) st hotelId limit w,
    fst (Db.driver_fault h w) = None ->
    exists l rest,
      fst (Db.getHotelPriceHistory h (Some st) hotelId limit w) = Ok l
      /\ Permutation (l ++ rest)
           (filter (fun p => jseqb (Db.p_hotelId p) hotelId)
              (Db.hotel_prices st))
      /\ Forall (fun p => In p (Db.hotel_prices st)
                          /\ Db.p_hotelId p = hotelId) l
      /\ newest_first Db.recordedAt (l ++ rest)
      /\ ((limit < 0)%Z -> rest = [])
      /\ ((0 <= limit)%Z ->
          length l = Nat.min (Z.to_nat limit) (length (l ++ rest))).
Proof.
  intros W h st hotelId limit w Hs.
  rewrite (history_rows W h st hotelId limit w Hs). cbv zeta.
  set (prices := Db.order_desc Db.recordedAt _).
  assert (Hperm : Permutation prices
                    (filter (fun p => jseqb (Db.p_hotelId p) hotelId)
                       (Db.hotel_prices st)))
    by apply order_desc_perm.
  assert (Hsort : newest_first Db.recordedAt prices)
    by apply order_desc_sorted.
  assert (Hall : Forall (fun p => In p (Db.hotel_prices st)
                                  /\ Db.p_hotelId p = hotelId) prices).
  { apply Forall_forall. intros p Hp.
    apply (Permutation_in _ Hperm) in Hp. apply filter_In in Hp.
    destruct Hp as [Hin Hq]. split; [exact Hin|]. apply jseqb_eq, Hq. }
  destruct (limit <? 0)%Z eqn:E.
  - apply Z.ltb_lt in E. exists prices, []. rewrite app_nil_r.
    split; [reflexivity|]. split; [exact Hperm|]. split; [exact Hall|].
    split; [exact Hsort|]. split; [reflexivity|lia].
  - apply Z.ltb_ge in E.
    exists (firstn (Z.to_nat limit) prices), (skipn (Z.to_nat limit) prices).
    rewrite firstn_skipn.
    split; [reflexivity|]. split; [exact Hperm|].
    split; [|split; [exact Hsort|split; [lia|]]].
    + rewrite <- (firstn_skipn (Z.to_nat limit) prices) in Hall.
      apply Forall_app in Hall. apply Hall.
    + intros _. apply length_firstn.
Qed.

Lemma getHotelPriceHistory_newest_first_witness :
  fst (Db.driver_fault sample_driver tt) = None
  /\ exists l rest,
       fst (Db.getHotelPriceHistory sample_driver (Some priced_store)
              (lit "2490015") 30 tt) = Ok l
       /\ Permutation (l ++ rest)
            (filter (fun p => jseqb (Db.p_hotelId p) (lit "2490015"))
               (Db.hotel_prices priced_store))
       /\ Forall (fun p => In p (Db.hotel_prices priced_store)
                           /\ Db.p_hotelId p = lit "2490015") l
       /\ newest_first Db.recordedAt (l ++ rest)
       /\ ((30 < 0)%Z -> rest = [])
       /\ ((0 <= 30)%Z ->
           length l = Nat.min (Z.to_nat 30) (length (l ++ rest))).
Proof.
  split; [reflexivity|].
  apply (getHotelPriceHistory_newest_first unit sample_driver priced_store
           (lit "2490015") 30 tt).
  reflexivity.
Defined.

(* ===================================================================== *)
(** * Saving and reading back *)
(* ===================================================================== *)

Lemma insert_price_cases W (h : Db.host W) st id0 obs w :
  match Db.insert_price h st id0 obs w with
  | (Ok st', _) =>
      exists ts,
        st' = Db.Store (Db.hotels st)
                (Db.hotel_prices st ++
                 [{| Db.p_id := id0; Db.p_hotelId := Db.o_hotelId obs;
                     Db.price := Db.o_price obs;
                     Db.currency := Db.o_currency obs;
                     Db.checkInDate := Db.o_checkIn obs;
                     Db.checkOutDate := Db.o_checkOut obs;
                     Db.recordedAt := ts |}])
        /\ fst (Db.driver_fault h w) = None
        /\ existsb (fun p => jseqb (Db.p_id p) id0) (Db.hotel_prices st) = false
        /\ isNaN (Db.o_price obs) = false
  | (Throw _, _) =>
      fst (Db.driver_fault h w) <> None
      \/ existsb (fun p => jseqb (Db.p_id p) id0) (Db.hotel_prices st) = true
      \/ isNaN (Db.o_price obs) = true
  end.
Proof.
  unfold Db.insert_price.
  destruct (Db.driver_fault h w) as [[e|] w1]; cbn [fst];
    [left; discriminate|].
  destruct (existsb _ (Db.hotel_prices st)); [right; left; reflexivity|].
  destruct (isNaN (Db.o_price obs)); [right; right; reflexivity|].
  destruct (Db.current_timestamp h w1) as [ts w2].
  exists ts. repeat split.
Qed.



(** ** Two saves in one millisecond *)

Lemma saveHotelPrice_collision W (h : Db.host W) st obs w :
  existsb (fun p => jseqb (Db.p_id p)
                      (lit "price_" ++ Z_digits (fst (Db.date_now h w))))
    (Db.hotel_prices st) = true ->
  fst (Db.saveHotelPrice h (Some st) obs w) = (Ok tt, Some st).
Proof.
  intro Hf. unfold Db.saveHotelPrice.
  destruct (Db.date_now h w) as [now w0]. cbn [fst] in Hf.
  pose proof (insert_price_cases W h st (lit "price_" ++ Z_digits now) obs w0)
    as Hc.
  destruct (Db.insert_price h st _ obs w0) as [[st'|e] w1]; [|reflexivity].
  destruct Hc as (ts & _ & _ & Hc & _). congruence.
Qed.

Lemma saveHotelPrice_adds W (h : Db.host W) st obs w :
  exists st',
    fst (Db.saveHotelPrice h (Some st) obs w) = (Ok tt, Some st')
    /\ Db.hotels st' = Db.hotels st
    /\ (st' = st
        \/ exists p,
             Db.hotel_prices st' = Db.hotel_prices st ++ [p]
             /\ Db.p_id p = lit "price_" ++ Z_digits (fst (Db.date_now h w))).
Proof.
  unfold Db.saveHotelPrice.
  destruct (Db.date_now h w) as [now w0]. cbn [fst].
  pose proof (insert_price_cases W h st (lit "price_" ++ Z_digits now) obs w0)
    as Hc.
  destruct (Db.insert_price h st _ obs w0) as [[st'|e] w1].
  - destruct Hc as (ts & -> & _). eexists. split; [reflexivity|].
    split; [reflexivity|]. right. eexists. split; reflexivity.
  - exists st. split; [reflexivity|]. split; [reflexivity|]. left. reflexivity.
Qed.

Lemma save_all_frozen W (hd : Db.host W) t :
  (forall w, fst (Db.date_now hd w) = t) ->
  forall results st w,
    exists st' added,
      fst (Routes.save_all hd (Some st) results w) = (Ok tt, Some st')
      /\ Db.hotels st' = Db.hotels st
      /\ Db.hotel_prices st' = Db.hotel_prices st ++ added
      /\ (length added <= 1)%nat
      /\ (existsb (fun p => jseqb (Db.p_id p) (lit "price_" ++ Z_digits t))
            (Db.hotel_prices st) = true -> added = []).
Proof.
  intro Hclock. induction results as [|r rest IH]; intros st w;
    cbn [Routes.save_all].
  - exists st, []. rewrite app_nil_r. repeat split; auto.
  - set (obs := Routes.observation_of r (V1.hotelId r)).
    destruct (saveHotelPrice_adds W hd st obs w) as (st1 & E & Hh & Hcase).
    pose proof (saveHotelPrice_collision W hd st obs w) as Hcol.
    rewrite Hclock in Hcol.
    destruct (Db.saveHotelPrice hd (Some st) obs w) as [[r1 d1] w1].
    cbn [fst] in E, Hcol. injection E as -> ->.
    destruct (IH st1 w1) as (st' & added & E' & Hh' & Hp' & Hl' & Hz').
    destruct Hcase as [->|(p & Hp & Hid)].
    + exists st', added. repeat split; assumption.
    + rewrite Hclock in Hid.
      assert (Hex : existsb (fun p0 => jseqb (Db.p_id p0)
                                         (lit "price_" ++ Z_digits t))
                      (Db.hotel_prices st1) = true).
      { rewrite Hp, existsb_app. cbn [existsb].
        replace (jseqb (Db.p_id p) (lit "price_" ++ Z_digits t)) with true
          by (symmetry; apply jseqb_eq; exact Hid).
        rewrite orb_true_r. reflexivity. }
      specialize (Hz' Hex). subst added. rewrite app_nil_r in Hp'.
      exists st', [p]. split; [exact E'|]. split; [congruence|].
      split; [congruence|]. split; [cbn; lia|].
      intro Hold. specialize (Hcol Hold). injection Hcol as Heq.
      rewrite Heq in Hp. exfalso.
      apply (f_equal (@length Db.HotelPrice)) in Hp.
      rewrite length_app in Hp. cbn in Hp. lia.
Qed.

(** X23.  The key of a saved price is [price_<Date.now()>]: a save made
    while the table already holds a row with the key of the present
    millisecond stores nothing and still returns normally.  So the loop
    of the search route, which saves its results one after the other,
    stores at most one of them while the clock shows the same
    millisecond, however many results there are. *)
Theorem saves_in_one_millisecond_collide :
  (forall W (h : Db.host W) st obs w,
      existsb (fun p => jseqb (Db.p_id p)
                          (lit "price_" ++ Z_digits (fst (Db.date_now h w))))
        (Db.hotel_prices st) = true ->
      fst (Db.saveHotelPrice h (Some st) obs w) = (Ok tt, Some st))
  /\ (forall W (hd : Db.host W) t results st w,
      (forall w0, fst (Db.date_now hd w0) = t) ->
      exists st' added,
        fst (Routes.save_all hd (Some st) results w) = (Ok tt, Some st')
        /\ Db.hotels st' = Db.hotels st
        /\ Db.hotel_prices st' = Db.hotel_prices st ++ added
        /\ (length added <= 1)%nat).
Proof.
  split; [exact saveHotelPrice_collision|].
  intros W hd t results st w Hclock.
  destruct (save_all_frozen W hd t Hclock results st w)
    as (st' & added & H1 & H2 & H3 & H4 & _).
  exists st', added. repeat split; assumption.
Qed.

Lemma saves_in_one_millisecond_collide_witness :
  (forall w0, fst (Db.date_now sample_driver w0) = 1703500000000%Z)
  /\ (exists row,
        fst (Routes.save_all sample_driver (Some sample_store)
               [ {| V1.hotelId := lit "2490015"; V1.hotelName := lit "Al Dana";
                    V1.price := number_of_N 250; V1.currency := lit "USD";
                    V1.checkIn := lit "2024-12-25";
                    V1.checkOut := lit "2024-12-26";
                    V1.rating := None; V1.image := None; V1.url := [] |};
                 {| V1.hotelId := lit "22074"; V1.hotelName := lit "Elaf Ajyad";
                    V1.price := number_of_N 180; V1.currency := lit "USD";
                    V1.checkIn := lit "2024-12-25";
                    V1.checkOut := lit "2024-12-26";
                    V1.rating := None; V1.image := None; V1.url := [] |} ] tt)
        = (Ok tt, Some (Db.Store [sample_hotel] [row]))
        /\ Db.p_hotelId row = lit "2490015")
  /\ exists st' added,
       fst (Routes.save_all sample_driver (Some sample_store)
              [ {| V1.hotelId := lit "2490015"; V1.hotelName := lit "Al Dana";
                   V1.price := number_of_N 250; V1.currency := lit "USD";
                   V1.checkIn := lit "2024-12-25";
                   V1.checkOut := lit "2024-12-26";
                   V1.rating := None; V1.image := None; V1.url := [] |};
                {| V1.hotelId := lit "22074"; V1.hotelName := lit "Elaf Ajyad";
                   V1.price := number_of_N 180; V1.currency := lit "USD";
                   V1.checkIn := lit "2024-12-25";
                   V1.checkOut := lit "2024-12-26";
                   V1.rating := None; V1.image := None; V1.url := [] |} ] tt)
       = (Ok tt, Some st')
       /\ Db.hotels st' = Db.hotels sample_store
       /\ Db.hotel_prices st' = Db.hotel_prices sample_store ++ added
       /\ (length added <= 1)%nat.
Proof.
  assert (H : forall w0, fst (Db.date_now sample_driver w0) = 1703500000000%Z)
    by (intro w0; reflexivity).
  split; [exact H|]. split.
  - eexists. split; [vm_compute; reflexivity|reflexivity].
  - apply (proj2 saves_in_one_millisecond_collide unit sample_driver
             1703500000000%Z _ sample_store tt H).
Defined.

(* ===================================================================== *)
(** * Listing the hotels *)
(* ===================================================================== *)

(** X24.  [getAllHotels] returns every hotel of the table exactly once,
    the one created last first. *)
Theorem getAllHotels_lists_every_hotel :
  forall W (h : Db.host W) st w,
    fst (Db.driver_fault h w) = None ->
    exists l,
      fst (Db.getAllHotels h (Some st) w) = Ok l
      /\ Permutation l (Db.hotels st)
      /\ newest_first Db.createdAt l.
Proof.
  intros W h st w Hs. unfold Db.getAllHotels.
  destruct (Db.driver_fault h w) as [[e|] w1]; cbn [fst] in Hs;
    [discriminate|].
  eexists. split; [reflexivity|].
  split; [apply order_desc_perm|apply order_desc_sorted].
Qed.

Lemma getAllHotels_lists_every_hotel_witness :
  fst (Db.driver_fault sample_driver tt) = None
  /\ exists l,
       fst (Db.getAllHotels sample_driver (Some sample_store) tt) = Ok l
       /\ Permutation l (Db.hotels sample_store)
       /\ newest_first Db.createdAt l.
Proof.
  split; [reflexivity|].
  apply (getAllHotels_lists_every_hotel unit sample_driver sample_store tt).
  reflexivity.
Defined.

(* ===================================================================== *)
(** * The key of the join *)
(* ===================================================================== *)

Lemma flat_map_ext_in (A B : Type) (f g : A -> list B) l :
  (forall x, In x l -> f x = g x) -> flat_map f l = flat_map g l.
Proof.
  induction l as [|x l IH]; intro H; cbn [flat_map]; [reflexivity|].
  rewrite (H x (or_introl eq_refl)), IH; [reflexivity|].
  intros y Hy. apply H. right. exact Hy.
Qed.

Lemma left_join_foreign st p :
  (forall x, In x (Db.hotels st) -> Db.hotelId x <> Db.p_hotelId p) ->
  Db.left_join (Db.Store (Db.hotels st) (Db.hotel_prices st ++ [p]))
  = Db.left_join st.
Proof.
  intro H. unfold Db.left_join. cbn [Db.hotels Db.hotel_prices].
  apply flat_map_ext_in. intros x Hx.
  rewrite filter_app. cbn [filter].
  replace (jseqb (Db.hotelId x) (Db.p_hotelId p)) with false.
  - rewrite app_nil_r. reflexivity.
  - symmetry. destruct (jseqb _ _) eqn:E; [|reflexivity].
    apply jseqb_eq in E. exfalso. apply (H x Hx E).
Qed.

(** X25.  [comparePrices] joins the prices to the hotels on the WebBeds
    id ([hotels.hotel_id]): a price saved under a key that is the
    [hotel_id] of no hotel changes no comparison.  The route that scrapes
    one hotel saves its price under the key of the row ([hotels.id]), so
    that, where the two differ, the hotel still compares without a
    price. *)
Theorem comparePrices_joins_on_hotel_id :
  forall st p checkInDate checkOutDate,
    (forall x, In x (Db.hotels st) -> Db.hotelId x <> Db.p_hotelId p) ->
    Db.compare_rows (Db.Store (Db.hotels st) (Db.hotel_prices st ++ [p]))
      checkInDate checkOutDate
    = Db.compare_rows st checkInDate checkOutDate.
Proof.
  intros st p ci co H. unfold Db.compare_rows, Db.query_rows.
  rewrite (left_join_foreign st p H). reflexivity.
Qed.

Lemma comparePrices_joins_on_hotel_id_witness :
  let row :=
    {| Db.p_id := lit "price_1703500000000";
       Db.p_hotelId := lit "hotel_2490015";
       Db.price := number_of_N 250; Db.currency := lit "$";
       Db.checkInDate := lit "2024-12-25";
       Db.checkOutDate := lit "2024-12-26";
       Db.recordedAt := 1703500000 |} in
  (exists result,
      Routes.post_scrape sample_site sample_driver sample_app
        (lit "hotel_2490015") (Some (lit "2024-12-25"))
        (Some (lit "2024-12-26")) tt
      = (Routes.ScrapeOk (Some result),
         Routes.App (Some (Db.Store (Db.hotels sample_store)
                             (Db.hotel_prices sample_store ++ [row])))
           (V1.Scraper true true), tt))
  /\ (forall x, In x (Db.hotels sample_store) ->
                Db.hotelId x <> Db.p_hotelId row)
  /\ map Db.latestPrice
       (Db.compare_rows
          (Db.Store (Db.hotels sample_store)
             (Db.hotel_prices sample_store ++ [row])) None None) = [None]
  /\ Db.compare_rows
       (Db.Store (Db.hotels sample_store)
          (Db.hotel_prices sample_store ++ [row])) None None
     = Db.compare_rows sample_store None None.
Proof.
  intro row.
  split; [eexists; vm_compute; reflexivity|].
  assert (H : forall x, In x (Db.hotels sample_store) ->
                        Db.hotelId x <> Db.p_hotelId row).
  { intros x [<-|[]]. discriminate. }
  split; [exact H|]. split; [vm_compute; reflexivity|].
  apply (comparePrices_joins_on_hotel_id sample_store row None None H).
Defined.

(* ===================================================================== *)
(** * The router and the other handlers *)
(* ===================================================================== *)

(** X26.  The routes [GET /compare] and [GET /predefined] are registered
    after [GET /:id], which matches every path of one segment: no request
    reaches their handlers.  A [GET] of one segment, [compare] and
    [predefined] included, is answered by the handler of [/:id] with the
    segment as the id; the seven other routes are reached. *)
Theorem routes_after_id_are_shadowed :
  (forall m path params,
      Routes.dispatch m path <> Some (Routes.RouteCompare, params)
      /\ Routes.dispatch m path <> Some (Routes.RoutePredefined, params))
  /\ (forall c s,
         Routes.dispatch Routes.GET [c :: s]
         = Some (Routes.RouteById, [c :: s]))
  /\ Routes.dispatch Routes.GET [lit "compare"]
     = Some (Routes.RouteById, [lit "compare"])
  /\ Routes.dispatch Routes.GET [lit "predefined"]
     = Some (Routes.RouteById, [lit "predefined"])
  /\ Routes.dispatch Routes.POST [lit "search"] = Some (Routes.RouteSearch, [])
  /\ Routes.dispatch Routes.POST [lit "add"] = Some (Routes.RouteAdd, [])
  /\ Routes.dispatch Routes.GET [] = Some (Routes.RouteList, [])
  /\ (forall c s,
         Routes.dispatch Routes.POST [c :: s; lit "scrape"]
         = Some (Routes.RouteScrape, [c :: s]))
  /\ (forall c s,
         Routes.dispatch Routes.DELETE [c :: s]
         = Some (Routes.RouteDelete, [c :: s]))
  /\ (forall c s,
         Routes.dispatch Routes.GET [c :: s; lit "history"]
         = Some (Routes.RouteHistory, [c :: s])).
Proof.
  split;
    [|repeat split; try reflexivity; intros c s;
      unfold Routes.dispatch, Routes.registrations;
      cbn [Routes.first_route Routes.method_eqb Routes.path_match];
      repeat match goal with
             | |- context [if jseqb (toUpperCase (c :: s)) ?l then _ else _] =>
                 destruct (jseqb (toUpperCase (c :: s)) l)
             end; reflexivity].
  assert (Hget : forall path r params,
             Routes.dispatch Routes.GET path = Some (r, params) ->
             r <> Routes.RouteCompare /\ r <> Routes.RoutePredefined).
  { intros path r params. unfold Routes.dispatch, Routes.registrations.
    cbn [Routes.first_route Routes.method_eqb].
    destruct path as [|s [|s2 [|s3 path]]];
      try (destruct s as [|c s]; [vm_compute; discriminate|]);
      cbn [Routes.path_match option_map];
      repeat match goal with
             | |- context [if jseqb ?a ?b then _ else _] =>
                 destruct (jseqb a b); cbn [Routes.path_match option_map]
             end;
      intro H; first [discriminate H | injection H as <- _; split; discriminate]. }
  intros m path params. destruct m.
  - split; intro H; apply Hget in H; destruct H; congruence.
  - unfold Routes.dispatch, Routes.registrations.
    cbn [Routes.first_route Routes.method_eqb].
    repeat match goal with
           | |- context [match ?o with Some _ => _ | None => _ end] =>
               destruct o
           end; split; discriminate.
  - unfold Routes.dispatch, Routes.registrations.
    cbn [Routes.first_route Routes.method_eqb].
    repeat match goal with
           | |- context [match ?o with Some _ => _ | None => _ end] =>
               destruct o
           end; split; discriminate.
Qed.

Lemma save_all_without_database W (hd : Db.host W) results w :
  Routes.save_all hd None results w
  = (match results with [] => Ok tt | _ => Throw Db.not_initialized end,
     None, w).
Proof. destruct results; reflexivity. Qed.

(** X27.  The database of the routes module is constructed and never
    initialised, and no handler initialises it: with such a handle every
    handler leaves it as it is; the handlers of [/add], [/], [/:id],
    [DELETE /:id], [/compare] and [/:id/scrape] answer 500 with the
    details ["Database not initialized"] once their arguments are
    accepted, and [/search] never answers with a result that it found. *)
Theorem handlers_without_database :
  forall W (hs : V1.host W) (hd : Db.host W) (s : V1.scraper) (w : W),
    let a := Routes.App None s in
    Routes.db module_app = None
    /\ (forall n ci co,
           Routes.db (snd (fst (Routes.post_search hs hd a n ci co w)))
           = None)
    /\ (forall id ci co,
           Routes.db (snd (fst (Routes.post_scrape hs hd a id ci co w)))
           = None)
    /\ (forall n i,
           Routes.db (snd (fst (Routes.post_add hs hd a n i w))) = None)
    /\ (forall id,
           Routes.db (snd (fst (Routes.delete_by_id hs hd a id w))) = None)
    /\ (forall c1 n c2 i,
           not_initialized_answer
             (fst (fst (Routes.post_add hs hd a (Some (c1 :: n))
                          (Some (c2 :: i)) w))))
    /\ not_initialized_answer (fst (Routes.get_all hs hd a w))
    /\ (forall id, not_initialized_answer (fst (Routes.get_by_id hs hd a id w)))
    /\ (forall id,
           not_initialized_answer
             (fst (fst (Routes.delete_by_id hs hd a id w))))
    /\ (forall ci co,
           not_initialized_answer (fst (Routes.get_compare hs hd a ci co w)))
    /\ (forall id c1 ci c2 co,
           fst (fst (Routes.post_scrape hs hd a id (Some (c1 :: ci))
                       (Some (c2 :: co)) w))
           = Routes.ServerError (lit "Failed to scrape hotel")
               Db.not_initialized)
    /\ (forall n ci co r results,
           fst (fst (Routes.post_search hs hd a n ci co w))
           <> Routes.SearchOk (r :: results)).
Proof.
  intros W hs hd s w a. subst a.
  split; [reflexivity|].
  split.
  { intros n ci co. unfold Routes.post_search. cbn [Routes.db Routes.scraper].
    destruct (Routes.truthy ci); [|reflexivity].
    destruct (Routes.truthy co); [|reflexivity].
    destruct (Routes.ensure_initialized hs s w) as [[[u|e] s1] w1];
      [|reflexivity].
    destruct (V1.searchMultipleHotels _ _ _ _ _ _ _) as [[l|e] w2];
      [|reflexivity].
    rewrite save_all_without_database. destruct l; reflexivity. }
  split.
  { intros id ci co. unfold Routes.post_scrape.
    cbn [Routes.db Routes.scraper Db.getHotel].
    destruct (Routes.truthy ci); [|reflexivity].
    destruct (Routes.truthy co); reflexivity. }
  split.
  { intros n i. unfold Routes.post_add. cbn [Routes.db Db.addHotel].
    destruct (Routes.truthy n); [|reflexivity].
    destruct (Routes.truthy i); reflexivity. }
  split; [intro id; reflexivity|].
  split; [intros c1 n c2 i; eexists; reflexivity|].
  split; [eexists; reflexivity|].
  split; [intro id; eexists; reflexivity|].
  split; [intro id; eexists; reflexivity|].
  split; [intros ci co; eexists; reflexivity|].
  split; [intros id c1 ci c2 co; reflexivity|].
  intros n ci co r results. unfold Routes.post_search.
  cbn [Routes.db Routes.scraper].
  destruct (Routes.truthy ci); [|discriminate].
  destruct (Routes.truthy co); [|discriminate].
  destruct (Routes.ensure_initialized hs s w) as [[[u|e] s1] w1];
    [|discriminate].
  destruct (V1.searchMultipleHotels _ _ _ _ _ _ _) as [[l|e] w2];
    [|discriminate].
  rewrite save_all_without_database. destruct l; discriminate.
Qed.

(* ===================================================================== *)
(** * The logger *)
(* ===================================================================== *)

Lemma getCurrentLogLevel_at_least_warn logLevel :
  match Logger.getCurrentLogLevel logLevel with
  | Some n => (1 <= n <= 3)%Z
  | None => True
  end.
Proof.
  unfold Logger.getCurrentLogLevel.
  set (level := match logLevel with [] => _ | _ => _ end).
  unfold Logger.lookup.
  repeat match goal with
         | |- context [if jseqb ?a ?b then _ else _] => destruct (jseqb a b)
         | |- context [if existsb ?f ?l then _ else _] => destruct (existsb f l)
         end; cbn; try exact I; lia.
Qed.

(** X28.  The threshold of the logger is never below [warn]: the
    configured level ["error"] has the number 0, which [||] replaces by
    the level [info], as it does for the empty and for an unknown name.
    So an entry of the level [error] or [warn] is written under every
    configuration, and under ["error"] the entries of the level [info]
    are written too.  An entry that is written makes one call of the
    method of [console] of its level, with the text
    ["[<time>] [<LEVEL>] <message>"], followed by [" | "] and the context
    when there is one; an entry that is suppressed does nothing. *)
Theorem logger_threshold :
  (forall logLevel,
      Logger.suppressed logLevel Error = false
      /\ Logger.suppressed logLevel Warn = false)
  /\ (forall l, Logger.suppressed (lit "error") l
                = Logger.suppressed (lit "info") l)
  /\ (forall l, Logger.suppressed [] l = Logger.suppressed (lit "info") l)
  /\ (forall l, Logger.suppressed (lit "verbose") l
                = Logger.suppressed (lit "info") l)
  /\ (forall l, Logger.suppressed (lit "info") l
                = match l with Debug => true | _ => false end)
  /\ (forall l, Logger.suppressed (lit "warn") l
                = match l with Debug | Info => true | _ => false end)
  /\ (forall l, Logger.suppressed (lit "debug") l = false)
  /\ (forall logLevel l1 l2,
         (Logger.logLevels l1 <= Logger.logLevels l2)%Z ->
         Logger.suppressed logLevel l1 = true ->
         Logger.suppressed logLevel l2 = true)
  /\ (forall W C (h : Logger.host W C) logLevel l message context w,
         Logger.log h logLevel l message context w
         = if Logger.suppressed logLevel l then w
           else
             Logger.console h l
               (lit "[" ++ fst (Logger.now_iso h w) ++ lit "] ["
                ++ toUpperCase (Logger.level_name l) ++ lit "] " ++ message
                ++ match context with
                   | Some c => lit " | " ++ Logger.stringify h c
                   | None => []
                   end)
               (snd (Logger.now_iso h w))).
Proof.
  split.
  { intro logLevel. unfold Logger.suppressed.
    pose proof (getCurrentLogLevel_at_least_warn logLevel) as H.
    destruct (Logger.getCurrentLogLevel logLevel) as [n|]; cbn;
      [|split; reflexivity].
    split; apply Z.ltb_ge; lia. }
  split; [intros []; reflexivity|].
  split; [intros []; reflexivity|].
  split; [intros []; reflexivity|].
  split; [intros []; reflexivity|].
  split; [intros []; reflexivity|].
  split; [intros []; reflexivity|].
  split.
  { intros logLevel l1 l2 Hle. unfold Logger.suppressed.
    destruct (Logger.getCurrentLogLevel logLevel) as [n|]; [|discriminate].
    rewrite !Z.ltb_lt. lia. }
  intros W C h logLevel l message context w. unfold Logger.log.
  destruct (Logger.suppressed logLevel l); [reflexivity|].
  destruct (Logger.now_iso h w) as [ts w1]. reflexivity.
Qed.

Lemma logger_threshold_witness :
  Logger.log listing_logger (lit "error") Info (lit "Server started")
    (Some (lit "{}")) []
  = [(Info, lit "[2024-12-25T10:00:00.000Z] [INFO] Server started | {}")]
  /\ Logger.log listing_logger (lit "error") Debug (lit "Server started")
       None []
     = [].
Proof.
  split.
  - rewrite (proj2 (proj2 (proj2 (proj2 (proj2 (proj2 (proj2
               (proj2 logger_threshold)))))))).
    reflexivity.
  - rewrite (proj2 (proj2 (proj2 (proj2 (proj2 (proj2 (proj2
               (proj2 logger_threshold)))))))).
    reflexivity.
Defined.

(* ===================================================================== *)
(** * The latest price of a comparison *)
(* ===================================================================== *)
















(* ===================================================================== *)
(** * The date range and the single search *)
(* ===================================================================== *)

(** C8 at the failing input.  [searchHotelPrices] is asked, on an
    initialised scraper whose page shows a hotel card, for a stay that
    ends the day before it starts.  No date-range validation fails the
    search: it returns a result that carries the reversed dates, as it
    does for every pair of dates it returns a result for.  The batch
    search, asked for the same dates, throws ["Check-in date must be
    before check-out date"].  In the routes module as it is loaded
    nothing is stored all the same: its database is never initialised,
    so the route that scrapes one hotel answers 500 before it searches,
    and the batch route answers 500 at the check of the dates. *)
Theorem single_search_accepts_reversed_range :
  V1.date_ge sample_site (lit "2024-12-26") (lit "2024-12-25") = true
  /\ (exists result,
        V1.searchHotelPrices sample_site Routes.scraperConfig
          (V1.Scraper true true)
          (lit "M Hotel Al Dana Makkah by Millennium")
          (lit "2024-12-26") (lit "2024-12-25") tt
        = (Ok (Some result), tt)
        /\ V1.checkIn result = lit "2024-12-26"
        /\ V1.checkOut result = lit "2024-12-25")
  /\ V1.searchMultipleHotels sample_site Routes.scraperConfig
       (V1.Scraper true true)
       [lit "M Hotel Al Dana Makkah by Millennium"]
       (lit "2024-12-26") (lit "2024-12-25") tt
     = (Throw (lit "Check-in date must be before check-out date"), tt)
  /\ (forall W (h : V1.host W) config s name ci co w r,
        fst (V1.searchHotelPrices h config s name ci co w) = Ok (Some r) ->
        V1.checkIn r = ci /\ V1.checkOut r = co)
  /\ Routes.post_scrape sample_site sample_driver module_app
       (lit "hotel_2490015")
       (Some (lit "2024-12-26")) (Some (lit "2024-12-25")) tt
     = (Routes.ServerError (lit "Failed to scrape hotel") Db.not_initialized,
        module_app, tt)
  /\ Routes.post_search sample_site sample_driver module_app
       (Some (lit "M Hotel Al Dana Makkah by Millennium"))
       (Some (lit "2024-12-26")) (Some (lit "2024-12-25")) tt
     = (Routes.ServerError (lit "Failed to search hotels")
          (lit "Check-in date must be before check-out date"),
        Routes.App None (V1.Scraper true true), tt).
Proof.
  split; [vm_compute; reflexivity|].
  split; [eexists; split; [vm_compute; reflexivity|split; reflexivity]|].
  split; [vm_compute; reflexivity|].
  split; [exact searchHotelPrices_echo|].
  split; vm_compute; reflexivity.
Qed.
